(** * The matchmaker of the colyseus game server

    A shallow embedding of [src/MatchMaker.ts]: the registry of room
    handlers, the table of local rooms, load-balanced room creation, remote
    room calls, seat reservation, the concurrency gate, the room events and
    graceful shutdown.

    The module-level variables of the source ([handlers], [rooms],
    [processId], [isGracefullyShuttingDown]) and the presence and driver
    back ends are the fields of one record, [World].  Every function of the
    source is a computation in the state-and-exception monad [M] over that
    record.  An [await] is sequential composition: one matchmaker task runs
    at a time (the source is single-threaded); the two places where the properties
    depend on interleaving (the timer of the concurrency gate and
    [Promise.all]) are modelled explicitly.  [src/Server.ts],
    [src/discovery] and [src/matchmaker/Lobby.ts] follow the matchmaker. *)

From Stdlib Require Import ZArith Lia Permutation Sorted.
From stdpp Require Import gmap strings list fin_maps pretty.

(** ** JavaScript values *)

Inductive JsVal : Type :=
| JUndefined
| JNull
| JBool (b : bool)
| JNum (n : Z)
| JStr (s : string).

#[global] Instance JsVal_eq_dec : EqDecision JsVal.
Proof. solve_decision. Defined.

(** [if (v)], [!v], [a && b], [a || b] test this. *)
Definition truthy (v : JsVal) : bool :=
  match v with
  | JUndefined | JNull => false
  | JBool b => b
  | JNum n => negb (n =? 0)%Z
  | JStr s => negb (String.eqb s "")
  end.

(** String conversion of a template literal [`${v}`] and of a property key. *)
Definition toString (v : JsVal) : string :=
  match v with
  | JUndefined => "undefined"
  | JNull => "null"
  | JBool true => "true"
  | JBool false => "false"
  | JNum n => pretty n
  | JStr s => s
  end.

(** A plain object with primitive fields: client options, query conditions,
    room listings. *)
Abbreviation JsObject := (gmap string JsVal).

(** [o.k], [undefined] when the key is absent. *)
Definition field (o : JsObject) (k : string) : JsVal := default JUndefined (o !! k).

(** [{...a, ...b}]: the keys of [b] override those of [a]. *)
Definition spread (a b : JsObject) : JsObject := b ∪ a.

(** What travels as an argument or a result of a room call ([any]). *)
Inductive Any : Type :=
| AVal (v : JsVal)
| AObj (o : JsObject).

Definition truthyAny (a : Any) : bool :=
  match a with
  | AVal v => truthy v
  | AObj _ => true
  end.

(** ** Errors *)

Inductive ErrorCode : Type :=
| ERR_MATCHMAKE_NO_HANDLER
| ERR_MATCHMAKE_INVALID_CRITERIA
| ERR_MATCHMAKE_INVALID_ROOM_ID
| ERR_MATCHMAKE_UNHANDLED
| ERR_MATCHMAKE_EXPIRED.

(** What a [throw] or a rejected promise carries.  [MatchMakeError] has its
    message and its code; the class, which is not among the sources, gives
    the code [ERR_MATCHMAKE_UNHANDLED] to an error that is made without one.
    [Failure] is any other [Error] (transport error, IPC timeout,
    [TypeError], [SyntaxError]); [Rejection] is a rejection with a value that
    is not an [Error], as in [Promise.reject(false)]. *)
Inductive Thrown : Type :=
| MatchMakeError (message : string) (code : option ErrorCode)
| SeatReservationError (message : string)
| Failure (message : string)
| Rejection (v : JsVal).

(** [e.message] *)
Definition message_of (e : Thrown) : JsVal :=
  match e with
  | MatchMakeError m _ | SeatReservationError m | Failure m => JStr m
  | Rejection _ => JUndefined
  end.

(** [e.constructor === SeatReservationError] *)
Definition isSeatReservationError (e : Thrown) : bool :=
  match e with
  | SeatReservationError _ => true
  | _ => false
  end.

Inductive Result (A : Type) : Type :=
| Ok (a : A)
| Throw (e : Thrown).
Arguments Ok {A} a.
Arguments Throw {A} e.

(** ** Rooms, handlers, seat reservations *)

Inductive RoomInternalState : Type := CREATING | CREATED | DISPOSING.

(** A room class: what [new klass()] gives before the matchmaker assigns
    anything, and whether the class defines [onCreate]. *)
Record RoomConstructor : Type := {
  klass_name : string;
  klass_onCreate : bool;
  klass_maxClients : JsVal;
}.

Record Room : Type := {
  room_roomId : string;
  room_roomName : string;
  room_klass : RoomConstructor;
  room_maxClients : JsVal;
  room_listing : JsObject;
  room_internalState : RoomInternalState;
}.

Record RegisteredHandler : Type := {
  klass : RoomConstructor;
  options : JsObject;
  filterOptions : list string;
  sortOptions : option (list (string * Z));
}.

Record SeatReservation : Type := {
  sessionId : JsVal;
  room : JsObject;
}.

(** [handler.emit(event, room)] and [setTimeout(_, ms)], as the matchmaker
    issues them. *)
Inductive Effect : Type :=
| Emit (handler event roomId : string)
| SetTimeout (ms : Z).

(** ** The state *)

Record World : Type := mkWorld {
  handlers : gmap string RegisteredHandler;
  rooms : gmap string Room;
  processId : string;
  isGracefullyShuttingDown : bool;
  (* presence: keys with counters, hashes in insertion order of their
     fields, channels this process is subscribed to *)
  presence_keys : gmap string Z;
  presence_hash : gmap string (list (string * Z));
  presence_channels : gset string;
  (* driver: the saved listings *)
  driver_rooms : list JsObject;
  (* number of ids generated so far *)
  generated : nat;
  (* the rest of the cluster (remote processes, the inside of the room
     instances), opaque to the matchmaker *)
  cluster : nat;
  (* effects issued, most recent first *)
  effects : list Effect;
}.

Definition set_handlers (f : gmap string RegisteredHandler → gmap string RegisteredHandler) (w : World) : World :=
  mkWorld (f (handlers w)) (rooms w) (processId w) (isGracefullyShuttingDown w)
    (presence_keys w) (presence_hash w) (presence_channels w) (driver_rooms w)
    (generated w) (cluster w) (effects w).

Definition set_rooms (f : gmap string Room → gmap string Room) (w : World) : World :=
  mkWorld (handlers w) (f (rooms w)) (processId w) (isGracefullyShuttingDown w)
    (presence_keys w) (presence_hash w) (presence_channels w) (driver_rooms w)
    (generated w) (cluster w) (effects w).

Definition set_processId (p : string) (w : World) : World :=
  mkWorld (handlers w) (rooms w) p (isGracefullyShuttingDown w)
    (presence_keys w) (presence_hash w) (presence_channels w) (driver_rooms w)
    (generated w) (cluster w) (effects w).

Definition set_isGracefullyShuttingDown (b : bool) (w : World) : World :=
  mkWorld (handlers w) (rooms w) (processId w) b
    (presence_keys w) (presence_hash w) (presence_channels w) (driver_rooms w)
    (generated w) (cluster w) (effects w).

Definition set_presence_keys (f : gmap string Z → gmap string Z) (w : World) : World :=
  mkWorld (handlers w) (rooms w) (processId w) (isGracefullyShuttingDown w)
    (f (presence_keys w)) (presence_hash w) (presence_channels w) (driver_rooms w)
    (generated w) (cluster w) (effects w).

Definition set_presence_hash
    (f : gmap string (list (string * Z)) → gmap string (list (string * Z))) (w : World) : World :=
  mkWorld (handlers w) (rooms w) (processId w) (isGracefullyShuttingDown w)
    (presence_keys w) (f (presence_hash w)) (presence_channels w) (driver_rooms w)
    (generated w) (cluster w) (effects w).

Definition set_presence_channels (f : gset string → gset string) (w : World) : World :=
  mkWorld (handlers w) (rooms w) (processId w) (isGracefullyShuttingDown w)
    (presence_keys w) (presence_hash w) (f (presence_channels w)) (driver_rooms w)
    (generated w) (cluster w) (effects w).

Definition set_driver_rooms (f : list JsObject → list JsObject) (w : World) : World :=
  mkWorld (handlers w) (rooms w) (processId w) (isGracefullyShuttingDown w)
    (presence_keys w) (presence_hash w) (presence_channels w) (f (driver_rooms w))
    (generated w) (cluster w) (effects w).

Definition set_generated (n : nat) (w : World) : World :=
  mkWorld (handlers w) (rooms w) (processId w) (isGracefullyShuttingDown w)
    (presence_keys w) (presence_hash w) (presence_channels w) (driver_rooms w)
    n (cluster w) (effects w).

Definition add_effect (e : Effect) (w : World) : World :=
  mkWorld (handlers w) (rooms w) (processId w) (isGracefullyShuttingDown w)
    (presence_keys w) (presence_hash w) (presence_channels w) (driver_rooms w)
    (generated w) (cluster w) (e :: effects w).

(** ** The monad of the matchmaker's functions *)

Definition M (A : Type) : Type := World → Result A * World.

Definition ret {A} (a : A) : M A := λ w, (Ok a, w).

Definition throw {A} (e : Thrown) : M A := λ w, (Throw e, w).

Definition bind {A B} (m : M A) (k : A → M B) : M B :=
  λ w, match m w with
       | (Ok a, w') => k a w'
       | (Throw e, w') => (Throw e, w')
       end.

(** [try { m } catch (e) { h e }] *)
Definition try_catch {A} (m : M A) (h : Thrown → M A) : M A :=
  λ w, match m w with
       | (Ok a, w') => (Ok a, w')
       | (Throw e, w') => h e w'
       end.

(** [try { m } finally { f }], for an [f] that does not throw *)
Definition try_finally {A} (m : M A) (f : World → World) : M A :=
  λ w, let '(r, w') := m w in (r, f w').

Definition get {A} (proj : World → A) : M A := λ w, (Ok (proj w), w).

Definition modify (f : World → World) : M unit := λ w, (Ok tt, f w).

Declare Scope mm_scope.
Delimit Scope mm_scope with mm.
Notation "'let*' x ':=' m 'in' k" := (bind m (λ x, k))
  (at level 10, x name, m at level 100, k at level 200) : mm_scope.
Notation "'run' m 'in' k" := (bind m (λ _, k))
  (at level 10, m at level 100, k at level 200) : mm_scope.
Open Scope mm_scope.

(** A promise, by when and how it settles; logical time. *)
Inductive Promise (A : Type) : Type :=
| Settles (time : nat) (outcome : Result A)
| Pending.
Arguments Settles {A} time outcome.
Arguments Pending {A}.

(** ** What the matchmaker imports

    The modules [IPC], [Utils], [Room], [RegisteredHandler] and the engine's
    built-ins are not part of the matchmaker; their behaviour is a field of
    this record, and every theorem holds for every such behaviour. *)

Record Environment : Type := {
  (* Utils.REMOTE_ROOM_SHORT_TIMEOUT *)
  REMOTE_ROOM_SHORT_TIMEOUT : Z;
  (* Utils.generateId: the id returned by the n-th call *)
  generateId_nth : nat → string;
  (* IPC.requestFromIPC<any>(presence, channel, method, args, timeout) *)
  requestFromIPC : string → option string → option (list Any) → option Z → M Any;
  (* IPC.requestFromIPC<RoomListingData>(presence, channel, method, args, timeout) *)
  requestFromIPC_RoomListingData :
    string → option string → option (list Any) → option Z → M JsObject;
  (* typeof room[method] === 'function' *)
  room_isFunction : Room → string → bool;
  (* room[method], a property read *)
  room_property : Room → string → Any;
  (* await room[method].apply(room, args) *)
  room_apply : Room → string → list Any → M Any;
  (* await room.onCreate(options); the room comes back as onCreate left it *)
  room_onCreate : Room → JsObject → M Room;
  (* room.disconnect() *)
  room_disconnect : Room → M (Promise Any);
  (* roomQuery.sort(sortOptions) *)
  query_sort : list (string * Z) → list JsObject → list JsObject;
  (* JSON.stringify *)
  JSON_stringify : list Any → string;
  (* Array.prototype.sort *)
  Array_sort : (string → string → Z) → list string → list string;
}.

(** ** Presence *)

(** Modelled from the spec: a hash of the presence back end, which is not
    among the sources, as the list of its fields in the order they were
    first set (the order of [Object.keys] on what [hgetall] returns). *)
Fixpoint hash_get (f : string) (h : list (string * Z)) : option Z :=
  match h with
  | [] => None
  | (k, v) :: t => if decide (k = f) then Some v else hash_get f t
  end.

(** Modelled from the spec: writing a field of a hash keeps the place of a
    field that exists and appends a new one. *)
Fixpoint hash_set (f : string) (v : Z) (h : list (string * Z)) : list (string * Z) :=
  match h with
  | [] => [(f, v)]
  | (k, x) :: t => if decide (k = f) then (k, v) :: t else (k, x) :: hash_set f v t
  end.

(** Modelled from the spec: deleting a field of a hash. *)
Fixpoint hash_del (f : string) (h : list (string * Z)) : list (string * Z) :=
  match h with
  | [] => []
  | (k, x) :: t => if decide (k = f) then hash_del f t else (k, x) :: hash_del f t
  end.

Module presence.

(** Modelled from the spec: the presence back end ([Presence],
    [LocalPresence]) is not among the sources.  Section 4.1 gives counter
    operations [incr], [decr], [del] on keys, hash operations [hset],
    [hgetall], [hincrby], [hdel], and [subscribe] and [unsubscribe] on
    channels; section 6 stores the room count as a hash from process id to a
    decimal string, kept here as the integer it denotes.  [incr] counts an
    absent key as zero. *)
Definition incr (key : string) : M Z :=
  λ w, let v := (default 0 (presence_keys w !! key) + 1)%Z in
       (Ok v, set_presence_keys <[key := v]> w).

(** Modelled from the spec: [Presence.decr], the counter operation of
    section 4.1. *)
Definition decr (key : string) : M Z :=
  λ w, let v := (default 0 (presence_keys w !! key) - 1)%Z in
       (Ok v, set_presence_keys <[key := v]> w).

(** Modelled from the spec: [Presence.del], which deletes a key
    (section 4.1). *)
Definition del (key : string) : M unit :=
  modify (set_presence_keys (delete key)).

(** Modelled from the spec: [Presence.hgetall], the whole hash
    (section 4.1). *)
Definition hgetall (key : string) : M (list (string * Z)) :=
  get (λ w, default [] (presence_hash w !! key)).

(** Modelled from the spec: [Presence.hset] (section 4.1). *)
Definition hset (key f : string) (v : Z) : M unit :=
  modify (set_presence_hash (λ h, <[key := hash_set f v (default [] (h !! key))]> h)).

(** Modelled from the spec: [Presence.hincrby] (section 4.1); an absent
    field counts as zero. *)
Definition hincrby (key f : string) (n : Z) : M unit :=
  modify (set_presence_hash (λ h,
    let old := default [] (h !! key) in
    <[key := hash_set f (default 0 (hash_get f old) + n)%Z old]> h)).

(** Modelled from the spec: [Presence.hdel] (section 4.1). *)
Definition hdel (key f : string) : M unit :=
  modify (set_presence_hash (λ h, <[key := hash_del f (default [] (h !! key))]> h)).

(** Modelled from the spec: [Presence.subscribe] (section 4.1); the handler
    is installed when it returns. *)
Definition subscribe (channel : string) : M unit :=
  modify (set_presence_channels (λ s, {[channel]} ∪ s)).

(** Modelled from the spec: [Presence.unsubscribe] (section 4.1). *)
Definition unsubscribe (channel : string) : M unit :=
  modify (set_presence_channels (λ s, s ∖ {[channel]})).

End presence.

(** Modelled from the spec: [IPC.subscribeIPC] is not among the sources; by
    section 4.2 it subscribes on the channel (the dispatch function it
    installs is [room_property] and [room_apply] of the environment). *)
Definition subscribeIPC (channel : string) : M unit := presence.subscribe channel.

(** ** Keys and channels *)

Definition getRoomChannel (roomId : string) : string := "$" +:+ roomId.

Definition getHandlerConcurrencyKey (name : string) : string := "c:" +:+ name.

Definition getProcessChannel (id : string) : string := "p:" +:+ id.

Definition getRoomCountKey : string := "roomcount".

(** ** Driver *)

Module driver.

(** Modelled from the spec: the listing store ([Driver], [LocalDriver]) is
    not among the sources.  By sections 3 and 4.3 a listing has the fields
    [clients], [locked], [private] and [unlisted] besides those it is created
    with; [find] and [findOne] return the saved listings that have the
    queried value in every queried field, [findOne] the first of them, after
    the [sort] when one is chained; [save] persists a listing, keyed by its
    [roomId]; [remove] deletes it.  [matches] is the test of a listing
    against the conditions of a query. *)
Definition matches (conditions l : JsObject) : bool :=
  bool_decide (map_Forall (λ k v, field l k = v) conditions).

(** Modelled from the spec: [Driver.createInstance] (section 4.3), a new
    listing with the fields of section 3 and the initial values; a room
    starts unlocked and public. *)
Definition createInstance (initialValues : JsObject) : JsObject :=
  spread
    (<["clients" := JNum 0]> (<["locked" := JBool false]>
      (<["private" := JBool false]> (<["unlisted" := JBool false]> ∅))))
    initialValues.

(** Modelled from the spec: two listings are of the same room when they
    have the same [roomId]. *)
Definition sameRoom (a b : JsObject) : bool :=
  bool_decide (field a "roomId" = field b "roomId").

(** Modelled from the spec: [listing.save()] (section 4.3). *)
Definition save (l : JsObject) : M unit :=
  modify (set_driver_rooms (λ ls,
    if existsb (sameRoom l) ls
    then map (λ x, if sameRoom l x then l else x) ls
    else ls ++ [l])).

(** Modelled from the spec: [listing.remove()] (section 4.3). *)
Definition remove (l : JsObject) : M unit :=
  modify (set_driver_rooms (List.filter (λ x, negb (sameRoom l x)))).

(** Modelled from the spec: [Driver.find] (section 4.3). *)
Definition find (conditions : JsObject) : M (list JsObject) :=
  get (λ w, List.filter (matches conditions) (driver_rooms w)).

(** Modelled from the spec: [Driver.findOne] (section 4.3), with the chained
    [sort] as its first argument. *)
Definition findOne (sort : list JsObject → list JsObject) (conditions : JsObject)
    : M (option JsObject) :=
  get (λ w, head (List.filter (matches conditions) (sort (driver_rooms w)))).

End driver.

(** Modelled from the spec: the keys of a listing that the matchmaker and
    the driver set themselves (section 3), which a handler does not take
    from the options of a client. *)
Definition INVALID_OPTION_KEYS : list string :=
  ["clients"; "locked"; "private"; "metadata"; "name"; "processId"; "roomId"].

(** Modelled from the spec: [RegisteredHandler.getFilterOptions] is not among
    the sources; by sections 3 and 9 the filter options are the client's
    options projected on the handler's [filterBy] keys.  An option that is
    absent or falsy gives no condition, and a key that the listing uses for
    itself is ignored: the conditions [locked], [private] and [name] of a
    query cannot be overridden by a client. *)
Definition getFilterOptions (h : RegisteredHandler) (clientOptions : JsObject) : JsObject :=
  foldr (λ k acc,
           if truthy (field clientOptions k) &&
              negb (bool_decide (k ∈ INVALID_OPTION_KEYS))
           then <[k := field clientOptions k]> acc
           else acc) ∅ (filterOptions h).

(** Modelled from the spec: [Utils.merge] is not among the sources; section
    4.8 passes [onCreate] the client's options merged with the handler's. *)
Definition merge (a b c : JsObject) : JsObject := spread (spread a b) c.

(** Modelled from the spec: [Utils.retry] is not among the sources.  Section
    4.5: a retry loop of up to [maxRetries] attempts, which retries only on
    an error of the white list. *)
Fixpoint retry {A} (cb : M A) (maxRetries : nat) (errorWhiteList : Thrown → bool) : M A :=
  λ w, match cb w with
       | (Ok a, w') => (Ok a, w')
       | (Throw e, w') =>
           match maxRetries with
           | S (S _ as left) =>
               if errorWhiteList e then retry cb left errorWhiteList w' else (Throw e, w')
           | _ => (Throw e, w')
           end
       end.

Definition dquote : string := String (Ascii.ascii_of_nat 34) EmptyString.

(** ** [Promise.all] and [Promise.allSettled] *)

(** The earliest rejection among the promises; of two at the same time, the
    one of the earlier promise. *)
Fixpoint first_rejection {A} (ps : list (Promise A)) : option (nat * Thrown) :=
  match ps with
  | [] => None
  | Settles t (Throw e) :: rest =>
      match first_rejection rest with
      | Some (t', e') => if (t' <? t)%nat then Some (t', e') else Some (t, e)
      | None => Some (t, e)
      end
  | _ :: rest => first_rejection rest
  end.

(** When the last promise is fulfilled and with which values, if all are. *)
Fixpoint all_fulfilled {A} (ps : list (Promise A)) : option (nat * list A) :=
  match ps with
  | [] => Some (0%nat, [])
  | Settles t (Ok a) :: rest =>
      match all_fulfilled rest with
      | Some (t', vs) => Some (Nat.max t t', a :: vs)
      | None => None
      end
  | _ :: _ => None
  end.

(** [Promise.all(ps)]: rejected as soon as one of [ps] is, with its reason;
    fulfilled once all are. *)
Definition Promise_all {A} (ps : list (Promise A)) : Promise (list A) :=
  match first_rejection ps with
  | Some (t, e) => Settles t (Throw e)
  | None =>
      match all_fulfilled ps with
      | Some (t, vs) => Settles t (Ok vs)
      | None => Pending
      end
  end.

(** When the last promise settles and the outcomes, if all settle. *)
Fixpoint all_settled {A} (ps : list (Promise A)) : option (nat * list (Result A)) :=
  match ps with
  | [] => Some (0%nat, [])
  | Settles t r :: rest =>
      match all_settled rest with
      | Some (t', rs) => Some (Nat.max t t', r :: rs)
      | None => None
      end
  | Pending :: _ => None
  end.

(** [Promise.allSettled(ps)], the semantics section 4.14 of the specification
    asks of the shutdown: fulfilled with every outcome once all of [ps] have
    settled, never rejected. *)
Definition Promise_allSettled {A} (ps : list (Promise A)) : Promise (list (Result A)) :=
  match all_settled ps with
  | Some (t, rs) => Settles t (Ok rs)
  | None => Pending
  end.

(** ** The registry of handlers

    [handlers] is a plain object.  [handlers[name]] is the handler
    registered under the name when there is one; for another name it is
    what every object inherits from [Object.prototype] (a function, or the
    prototype itself for [__proto__]: neither [undefined] nor falsy, and
    without the members of a handler), and [undefined] only when the name is
    not inherited either.

    The assignment [handlers[name] = handler] adds the handler under every
    name but [__proto__], for which it replaces the prototype of the
    registry: what the registry then inherits depends on the class
    [RegisteredHandler], which is not among the sources, and that state is
    not modelled.  Room types are registered under other names here. *)

Definition Object_prototype : list string :=
  ["constructor"; "hasOwnProperty"; "isPrototypeOf"; "propertyIsEnumerable";
   "toLocaleString"; "toString"; "valueOf"; "__proto__";
   "__defineGetter__"; "__defineSetter__"; "__lookupGetter__"; "__lookupSetter__"].

Inductive Registered : Type :=
| registered (handler : RegisteredHandler)
| inherited
| unregistered.

(** [handlers[name]] *)
Definition registry_get (hs : gmap string RegisteredHandler) (name : string) : Registered :=
  match hs !! name with
  | Some h => registered h
  | None => if bool_decide (name ∈ Object_prototype) then inherited else unregistered
  end.

(** ** The matchmaker *)

Section MatchMaker.

Variable E : Environment.

Definition generateId : M string :=
  λ w, (Ok (generateId_nth E (generated w)), set_generated (S (generated w)) w).

(** [handlers[name].emit(event, room)]; a [TypeError] when no handler has
    the name: the read of [emit] fails on [undefined], and what is inherited
    from [Object.prototype] has no [emit] to call. *)
Definition emit (name event : string) (r : Room) : M unit :=
  λ w, match registry_get (handlers w) name with
       | registered _ => (Ok tt, add_effect (Emit name event (room_roomId r)) w)
       | inherited => (Throw (Failure "handlers[...].emit is not a function"), w)
       | unregistered => (Throw (Failure "Cannot read property 'emit' of undefined"), w)
       end.

(** [setup], for the presence and the driver of the state. *)
Definition setup (_processId : string) : M unit :=
  run modify (set_processId _processId) in
  run modify (set_isGracefullyShuttingDown false) in
  run subscribeIPC (getProcessChannel _processId) in
  presence.hset getRoomCountKey _processId 0.

Definition remoteRoomCall (roomId method : string) (args : option (list Any))
    (rejectionTimeout : option Z) : M Any :=
  let rejectionTimeout := default (REMOTE_ROOM_SHORT_TIMEOUT E) rejectionTimeout in
  let* room := get (λ w, rooms w !! roomId) in
  match room with
  | None =>
      try_catch
        (requestFromIPC E (getRoomChannel roomId) (Some method) args None)
        (λ e,
           let request :=
             method +:+ match args with
                        | Some a => " with args " +:+ JSON_stringify E a
                        | None => ""
                        end in
           throw (MatchMakeError
                    ("remote room (" +:+ roomId +:+ ") timed out, requesting " +:+ dquote
                       +:+ request +:+ dquote +:+ ". (" +:+ pretty rejectionTimeout
                       +:+ "ms exceeded)")
                    (Some ERR_MATCHMAKE_UNHANDLED)))
  | Some room =>
      if negb (bool_decide (is_Some args)) && negb (room_isFunction E room method)
      then ret (room_property E room method)
      else room_apply E room method (default [] args)
  end.

Definition reserveSeatFor (room : JsObject) (options : JsObject) : M SeatReservation :=
  let* sessionId := generateId in
  let roomId := toString (field room "roomId") in
  let* successfulSeatReservation :=
    try_catch
      (remoteRoomCall roomId "_reserveSeat" (Some [AVal (JStr sessionId); AObj options]) None)
      (λ e, ret (AVal (JBool false))) in
  if negb (truthyAny successfulSeatReservation)
  then throw (SeatReservationError (roomId +:+ " is already full."))
  else ret {| room := room; sessionId := JStr sessionId |}.

Definition joinById (roomId : string) (options : JsObject) : M SeatReservation :=
  let* room := driver.findOne id {["roomId" := JStr roomId]} in
  match room with
  | Some room =>
      let rejoinSessionId := field options "sessionId" in
      if truthy rejoinSessionId then
        let* hasReservedSeat :=
          remoteRoomCall (toString (field room "roomId")) "hasReservedSeat"
            (Some [AVal rejoinSessionId]) None in
        if truthyAny hasReservedSeat
        then ret {| room := room; sessionId := rejoinSessionId |}
        else throw (MatchMakeError "session expired" (Some ERR_MATCHMAKE_EXPIRED))
      else if negb (truthy (field room "locked")) then
        reserveSeatFor room options
      else
        throw (MatchMakeError ("room " +:+ dquote +:+ roomId +:+ dquote +:+ " is locked")
                 (Some ERR_MATCHMAKE_INVALID_ROOM_ID))
  | None =>
      throw (MatchMakeError ("room " +:+ dquote +:+ roomId +:+ dquote +:+ " not found")
               (Some ERR_MATCHMAKE_INVALID_ROOM_ID))
  end.


(** The executor of the promise that [awaitRoomAvailable] returns: all of it
    up to the call of [setTimeout]. *)
Definition awaitRoomAvailable_executor (roomToJoin : string) : M Z :=
  let concurrencyKey := getHandlerConcurrencyKey roomToJoin in
  let* n := presence.incr concurrencyKey in
  let concurrency := (n - 1)%Z in
  let concurrencyTimeout := Z.min (concurrency * 100) (REMOTE_ROOM_SHORT_TIMEOUT E) in
  run modify (add_effect (SetTimeout concurrencyTimeout)) in
  ret concurrencyTimeout.

(** The function given to [setTimeout]: the callback, then [decr] in the
    [finally] block. *)
Definition awaitRoomAvailable_timer {A} (roomToJoin : string) (callback : M A) : M A :=
  let concurrencyKey := getHandlerConcurrencyKey roomToJoin in
  try_finally callback (λ w, snd (presence.decr concurrencyKey w)).

(** One joiner from start to end, with nothing running in between. *)
Definition awaitRoomAvailable {A} (roomToJoin : string) (callback : M A) : M A :=
  run awaitRoomAvailable_executor roomToJoin in
  awaitRoomAvailable_timer roomToJoin callback.

(** The conditions of the query of [findOneRoomAvailable]. *)
Definition roomQuery_conditions (roomName : string) (handler : RegisteredHandler)
    (options : JsObject) : JsObject :=
  spread
    (<["locked" := JBool false]> (<["name" := JStr roomName]>
      (<["private" := JBool false]> ∅)))
    (getFilterOptions handler options).

Definition findOneRoomAvailable_callback (roomName : string) (options : JsObject)
    : M (option JsObject) :=
  let* handler := get (λ w, registry_get (handlers w) roomName) in
  match handler with
  | unregistered =>
      throw (MatchMakeError (dquote +:+ roomName +:+ dquote +:+ " not defined")
               (Some ERR_MATCHMAKE_NO_HANDLER))
  | inherited =>
      (* the guard [!handler] lets it through *)
      throw (Failure "handler.getFilterOptions is not a function")
  | registered handler =>
      driver.findOne
        (match sortOptions handler with
         | Some o => query_sort E o
         | None => id
         end)
        (roomQuery_conditions roomName handler options)
  end.

Definition findOneRoomAvailable (roomName : string) (options : JsObject)
    : M (option JsObject) :=
  awaitRoomAvailable roomName (findOneRoomAvailable_callback roomName options).

Definition createRoomReferences (r : Room) (init : bool) : M bool :=
  run modify (set_rooms <[room_roomId r := r]>) in
  run (if init then subscribeIPC (getRoomChannel (room_roomId r)) else ret tt) in
  ret true.

Definition clearRoomReferences (r : Room) : M unit :=
  presence.del (room_roomId r).

(** [throw new MatchMakeError(e.message)] in the [catch] block of
    [handleCreateRoom]: the code is the default of the class and the message
    is the empty one of [Error] when [e.message] is undefined; the read of
    [e.message] is itself a [TypeError] when what was thrown is [undefined]
    or [null]. *)
Definition MatchMakeError_of (e : Thrown) : Thrown :=
  match e with
  | Rejection JUndefined => Failure "Cannot read property 'message' of undefined"
  | Rejection JNull => Failure "Cannot read property 'message' of null"
  | _ =>
      MatchMakeError (match message_of e with JStr m => m | _ => "" end)
        (Some ERR_MATCHMAKE_UNHANDLED)
  end.

(** The room after [new klass()] and the first assignments of
    [handleCreateRoom]: id, name, and the listing of [driver.createInstance]. *)
Definition room_new (roomName : string) (registeredHandler : RegisteredHandler)
    (clientOptions : JsObject) (processId roomId : string) : Room :=
  {| room_roomId := roomId;
     room_roomName := roomName;
     room_klass := klass registeredHandler;
     room_maxClients := klass_maxClients (klass registeredHandler);
     room_listing :=
       driver.createInstance
         (spread (<["name" := JStr roomName]> (<["processId" := JStr processId]> ∅))
            (getFilterOptions registeredHandler clientOptions));
     room_internalState := CREATING |}.

(** The assignments after [onCreate]: the state [CREATED], and the id and
    [maxClients] copied to the listing. *)
Definition room_created (r : Room) : Room :=
  {| room_roomId := room_roomId r;
     room_roomName := room_roomName r;
     room_klass := room_klass r;
     room_maxClients := room_maxClients r;
     room_listing :=
       <["maxClients" := room_maxClients r]>
         (<["roomId" := JStr (room_roomId r)]> (room_listing r));
     room_internalState := CREATED |}.

Definition handleCreateRoom (roomName : string) (clientOptions : JsObject) : M JsObject :=
  let* registeredHandler := get (λ w, registry_get (handlers w) roomName) in
  match registeredHandler with
  | unregistered =>
      throw (MatchMakeError (dquote +:+ roomName +:+ dquote +:+ " not defined")
               (Some ERR_MATCHMAKE_NO_HANDLER))
  | inherited =>
      (* the guard [!registeredHandler] lets it through *)
      throw (Failure "registeredHandler.klass is not a constructor")
  | registered registeredHandler =>
      let* roomId := generateId in
      let* pid := get processId in
      let r := room_new roomName registeredHandler clientOptions pid roomId in
      let* r :=
        if klass_onCreate (klass registeredHandler) then
          try_catch
            (let* r' := room_onCreate E r (merge ∅ clientOptions (options registeredHandler)) in
             (* increment amount of rooms this process is handling *)
             let* pid := get processId in
             run presence.hincrby getRoomCountKey pid 1 in
             ret r')
            (λ e, throw (MatchMakeError_of e))
        else ret r in
      let r := room_created r in
      (* the listeners of the room's events: see [RoomEvent] *)
      run createRoomReferences r true in
      run driver.save (room_listing r) in
      run modify (add_effect (Emit roomName "create" (room_roomId r))) in
      ret (room_listing r)
  end.

(** [Object.keys(roomsSpawnedByProcessId).sort(...)[0] || processId] *)
Definition processIdWithFewerRooms (roomsSpawnedByProcessId : list (string * Z))
    (processId : string) : string :=
  let Number p := default 0%Z (hash_get p roomsSpawnedByProcessId) in
  let sorted :=
    Array_sort E (λ p1 p2, if (Number p2 <? Number p1)%Z then 1%Z else (-1)%Z)
      (roomsSpawnedByProcessId.*1) in
  match head sorted with
  | Some p => if String.eqb p "" then processId else p
  | None => processId
  end.

Definition createRoom (roomName : string) (clientOptions : JsObject) : M JsObject :=
  let* roomsSpawnedByProcessId := presence.hgetall getRoomCountKey in
  let* pid := get processId in
  let target := processIdWithFewerRooms roomsSpawnedByProcessId pid in
  if decide (target = pid) then
    handleCreateRoom roomName clientOptions
  else
    try_catch
      (requestFromIPC_RoomListingData E (getProcessChannel target) None
         (Some [AVal (JStr roomName); AObj clientOptions])
         (Some (REMOTE_ROOM_SHORT_TIMEOUT E)))
      (λ e, handleCreateRoom roomName clientOptions).

(** One attempt of [joinOrCreate], the function given to [retry]. *)
Definition joinOrCreate_attempt (roomName : string) (options : JsObject) : M SeatReservation :=
  let* found := findOneRoomAvailable roomName options in
  let* listing :=
    match found with
    | Some l => ret l
    | None => createRoom roomName options
    end in
  reserveSeatFor listing options.

Definition joinOrCreate (roomName : string) (options : JsObject) : M SeatReservation :=
  retry (joinOrCreate_attempt roomName options) 5 isSeatReservationError.

Definition create (roomName : string) (options : JsObject) : M SeatReservation :=
  let* listing := createRoom roomName options in
  reserveSeatFor listing options.

(** Perform a query for all cached rooms. *)
Definition query (conditions : JsObject) : M (list JsObject) :=
  driver.find conditions.

(** [handlers[name] !== undefined] *)
Definition hasHandler (name : string) : M bool :=
  get (λ w, match registry_get (handlers w) name with
            | unregistered => false
            | _ => true
            end).

Definition getRoomById (roomId : string) : M (option Room) :=
  get (λ w, rooms w !! roomId).

Definition lockRoom (roomName : string) (r : Room) : M unit :=
  run clearRoomReferences r in
  emit (room_roomName r) "lock" r.

Definition unlockRoom (roomName : string) (r : Room) : M unit :=
  let* created := createRoomReferences r false in
  if created then emit (room_roomName r) "unlock" r else ret tt.

Definition disposeRoom (roomName : string) (r : Room) : M unit :=
  let* shuttingDown := get isGracefullyShuttingDown in
  run (if negb shuttingDown
       then let* pid := get processId in presence.hincrby getRoomCountKey pid (-1)
       else ret tt) in
  run driver.remove (room_listing r) in
  run emit roomName "dispose" r in
  run presence.del (getHandlerConcurrencyKey roomName) in
  run clearRoomReferences r in
  run presence.unsubscribe (getRoomChannel (room_roomId r)) in
  modify (set_rooms (delete (room_roomId r))).

(** The body of the [for (const roomId in rooms)] loop over the keys the
    table had when the loop started; a key deleted meanwhile is skipped. *)
Fixpoint disconnectRooms (roomIds : list string) : M (list (Promise Any)) :=
  match roomIds with
  | [] => ret []
  | roomId :: rest =>
      let* r := get (λ w, rooms w !! roomId) in
      match r with
      | None => disconnectRooms rest
      | Some r =>
          let* p := room_disconnect E r in
          let* ps := disconnectRooms rest in
          ret (p :: ps)
      end
  end.

Definition gracefullyShutdown : M (Promise (list Any)) :=
  let* shuttingDown := get isGracefullyShuttingDown in
  if shuttingDown then
    ret (Settles 0 (Throw (Rejection (JBool false))))
  else
    run modify (set_isGracefullyShuttingDown true) in
    let* pid := get processId in
    run presence.hdel getRoomCountKey pid in
    run presence.unsubscribe (getProcessChannel pid) in
    let* roomIds := get (λ w, (map_to_list (rooms w)).*1) in
    let* promises := disconnectRooms roomIds in
    ret (Promise_all promises).

End MatchMaker.

(** ** The events of a room

    [handleCreateRoom] binds [lockRoom], [unlockRoom] and [disposeRoom] to
    the events [lock], [unlock] and [dispose] of the room it creates.  The
    room is the entry of the local table: the listener holds the same
    object. *)

Inductive RoomEvent : Type := ev_lock | ev_unlock | ev_dispose.

(** Modelled from the spec: the class [Room] is not among the sources.  By
    section 4.11 the room itself persists the flag [locked] of its listing
    before it emits [lock] (and clears it before [unlock]). *)
Definition Room_set_locked (b : bool) (r : Room) : M Room :=
  let r' :=
    {| room_roomId := room_roomId r;
       room_roomName := room_roomName r;
       room_klass := room_klass r;
       room_maxClients := room_maxClients r;
       room_listing := <["locked" := JBool b]> (room_listing r);
       room_internalState := room_internalState r |} in
  run modify (set_rooms (λ t, <[room_roomId r := r']> t)) in
  run driver.save (room_listing r') in
  ret r'.

Section Events.

Variable E : Environment.

(** What the matchmaker runs when the room [r] of its table emits [ev]. *)
Definition on_event (ev : RoomEvent) (r : Room) : M unit :=
  match ev with
  | ev_lock =>
      let* r' := Room_set_locked true r in
      lockRoom (room_roomName r) r'
  | ev_unlock =>
      let* r' := Room_set_locked false r in
      unlockRoom (room_roomName r) r'
  | ev_dispose => disposeRoom (room_roomName r) r
  end.

(** [handlers[name] = registeredHandler] of [defineRoomType] and
    [delete handlers[name]] of [removeRoomType]. *)
Definition defineRoomType_register (name : string) (h : RegisteredHandler) : M unit :=
  modify (set_handlers <[name := h]>).

Definition removeRoomType_delete (name : string) : M unit :=
  modify (set_handlers (delete name)).

(** One step of the matchmaker: a room is created, a room of the table
    emits an event, a room type is registered (under a name that is a key
    of the registry) or removed. *)
Inductive step : World → World → Prop :=
| step_create roomName clientOptions w :
    step w (handleCreateRoom E roomName clientOptions w).2
| step_event ev roomId r w :
    rooms w !! roomId = Some r →
    step w (on_event ev r w).2
| step_define name h w :
    name ≠ "__proto__" →
    step w (defineRoomType_register name h w).2
| step_remove name w :
    step w (removeRoomType_delete name w).2.

Definition empty_world : World :=
  mkWorld ∅ ∅ "" false ∅ ∅ ∅ [] 0 0 [].

(** The states after [setup] and any number of steps. *)
Inductive reachable : World → Prop :=
| reachable_setup pid n : reachable (setup pid (set_generated n empty_world)).2
| reachable_step w w' : reachable w → step w w' → reachable w'.

End Events.

(** Every room of the local table is subscribed on its channel, under the
    key that is its id. *)
Definition table_subscribed (w : World) : Prop :=
  ∀ roomId r, rooms w !! roomId = Some r →
    room_roomId r = roomId ∧ getRoomChannel roomId ∈ presence_channels w.

(** [room.listing.locked] *)
Definition room_locked (r : Room) : bool := truthy (field (room_listing r) "locked").

(** ** Joiners at the concurrency gate

    Several calls of [awaitRoomAvailable] for one room name interleave: each
    runs its executor when it is called and its timer function later.  A
    schedule is a list of such moments; the timers that were set and have not
    fired are kept in the order they were set. *)

Inductive GateAction (A : Type) : Type :=
| Enter (callback : M A)
| Fire (i : nat).
Arguments Enter {A} callback.
Arguments Fire {A} i.

Fixpoint gate_run {A} (E : Environment) (roomToJoin : string) (actions : list (GateAction A))
    (pending : list (Z * M A)) (w : World) : list (Z * M A) * World :=
  match actions with
  | [] => (pending, w)
  | Enter cb :: rest =>
      match awaitRoomAvailable_executor E roomToJoin w with
      | (Ok delay, w') => gate_run E roomToJoin rest (pending ++ [(delay, cb)]) w'
      | (Throw _, w') => gate_run E roomToJoin rest pending w'
      end
  | Fire i :: rest =>
      match pending !! i with
      | Some (_, cb) =>
          gate_run E roomToJoin rest (delete i pending)
            (awaitRoomAvailable_timer roomToJoin cb w).2
      | None => gate_run E roomToJoin rest pending w
      end
  end.

(** The value of the concurrency counter of a room name. *)
Definition concurrency_counter (name : string) (w : World) : Z :=
  default 0%Z (presence_keys w !! getHandlerConcurrencyKey name).

(** A callback that leaves the counter of the room name alone. *)
Definition keeps_counter {A} (name : string) (cb : M A) : Prop :=
  ∀ w, concurrency_counter name (cb w).2 = concurrency_counter name w.

(** The callbacks of a schedule. *)
Fixpoint callbacks {A} (actions : list (GateAction A)) : list (M A) :=
  match actions with
  | [] => []
  | Enter cb :: rest => cb :: callbacks rest
  | Fire _ :: rest => callbacks rest
  end.

(** ** The attempts of a retry loop *)

(** [attempts cb n w out]: started in [w], the first [n - 1] runs of [cb]
    fail with a [SeatReservationError] and the [n]-th run ends as [out]. *)
Inductive attempts {A} (cb : M A) : nat → World → Result A * World → Prop :=
| attempts_last w : attempts cb 1 w (cb w)
| attempts_again n w message w' out :
    cb w = (Throw (SeatReservationError message), w') →
    attempts cb n w' out →
    attempts cb (S n) w out.

(** ** The room count and the choice of the process *)

(** [roomcount[pid]], zero when the field is absent. *)
Definition roomCount (w : World) (pid : string) : Z :=
  default 0%Z (hash_get pid (default [] (presence_hash w !! getRoomCountKey))).

(** What every comparison sort gives when each answer of the comparator
    agrees with one total preorder, here the order of [key]: a permutation of
    the array, in the order of [key]. *)
Definition sorts (sort : (string → string → Z) → list string → list string) : Prop :=
  ∀ cmp l,
    Permutation (sort cmp l) l ∧
    ∀ key : string → Z,
      (∀ a b, ((cmp a b < 0)%Z → (key a ≤ key b)%Z) ∧
              ((cmp a b = 0)%Z → key a = key b) ∧
              ((0 < cmp a b)%Z → (key b < key a)%Z)) →
      StronglySorted (λ a b, (key a ≤ key b)%Z) (sort cmp l).

(** The choice as the specification words it (sections 4.7 and 8): the
    smallest count and, among the process ids that have it, the first in the
    order of the keys. *)
Fixpoint first_smallest (h : list (string * Z)) : option (string * Z) :=
  match h with
  | [] => None
  | (k, v) :: t =>
      match first_smallest t with
      | Some (k', v') => if (v' <? v)%Z then Some (k', v') else Some (k, v)
      | None => Some (k, v)
      end
  end.

Definition target_by_key_order (h : list (string * Z)) (processId : string) : string :=
  match first_smallest h with
  | Some (k, _) => k
  | None => processId
  end.

(** An insertion sort that searches the place of an element from the left,
    as a binary insertion does: the element comes before the first one that
    the comparator puts it before. *)
Fixpoint insert_before (cmp : string → string → Z) (x : string) (l : list string)
    : list string :=
  match l with
  | [] => [x]
  | e :: t => if (cmp x e <? 0)%Z then x :: e :: t else e :: insert_before cmp x t
  end.

Definition insertion_sort (cmp : string → string → Z) (l : list string) : list string :=
  foldl (λ acc x, insert_before cmp x acc) [] l.

(** An insertion sort that moves an element past the ones that the
    comparator puts after it, as a linear insertion from the right does: the
    element comes before the first one that is put after it. *)
Fixpoint insert_behind (cmp : string → string → Z) (x : string) (l : list string)
    : list string :=
  match l with
  | [] => [x]
  | e :: t => if (0 <? cmp e x)%Z then x :: e :: t else e :: insert_behind cmp x t
  end.

Definition insertion_sort_shift (cmp : string → string → Z) (l : list string) : list string :=
  foldl (λ acc x, insert_behind cmp x acc) [] l.

(** ** What the room classes are assumed to respect *)

(** [onCreate] of a room class leaves the table and its subscriptions
    consistent (it changes them through the matchmaker only). *)
Definition onCreate_keeps (E : Environment) : Prop :=
  ∀ r o w, table_subscribed w → table_subscribed (room_onCreate E r o w).2.

(** What [disconnect] of a room may do to the matchmaker when it is called
    during the shutdown: it returns a promise, and it may at most take the
    room itself off the table and drop subscriptions, as a room does that
    disposes itself at once ([disposeRoom] leaves the room counts alone
    while the process is shutting down). *)
Definition disconnect_contained (E : Environment) : Prop :=
  ∀ r w,
    isGracefullyShuttingDown w = true →
    ∃ p w',
      room_disconnect E r w = (Ok p, w') ∧
      isGracefullyShuttingDown w' = true ∧
      presence_hash w' = presence_hash w ∧
      presence_channels w' ⊆ presence_channels w ∧
      ∀ k, k ≠ room_roomId r → rooms w' !! k = rooms w !! k.

(** What [handleCreateRoom] does once [onCreate] is over. *)
Definition handleCreateRoom_finish (roomName : string) (r : Room) (w : World) : World :=
  add_effect (Emit roomName "create" (room_roomId (room_created r)))
    (driver.save (room_listing (room_created r))
       (createRoomReferences (room_created r) true w).2).2.

(** ** A small cluster to run the functions on *)

Module Sample.

Definition ChatRoom : RoomConstructor :=
  {| klass_name := "ChatRoom"; klass_onCreate := true; klass_maxClients := JNum 4 |}.

Definition chat : RegisteredHandler :=
  {| klass := ChatRoom; options := ∅; filterOptions := []; sortOptions := None |}.

(** A room class without [onCreate]. *)
Definition PlainRoom : RoomConstructor :=
  {| klass_name := "PlainRoom"; klass_onCreate := false; klass_maxClients := JNum 2 |}.

Definition plain : RegisteredHandler :=
  {| klass := PlainRoom; options := ∅; filterOptions := []; sortOptions := None |}.

(** Remote processes do not answer; rooms accept every seat. *)
Definition env : Environment :=
  {| REMOTE_ROOM_SHORT_TIMEOUT := 2000;
     generateId_nth := λ n, "id" +:+ pretty n;
     requestFromIPC := λ _ _ _ _, throw (Failure "connection lost");
     requestFromIPC_RoomListingData := λ _ _ _ _, throw (Failure "connection lost");
     room_isFunction := λ _ m, negb (String.eqb m "roomId");
     room_property := λ r _, AVal (JStr (room_roomId r));
     room_apply := λ _ _ _, ret (AVal (JBool true));
     room_onCreate := λ r _, ret r;
     room_disconnect := λ r,
       ret (if String.eqb (room_roomId r) "id0"
            then Settles 1 (Throw (Failure "disconnect failed"))
            else Settles 5 (Ok (AVal JUndefined)));
     query_sort := λ _ l, l;
     JSON_stringify := λ _, "[...]";
     Array_sort := insertion_sort |}.

(** The same with the other insertion sort. *)
Definition env_shift : Environment :=
  {| REMOTE_ROOM_SHORT_TIMEOUT := REMOTE_ROOM_SHORT_TIMEOUT env;
     generateId_nth := generateId_nth env;
     requestFromIPC := requestFromIPC env;
     requestFromIPC_RoomListingData := requestFromIPC_RoomListingData env;
     room_isFunction := room_isFunction env;
     room_property := room_property env;
     room_apply := room_apply env;
     room_onCreate := room_onCreate env;
     room_disconnect := room_disconnect env;
     query_sort := query_sort env;
     JSON_stringify := JSON_stringify env;
     Array_sort := insertion_sort_shift |}.

(** Rooms that are full. *)
Definition env_full : Environment :=
  {| REMOTE_ROOM_SHORT_TIMEOUT := 2000;
     generateId_nth := λ n, "id" +:+ pretty n;
     requestFromIPC := λ _ _ _ _, throw (Failure "connection lost");
     requestFromIPC_RoomListingData := λ _ _ _ _, throw (Failure "connection lost");
     room_isFunction := λ _ m, negb (String.eqb m "roomId");
     room_property := λ r _, AVal (JStr (room_roomId r));
     room_apply := λ _ _ _, ret (AVal (JBool false));
     room_onCreate := λ r _, ret r;
     room_disconnect := λ r, ret (Settles 1 (Ok (AVal JUndefined)));
     query_sort := λ _ l, l;
     JSON_stringify := λ _, "[...]";
     Array_sort := insertion_sort |}.

(** Rooms that dispose themselves as soon as they are disconnected. *)
Definition env_dispose : Environment :=
  {| REMOTE_ROOM_SHORT_TIMEOUT := REMOTE_ROOM_SHORT_TIMEOUT env;
     generateId_nth := generateId_nth env;
     requestFromIPC := requestFromIPC env;
     requestFromIPC_RoomListingData := requestFromIPC_RoomListingData env;
     room_isFunction := room_isFunction env;
     room_property := room_property env;
     room_apply := room_apply env;
     room_onCreate := room_onCreate env;
     room_disconnect := λ r,
       try_catch
         (run disposeRoom (room_roomName r) r in ret (Settles 1 (Ok (AVal JUndefined))))
         (λ e, ret (Settles 1 (Throw e)));
     query_sort := query_sort env;
     JSON_stringify := JSON_stringify env;
     Array_sort := Array_sort env |}.

(** Process [p1] after [setup], with the room types [chat] and [plain]. *)
Definition started : World :=
  (defineRoomType_register "plain" plain
     (defineRoomType_register "chat" chat (setup "p1" empty_world).2).2).2.

(** ... after it created one room, [id0]. *)
Definition one_room : World := (handleCreateRoom env "chat" ∅ started).2.

(** ... and a second one, [id1]. *)
Definition two_rooms : World := (handleCreateRoom env "chat" ∅ one_room).2.

(** ... after the room [id0] locked itself. *)
Definition one_room_locked : World :=
  match rooms one_room !! "id0" with
  | Some r => (on_event ev_lock r one_room).2
  | None => one_room
  end.

(** A room type whose filter is the field [locked], and a locked room of
    it in the driver. *)
Definition filtered : RegisteredHandler :=
  {| klass := ChatRoom; options := ∅; filterOptions := ["locked"]; sortOptions := None |}.

Definition locked_listing : JsObject :=
  <["roomId" := JStr "r1"]> (<["name" := JStr "chat"]>
    (<["locked" := JBool true]> (<["private" := JBool false]> ∅))).

Definition with_locked_room : World :=
  set_driver_rooms (λ _, [locked_listing])
    (defineRoomType_register "chat" filtered (setup "p1" empty_world).2).2.

End Sample.

(** ** The rest of the matchmaker *)

(** The bodies of [array.map(async ...)], taken one after the other in the
    order of the array, each to its end before the next. *)
Fixpoint forEach {A} (f : A → M unit) (l : list A) : M unit :=
  match l with
  | [] => ret tt
  | x :: rest => run f x in forEach f rest
  end.

Section Registry.

Variable E : Environment.

(** The defaults of the second and third parameter of [Utils.retry], which
    [join] leaves out. *)
Variable retry_maxRetries : nat.
Variable retry_errorWhiteList : Thrown → bool.

(** One attempt of [join], the function given to [retry]. *)
Definition join_attempt (roomName : string) (options : JsObject) : M SeatReservation :=
  let* found := findOneRoomAvailable E roomName options in
  match found with
  | None =>
      throw (MatchMakeError "no rooms found with provided criteria"
               (Some ERR_MATCHMAKE_INVALID_CRITERIA))
  | Some listing => reserveSeatFor E listing options
  end.

Definition join (roomName : string) (options : JsObject) : M SeatReservation :=
  retry (join_attempt roomName options) retry_maxRetries retry_errorWhiteList.

(** [{ roomId: room.roomId, roomName } as Room]: the object that
    [cleanupStaleRooms] gives to [clearRoomReferences], which reads its id
    only; the other members are absent. *)
Definition stale_room (listing : JsObject) (roomName : string) : Room :=
  {| room_roomId := toString (field listing "roomId");
     room_roomName := roomName;
     room_klass := {| klass_name := ""; klass_onCreate := false;
                      klass_maxClients := JUndefined |};
     room_maxClients := JUndefined;
     room_listing := ∅;
     room_internalState := CREATING |}.

(** The function that [cleanupStaleRooms] maps over the cached rooms: the
    room is asked for its [roomId]; when the call fails its listing is
    removed and its references are cleared. *)
Definition cleanupStaleRooms_probe (roomName : string) (listing : JsObject) : M unit :=
  try_catch
    (run remoteRoomCall E (toString (field listing "roomId")) "roomId" None None in
     ret tt)
    (λ e,
       run driver.remove listing in
       clearRoomReferences (stale_room listing roomName)).

(** The probes of [Promise.all(cachedRooms.map(...))] start in the order of
    the array and end in the order of the answers.  They are taken here one
    after the other: a probe reads the local table, which none of them
    changes, and removes the listing and the key of its own room only. *)
Definition cleanupStaleRooms (roomName : string) : M unit :=
  let* cachedRooms := driver.find {["name" := JStr roomName]} in
  run presence.del (getHandlerConcurrencyKey roomName) in
  forEach (cleanupStaleRooms_probe roomName) cachedRooms.

(** [registeredHandler] is [new RegisteredHandler(klass, defaultOptions)]
    with the filter and sort options the caller chains on it; [name] is a
    key of the registry, that is, not [__proto__].  The clean-up
    is started and not awaited: the caller gets the handler whatever comes
    of it, and a rejection stays with the promise that nobody holds.  The
    state is the one once the clean-up has settled. *)
Definition defineRoomType (name : string) (registeredHandler : RegisteredHandler)
    : M RegisteredHandler :=
  run modify (set_handlers <[name := registeredHandler]>) in
  run try_catch (cleanupStaleRooms name) (λ _, ret tt) in
  ret registeredHandler.

(** The clean-up is not awaited here either. *)
Definition removeRoomType (name : string) : M unit :=
  run modify (set_handlers (delete name)) in
  try_catch (cleanupStaleRooms name) (λ _, ret tt).

End Registry.

(** [client] is left out of the event that is recorded. *)
Definition onClientJoinRoom (r : Room) (client : Any) : M unit :=
  emit (room_roomName r) "join" r.

Definition onClientLeaveRoom (r : Room) (client : Any) : M unit :=
  emit (room_roomName r) "leave" r.

(** A cluster in which no other process answers a request, and which a
    request leaves as it is. *)
Definition ipc_dead (E : Environment) : Prop :=
  ∀ channel method args timeout w,
    ∃ e, requestFromIPC E channel method args timeout w = (Throw e, w).

(** [roomId] is a property of a room, not a method. *)
Definition roomId_is_property (E : Environment) : Prop :=
  ∀ r, room_isFunction E r "roomId" = false.

(** A listing of the room type whose room is not in the local table. *)
Definition is_remote_of (name : string) (w : World) (listing : JsObject) : bool :=
  driver.matches {["name" := JStr name]} listing &&
  negb (bool_decide (is_Some (rooms w !! toString (field listing "roomId")))).

(** Requests to other processes leave the registry and the local table of
    this process as they are, whether they are answered or not. *)
Definition ipc_keeps_tables (E : Environment) : Prop :=
  ∀ channel method args timeout w,
    handlers (requestFromIPC E channel method args timeout w).2 = handlers w ∧
    rooms (requestFromIPC E channel method args timeout w).2 = rooms w.

(** The room of the listing is not in the local table. *)
Definition not_local (w : World) (listing : JsObject) : bool :=
  negb (bool_decide (is_Some (rooms w !! toString (field listing "roomId")))).

(** ** Sets and messages of the presence

    [src/discovery] and [src/matchmaker/Lobby.ts] use two more operations of
    the presence: sets of strings and [publish].  They are kept in a state of
    their own, beside the keys, hashes and channels of [World]. *)

Record Bus : Type := mkBus {
  bus_sets : gmap string (gset string);
  (* the messages published, most recent first, each with its channel *)
  bus_published : list (string * string);
}.

(** Modelled from the spec: [Presence.sadd] (section 4.1), which is not among
    the sources; an absent set is empty. *)
Definition sadd (key member : string) (b : Bus) : Bus :=
  mkBus (<[key := {[member]} ∪ default ∅ (bus_sets b !! key)]> (bus_sets b))
    (bus_published b).

(** Modelled from the spec: [Presence.srem] (section 4.1). *)
Definition srem (key member : string) (b : Bus) : Bus :=
  mkBus (<[key := default ∅ (bus_sets b !! key) ∖ {[member]}]> (bus_sets b))
    (bus_published b).

(** Modelled from the spec: [Presence.publish] (section 4.1). *)
Definition publish (channel message : string) (b : Bus) : Bus :=
  mkBus (bus_sets b) ((channel, message) :: bus_published b).

(** The members of a set of the presence. *)
Definition smembers (key : string) (b : Bus) : gset string :=
  default ∅ (bus_sets b !! key).

(** ** Discovery *)

Definition NODES_SET : string := "colyseus:nodes".

Definition DISCOVERY_CHANNEL : string := "colyseus:nodes:discovery".

Record AddressInfo : Type := {
  address : string;
  port : Z;
}.

Record Node : Type := {
  node_processId : string;
  addressInfo : AddressInfo;
}.

Definition getNodeAddress (node : Node) : string :=
  let address :=
    if String.eqb (address (addressInfo node)) "::"
    then "[" +:+ address (addressInfo node) +:+ "]"
    else address (addressInfo node) in
  node_processId node +:+ "/" +:+ address +:+ ":" +:+ pretty (port (addressInfo node)).

Definition registerNode (node : Node) (b : Bus) : Bus :=
  let nodeAddress := getNodeAddress node in
  publish DISCOVERY_CHANNEL ("add," +:+ nodeAddress) (sadd NODES_SET nodeAddress b).

Definition unregisterNode (node : Node) (b : Bus) : Bus :=
  let nodeAddress := getNodeAddress node in
  publish DISCOVERY_CHANNEL ("remove," +:+ nodeAddress) (srem NODES_SET nodeAddress b).

(** The character [c] does not occur in [s]. *)
Fixpoint free_of (c : Ascii.ascii) (s : string) : bool :=
  match s with
  | EmptyString => true
  | String x rest => negb (Ascii.eqb x c) && free_of c rest
  end.

(** ** Lobby *)

Definition LOBBY_CHANNEL : string := "$lobby".

Definition lobby_message (room : JsObject) (removed : bool) : string :=
  toString (field room "roomId") +:+ "," +:+ (if removed then "1" else "0").

Definition notifyLobby (room : JsObject) (removed : bool) (b : Bus) : Bus :=
  if negb (truthy (field room "unlisted"))
  then publish LOBBY_CHANNEL (lobby_message room removed) b
  else b.

Definition comma : Ascii.ascii := Ascii.ascii_of_nat 44.

Definition slash : Ascii.ascii := Ascii.ascii_of_nat 47.

(** [message.split(',')], with the part that is being read in [part]. *)
Fixpoint split_comma (message part : string) : list string :=
  match message with
  | EmptyString => [part]
  | String c rest =>
      if Ascii.eqb c comma
      then part :: split_comma rest ""
      else split_comma rest (part +:+ String c "")
  end.

(** What the subscriber's callback is called with: [null] for a removal, and
    otherwise the first listing of the query, which is [undefined] when there
    is none. *)
Inductive LobbyUpdate : Type :=
| lobby_removed
| lobby_listing (roomListing : option JsObject).

(** The function that [subscribeLobby] subscribes on the lobby channel,
    returning the arguments it calls [callback] with. *)
Definition subscribeLobby_cb (message : string) : M (string * LobbyUpdate) :=
  let parts := split_comma message "" in
  let roomId := default "" (head parts) in
  let isRemove := parts !! 1%nat in
  if bool_decide (isRemove = Some "1") then
    ret (roomId, lobby_removed)
  else
    let* found := query {["roomId" := JStr roomId]} in
    ret (roomId, lobby_listing (head found)).

(** ** The routes of the server *)

(** The class [[a-zA-Z_\-0-9]] of [allowedRoomNameChars]. *)
Definition allowedRoomNameChar (c : Ascii.ascii) : bool :=
  let n := Ascii.nat_of_ascii c in
  (Nat.leb 97 n && Nat.leb n 122) || (Nat.leb 65 n && Nat.leb n 90) ||
  Nat.eqb n 95 || Nat.eqb n 45 || (Nat.leb 48 n && Nat.leb n 57).

(** The run that ends: a match when it is not empty. *)
Definition end_of_run (cur : string) : list string :=
  if String.eqb cur "" then [] else [cur].

(** [url.match(allowedRoomNameChars)] with the global flag: the maximal runs
    of allowed characters, from left to right; [cur] is the one being read.
    The empty list stands for [null]. *)
Fixpoint match_allowed (url cur : string) : list string :=
  match url with
  | EmptyString => end_of_run cur
  | String c rest =>
      if allowedRoomNameChar c
      then match_allowed rest (cur +:+ String c "")
      else end_of_run cur ++ match_allowed rest ""
  end.

(** Every character of [s] is an allowed one. *)
Fixpoint all_allowed (s : string) : bool :=
  match s with
  | EmptyString => true
  | String c rest => allowedRoomNameChar c && all_allowed rest
  end.

(** Some character of [s] is an allowed one. *)
Fixpoint some_allowed (s : string) : bool :=
  match s with
  | EmptyString => false
  | String c rest => allowedRoomNameChar c || some_allowed rest
  end.

(** [matchedParams[matchedParams.length - k]], [undefined] before the start
    of the array. *)
Definition from_end (matchedParams : list string) (k : nat) : option string :=
  if Nat.ltb (length matchedParams) k then None
  else matchedParams !! (length matchedParams - k)%nat.

(** [url.indexOf(sub) !== -1] *)
Fixpoint includes (sub url : string) : bool :=
  String.prefix sub url ||
  match url with
  | EmptyString => false
  | String _ rest => includes sub rest
  end.

Definition exposedMethods : list string := ["joinOrCreate"; "create"; "join"; "joinById"].

(** Modelled from the spec: the error classes are not among the sources; by
    section 7 a [MatchMakeError] carries a code, and the other errors have
    none. *)
Definition code_of (e : Thrown) : option ErrorCode :=
  match e with
  | MatchMakeError _ code => code
  | _ => None
  end.

(** What is written to the response. *)
Inductive ResponseBody : Type :=
| body_reservation (response : SeatReservation)
| body_error (code : ErrorCode) (error : JsVal)
| body_rooms (listings : list JsObject).

Record Response : Type := {
  statusCode : Z;
  written : option ResponseBody;
}.

Inductive ServerEffect : Type :=
| transport_shutdown
| shutdown_callback
| print_error (e : Thrown)
| process_exit (code : Z).

(** [await p]: the outcome of the promise, and nothing when it never
    settles. *)
Definition await {A} (p : Promise A) : option (Result A) :=
  match p with
  | Settles _ outcome => Some outcome
  | Pending => None
  end.

Section Server.

Variable E : Environment.
Variable retry_maxRetries : nat.
Variable retry_errorWhiteList : Thrown → bool.

(** [JSON.parse(Buffer.concat(data).toString())]: the body, or the
    [SyntaxError] that is thrown.  A body that parses is an object. *)
Variable JSON_parse : string → Result JsObject.

(** [matchMaker[method](name, body)] for an exposed method. *)
Definition matchMaker_method (method name : string) (body : JsObject) : M SeatReservation :=
  if String.eqb method "joinOrCreate" then joinOrCreate E name body
  else if String.eqb method "create" then create E name body
  else if String.eqb method "join"
       then join E retry_maxRetries retry_errorWhiteList name body
  else joinById E name body.

(** The handler of the [end] event of a [POST] request, once
    [res.writeHead(200, headers)] is done; [data] is the body as it was
    received.  It is parsed before the [try]: a [SyntaxError] leaves the
    handler, nothing is written and [res.end()] is not reached. *)
Definition handleMatchMakeRequest_POST (method : option string) (name : string)
    (data : string) : M Response :=
  match JSON_parse data with
  | Throw e => throw e
  | Ok body =>
      let* out :=
        try_catch
          (match method with
           | Some m =>
               if bool_decide (m ∈ exposedMethods) then
                 let* response := matchMaker_method m name body in
                 ret (body_reservation response)
               else
                 throw (MatchMakeError ("invalid method " +:+ dquote +:+ m +:+ dquote)
                          (Some ERR_MATCHMAKE_UNHANDLED))
           | None =>
               throw (MatchMakeError
                        ("invalid method " +:+ dquote +:+ "undefined" +:+ dquote)
                        (Some ERR_MATCHMAKE_UNHANDLED))
           end)
          (λ e, ret (body_error (default ERR_MATCHMAKE_UNHANDLED (code_of e))
                       (message_of e))) in
      ret {| statusCode := 200; written := Some out |}
  end.

(** The conditions of the listing of rooms. *)
Definition GET_conditions (roomName : string) : JsObject :=
  let conditions : JsObject := <["locked" := JBool false]> (<["private" := JBool false]> ∅) in
  if negb (String.eqb roomName "matchmake")
  then <["name" := JStr roomName]> conditions
  else conditions.

(** [handleMatchMakeRequest]: the response that is ended, if one is; an
    exception leaves the response open.  A [null] match is a [TypeError];
    [data] is the body of the request, which only [POST] reads. *)
Definition handleMatchMakeRequest (method url data : string) : M (option Response) :=
  if String.eqb method "OPTIONS" then
    ret (Some {| statusCode := 204; written := None |})
  else if String.eqb method "POST" then
    let matchedParams := match_allowed url "" in
    match from_end matchedParams 1 with
    | None => throw (Failure "Cannot read property 'length' of null")
    | Some name =>
        let* response := handleMatchMakeRequest_POST (from_end matchedParams 2) name data in
        ret (Some response)
    end
  else if String.eqb method "GET" then
    let matchedParams := match_allowed url "" in
    match from_end matchedParams 1 with
    | None => throw (Failure "Cannot read property 'length' of null")
    | Some roomName =>
        let* listings := query (GET_conditions roomName) in
        ret (Some {| statusCode := 200; written := Some (body_rooms listings) |})
    end
  else ret None.

(** [Server.gracefullyShutdown(exit, err)].  [transport_address] is what
    [this.transport.address()] returns, [null] when the transport is not
    listening; [pid] is the process id of the server; [err] says whether an
    error was given; [onShutdownCallback] is the promise that the callback
    returns.  The result is the bus, the state of the matchmaker, what the
    server does, in this order, and how the call ends: fulfilled, rejected
    with an error, or never ([None]).

    [unregisterNode] is awaited before the [try]: when [getNodeAddress]
    fails in it, on [null.address], the call is rejected at once and neither
    [catch] nor [finally] runs. *)
Definition Server_gracefullyShutdown (transport_address : option AddressInfo) (pid : string)
    (onShutdownCallback : Promise unit) (exit err : bool) (b : Bus) (w : World)
    : Bus * World * list ServerEffect * option (Result unit) :=
  match transport_address with
  | None => (b, w, [], Some (Throw (Failure "Cannot read property 'address' of null")))
  | Some a =>
      let b' := unregisterNode {| node_processId := pid; addressInfo := a |} b in
      let finally := if exit then [process_exit (if err then 1 else 0)] else [] in
      match gracefullyShutdown E w with
      | (Throw e, w') => (b', w', print_error e :: finally, Some (Ok tt))
      | (Ok p, w') =>
          match await p with
          | None => (b', w', [], None)
          | Some (Throw e) => (b', w', print_error e :: finally, Some (Ok tt))
          | Some (Ok _) =>
              match await onShutdownCallback with
              | None => (b', w', [transport_shutdown; shutdown_callback], None)
              | Some (Throw e) =>
                  (b', w', [transport_shutdown; shutdown_callback; print_error e] ++ finally,
                   Some (Ok tt))
              | Some (Ok _) =>
                  (b', w', [transport_shutdown; shutdown_callback] ++ finally, Some (Ok tt))
              end
          end
      end
  end.

End Server.

(** ** More examples *)

Module SampleServer.

(** The room [id0] of [Sample.one_room]. *)
Definition room0 : Room := room_created (room_new "chat" Sample.chat ∅ "p1" "id0").

(** A room of a type that is not registered. *)
Definition poker_room : Room := room_created (room_new "poker" Sample.chat ∅ "p1" "id9").

Definition node1 : Node :=
  {| node_processId := "p1"; addressInfo := {| address := "::"; port := 2567 |} |}.

Definition node2 : Node :=
  {| node_processId := "p2"; addressInfo := {| address := "10.0.0.2"; port := 2567 |} |}.

(** A parser that accepts the body [{}] only. *)
Definition JSON_parse (data : string) : Result JsObject :=
  if String.eqb data "{}" then Ok ∅ else Throw (Failure "Unexpected token in JSON").

End SampleServer.

(** * Properties *)

Ltac unfold_monad :=
  unfold bind, ret, throw, get, modify, try_catch, try_finally in *.

(** ** The registry *)

Lemma registry_get_registered (hs : gmap string RegisteredHandler) (name : string)
    (h : RegisteredHandler) :
  hs !! name = Some h → registry_get hs name = registered h.
Proof. intros Hh. unfold registry_get. by rewrite Hh. Qed.

Lemma registry_get_absent (hs : gmap string RegisteredHandler) (name : string) :
  hs !! name = None →
  registry_get hs name =
    if bool_decide (name ∈ Object_prototype) then inherited else unregistered.
Proof. intros Hh. unfold registry_get. by rewrite Hh. Qed.

(** ** Remote room calls *)

(** C10.  When the room is not in the local table, every failure of the
    request over IPC, whatever the error, becomes a [MatchMakeError] with
    the code [ERR_MATCHMAKE_UNHANDLED] and a message saying that the remote
    room timed out, with the method, the serialized arguments when there are
    any, and the timeout in milliseconds. *)
Theorem remoteRoomCall_remote_failure (E : Environment) (roomId method : string)
    (args : option (list Any)) (rejectionTimeout : option Z) (w w' : World) (e : Thrown) :
  rooms w !! roomId = None →
  requestFromIPC E (getRoomChannel roomId) (Some method) args None w = (Throw e, w') →
  remoteRoomCall E roomId method args rejectionTimeout w =
    (Throw (MatchMakeError
              ("remote room (" +:+ roomId +:+ ") timed out, requesting " +:+ dquote
                 +:+ (method +:+ match args with
                                 | Some a => " with args " +:+ JSON_stringify E a
                                 | None => ""
                                 end)
                 +:+ dquote +:+ ". ("
                 +:+ pretty (default (REMOTE_ROOM_SHORT_TIMEOUT E) rejectionTimeout)
                 +:+ "ms exceeded)")
              (Some ERR_MATCHMAKE_UNHANDLED)),
     w').
Proof.
  intros Hroom Hipc.
  unfold remoteRoomCall. unfold_monad.
  rewrite Hroom. cbn beta iota.
  rewrite Hipc. reflexivity.
Qed.

Lemma remoteRoomCall_remote_failure_witness :
  remoteRoomCall Sample.env "zz" "hasReservedSeat" (Some [AVal (JStr "s1")]) None
      Sample.started =
    (Throw (MatchMakeError
              ("remote room (zz) timed out, requesting " +:+ dquote
                 +:+ "hasReservedSeat with args [...]" +:+ dquote
                 +:+ ". (2000ms exceeded)")
              (Some ERR_MATCHMAKE_UNHANDLED)),
     Sample.started).
Proof.
  apply (remoteRoomCall_remote_failure Sample.env "zz" "hasReservedSeat"
           (Some [AVal (JStr "s1")]) None Sample.started Sample.started
           (Failure "connection lost")).
  - vm_compute. reflexivity.
  - reflexivity.
Defined.

(** A local room is called directly: a property is read when there are no
    arguments and the member is not a function, a method is applied
    otherwise. *)
Lemma remoteRoomCall_local (E : Environment) (roomId method : string)
    (args : option (list Any)) (rejectionTimeout : option Z) (w : World) (r : Room) :
  rooms w !! roomId = Some r →
  remoteRoomCall E roomId method args rejectionTimeout w =
    if negb (bool_decide (is_Some args)) && negb (room_isFunction E r method)
    then (Ok (room_property E r method), w)
    else room_apply E r method (default [] args) w.
Proof.
  intros Hroom. unfold remoteRoomCall. unfold_monad. rewrite Hroom.
  destruct (negb (bool_decide (is_Some args)) && negb (room_isFunction E r method));
    reflexivity.
Qed.

(** ** Seat reservation *)

Lemma reserveSeatFor_unfold (E : Environment) (listing options : JsObject) (w : World) :
  reserveSeatFor E listing options w =
    let sid := generateId_nth E (generated w) in
    let roomId := toString (field listing "roomId") in
    let call :=
      remoteRoomCall E roomId "_reserveSeat" (Some [AVal (JStr sid); AObj options]) None
        (set_generated (S (generated w)) w) in
    (match call.1 with
     | Ok answer =>
         if truthyAny answer
         then Ok {| sessionId := JStr sid; room := listing |}
         else Throw (SeatReservationError (roomId +:+ " is already full."))
     | Throw _ => Throw (SeatReservationError (roomId +:+ " is already full."))
     end,
     call.2).
Proof.
  unfold reserveSeatFor, generateId. unfold_monad. cbn zeta.
  destruct (remoteRoomCall E _ _ _ _ _) as [[answer | e] w']; cbn [fst snd].
  - destruct (truthyAny answer); reflexivity.
  - reflexivity.
Qed.

(** C6.  [reserveSeatFor] takes a new id as the session id and calls
    [_reserveSeat] with it and the options through [remoteRoomCall]; an error
    of that call counts as a refusal; it throws [SeatReservationError] with
    the message "<roomId> is already full." exactly when the answer is not a
    success, and returns the listing with the session id otherwise. *)
Theorem reserveSeatFor_spec (E : Environment) (listing options : JsObject) (w : World) :
  let sid := generateId_nth E (generated w) in
  let roomId := toString (field listing "roomId") in
  let call :=
    remoteRoomCall E roomId "_reserveSeat" (Some [AVal (JStr sid); AObj options]) None
      (set_generated (S (generated w)) w) in
  reserveSeatFor E listing options w =
    (match call.1 with
     | Ok answer =>
         if truthyAny answer
         then Ok {| sessionId := JStr sid; room := listing |}
         else Throw (SeatReservationError (roomId +:+ " is already full."))
     | Throw _ => Throw (SeatReservationError (roomId +:+ " is already full."))
     end,
     call.2).
Proof. exact (reserveSeatFor_unfold E listing options w). Qed.

(** Session ids are new when the generator does not repeat itself: the id
    of a reservation differs from every id generated before. *)
Lemma reserveSeatFor_fresh (E : Environment) (listing options : JsObject) (w w' : World)
    (res : SeatReservation) :
  (∀ i j, generateId_nth E i = generateId_nth E j → i = j) →
  reserveSeatFor E listing options w = (Ok res, w') →
  ∀ i, (i < generated w)%nat → sessionId res ≠ JStr (generateId_nth E i).
Proof.
  intros Hinj Hres i Hi.
  rewrite reserveSeatFor_unfold in Hres. cbn zeta in Hres.
  destruct (remoteRoomCall E _ _ _ _ _) as [[answer | e] w1]; cbn [fst snd] in Hres;
    [destruct (truthyAny answer) |]; inversion Hres; subst.
  cbn. intros Heq. inversion Heq as [Hid]. apply Hinj in Hid. lia.
Qed.

(** The only error of [reserveSeatFor] is [SeatReservationError]. *)
Lemma reserveSeatFor_throws (E : Environment) (listing options : JsObject) (w w' : World)
    (e : Thrown) :
  reserveSeatFor E listing options w = (Throw e, w') →
  isSeatReservationError e = true.
Proof.
  rewrite reserveSeatFor_unfold. cbn zeta.
  destruct (remoteRoomCall E _ _ _ _ _) as [[answer | e0] w1]; cbn [fst snd];
    [destruct (truthyAny answer) |]; intros H; inversion H; reflexivity.
Qed.

(** ** Joining by id *)

(** C4.  [joinById] looks the room up in the driver by its id.  Without a
    listing it fails with [ERR_MATCHMAKE_INVALID_ROOM_ID].  With a session id
    in the options it asks the room [hasReservedSeat]: on a true answer it
    returns the listing with that same session id, in the state the call
    left, so that nothing is reserved; on a false answer it fails with
    [ERR_MATCHMAKE_EXPIRED].  Without a session id it fails with
    [ERR_MATCHMAKE_INVALID_ROOM_ID] when the listing is locked, and is
    [reserveSeatFor] otherwise. *)
Theorem joinById_spec (E : Environment) (roomId : string) (options : JsObject) (w : World) :
  match (driver.findOne id {["roomId" := JStr roomId]} w).1 with
  | Ok None | Throw _ =>
      ∃ message,
        joinById E roomId options w =
          (Throw (MatchMakeError message (Some ERR_MATCHMAKE_INVALID_ROOM_ID)), w)
  | Ok (Some listing) =>
      let rejoinSessionId := field options "sessionId" in
      if truthy rejoinSessionId then
        let call :=
          remoteRoomCall E (toString (field listing "roomId")) "hasReservedSeat"
            (Some [AVal rejoinSessionId]) None w in
        match call.1 with
        | Ok answer =>
            if truthyAny answer then
              joinById E roomId options w =
                (Ok {| sessionId := rejoinSessionId; room := listing |}, call.2)
            else
              ∃ message,
                joinById E roomId options w =
                  (Throw (MatchMakeError message (Some ERR_MATCHMAKE_EXPIRED)), call.2)
        | Throw e => joinById E roomId options w = (Throw e, call.2)
        end
      else if truthy (field listing "locked") then
        ∃ message,
          joinById E roomId options w =
            (Throw (MatchMakeError message (Some ERR_MATCHMAKE_INVALID_ROOM_ID)), w)
      else
        joinById E roomId options w = reserveSeatFor E listing options w
  end.
Proof.
  unfold joinById, driver.findOne. unfold_monad. cbn [fst snd].
  destruct (head _) as [listing |]; [| eexists; reflexivity].
  cbn zeta.
  destruct (truthy (field options "sessionId")).
  - destruct (remoteRoomCall E _ _ _ _ w) as [[answer | e] w']; cbn [fst snd].
    + destruct (truthyAny answer); [reflexivity | eexists; reflexivity].
    + reflexivity.
  - destruct (truthy (field listing "locked")); cbn [negb].
    + eexists; reflexivity.
    + reflexivity.
Qed.

(** On the sample process: a reconnection returns the session id it was
    given and generates no id; an unknown id and a locked room are refused
    with the same code. *)
Example joinById_reconnects :
  ∃ listing w',
    joinById Sample.env "id0" (<["sessionId" := JStr "abc"]> ∅) Sample.one_room =
      (Ok {| sessionId := JStr "abc"; room := listing |}, w') ∧
    generated w' = generated Sample.one_room.
Proof. eexists _, _. split; vm_compute; reflexivity. Qed.

Example joinById_unknown :
  (joinById Sample.env "nope" ∅ Sample.one_room).1 =
    Throw (MatchMakeError ("room " +:+ dquote +:+ "nope" +:+ dquote +:+ " not found")
             (Some ERR_MATCHMAKE_INVALID_ROOM_ID)).
Proof. vm_compute. reflexivity. Qed.

Example joinById_locked :
  (joinById Sample.env "id0" ∅ Sample.one_room_locked).1 =
    Throw (MatchMakeError ("room " +:+ dquote +:+ "id0" +:+ dquote +:+ " is locked")
             (Some ERR_MATCHMAKE_INVALID_ROOM_ID)).
Proof. vm_compute. reflexivity. Qed.

Example reserveSeatFor_full :
  ∃ listing,
    head (driver_rooms Sample.one_room) = Some listing ∧
    (reserveSeatFor Sample.env_full listing ∅ Sample.one_room).1 =
      Throw (SeatReservationError "id0 is already full.").
Proof. eexists. split; vm_compute; reflexivity. Qed.

(** ** The concurrency gate *)

Lemma concurrency_counter_incr (name : string) (w : World) :
  presence.incr (getHandlerConcurrencyKey name) w =
    (Ok (concurrency_counter name w + 1)%Z,
     set_presence_keys
       <[getHandlerConcurrencyKey name := (concurrency_counter name w + 1)%Z]> w).
Proof. reflexivity. Qed.

Lemma concurrency_counter_set (name : string) (v : Z) (w : World) :
  concurrency_counter name
    (set_presence_keys <[getHandlerConcurrencyKey name := v]> w) = v.
Proof. unfold concurrency_counter. cbn. by rewrite lookup_insert_eq. Qed.

Lemma executor_unfold (E : Environment) (name : string) (w : World) :
  awaitRoomAvailable_executor E name w =
    let delay := Z.min (concurrency_counter name w * 100) (REMOTE_ROOM_SHORT_TIMEOUT E) in
    (Ok delay,
     add_effect (SetTimeout delay)
       (set_presence_keys
          <[getHandlerConcurrencyKey name := (concurrency_counter name w + 1)%Z]> w)).
Proof.
  unfold awaitRoomAvailable_executor. unfold_monad.
  rewrite concurrency_counter_incr. cbn zeta.
  replace (concurrency_counter name w + 1 - 1)%Z with (concurrency_counter name w) by lia.
  reflexivity.
Qed.

Lemma executor_counter (E : Environment) (name : string) (w : World) :
  concurrency_counter name (awaitRoomAvailable_executor E name w).2 =
    (concurrency_counter name w + 1)%Z.
Proof. rewrite executor_unfold. cbn. apply concurrency_counter_set. Qed.

Lemma timer_unfold {A} (name : string) (cb : M A) (w : World) :
  awaitRoomAvailable_timer name cb w =
    ((cb w).1, (presence.decr (getHandlerConcurrencyKey name) (cb w).2).2).
Proof.
  unfold awaitRoomAvailable_timer. unfold_monad. by destruct (cb w).
Qed.

Lemma timer_counter {A} (name : string) (cb : M A) (w : World) :
  concurrency_counter name (awaitRoomAvailable_timer name cb w).2 =
    (concurrency_counter name (cb w).2 - 1)%Z.
Proof. rewrite timer_unfold. cbn. apply concurrency_counter_set. Qed.

(** At every moment of a schedule the counter is its first value plus the
    number of timers that are set and have not fired. *)
Lemma gate_run_counter {A} (E : Environment) (name : string)
    (actions : list (GateAction A)) :
  ∀ (pending : list (Z * M A)) (w : World),
    Forall (keeps_counter name) (callbacks actions) →
    Forall (keeps_counter name) (pending.*2) →
    let out := gate_run E name actions pending w in
    (concurrency_counter name out.2 - Z.of_nat (length out.1) =
       concurrency_counter name w - Z.of_nat (length pending))%Z.
Proof.
  induction actions as [| [cb | i] rest IH]; intros pending w Hcbs Hpend; cbn zeta.
  - reflexivity.
  - cbn [gate_run]. rewrite executor_unfold. cbn zeta.
    cbn [callbacks] in Hcbs. apply Forall_cons in Hcbs as [Hcb Hrest].
    specialize (IH (pending ++ [(Z.min (concurrency_counter name w * 100)
                                   (REMOTE_ROOM_SHORT_TIMEOUT E), cb)])
                  (add_effect (SetTimeout (Z.min (concurrency_counter name w * 100)
                                             (REMOTE_ROOM_SHORT_TIMEOUT E)))
                     (set_presence_keys
                        <[getHandlerConcurrencyKey name :=
                            (concurrency_counter name w + 1)%Z]> w))
                  Hrest).
    cbn zeta in IH. rewrite IH.
    + rewrite length_app. cbn [length].
      change (concurrency_counter name (add_effect ?e ?x)) with (concurrency_counter name x).
      rewrite concurrency_counter_set. lia.
    + rewrite fmap_app. apply Forall_app. split; [done |]. by constructor.
  - cbn [gate_run callbacks] in *.
    destruct (pending !! i) as [[d cb] |] eqn:Hi.
    + assert (Hcb : keeps_counter name cb).
      { eapply (Forall_lookup_1 _ _ i); [exact Hpend |].
        rewrite list_lookup_fmap, Hi. reflexivity. }
      specialize (IH (delete i pending) (awaitRoomAvailable_timer name cb w).2 Hcbs).
      cbn zeta in IH. rewrite IH.
      * rewrite timer_counter, Hcb.
        rewrite length_delete by eauto.
        apply lookup_lt_Some in Hi. lia.
      * rewrite list_fmap_delete. by apply Forall_delete.
    + by apply IH.
Qed.

(** The callback of [findOneRoomAvailable] reads the state and leaves it as
    it is. *)
Lemma findOneRoomAvailable_callback_reads (E : Environment) (roomName : string)
    (options : JsObject) (w : World) :
  (findOneRoomAvailable_callback E roomName options w).2 = w.
Proof.
  unfold findOneRoomAvailable_callback. unfold_monad.
  destruct (registry_get (handlers w) roomName); reflexivity.
Qed.

(** The disposal of a room of a registered type deletes the concurrency
    key of the type. *)
Lemma disposeRoom_counter (roomName : string) (r : Room) (h : RegisteredHandler)
    (w : World) :
  handlers w !! roomName = Some h →
  concurrency_counter roomName (disposeRoom roomName r w).2 = 0%Z.
Proof.
  intros Hh. unfold disposeRoom, clearRoomReferences, emit, presence.del, concurrency_counter.
  unfold_monad. cbn.
  destruct (isGracefullyShuttingDown w); cbn;
    rewrite (registry_get_registered _ _ _ Hh); cbn.
  - destruct (decide (room_roomId r = getHandlerConcurrencyKey roomName)) as [-> | Hne].
    + by rewrite lookup_delete_eq.
    + by rewrite lookup_delete_ne, lookup_delete_eq.
  - destruct (decide (room_roomId r = getHandlerConcurrencyKey roomName)) as [-> | Hne].
    + by rewrite lookup_delete_eq.
    + by rewrite lookup_delete_ne, lookup_delete_eq.
Qed.

(** C5, as the code has it.  At the gate of a room name the concurrency a
    joiner sees is the result of [incr] on the key [c:<name>] minus one; the
    delay given to [setTimeout] is the smaller of a hundred times that and
    [REMOTE_ROOM_SHORT_TIMEOUT], zero for a joiner that is alone; the timer
    function ends with [decr], whether the callback returns or throws.  When
    all joiners of a schedule are through and nothing else has written the
    key, the counter has the value it started with; in general every joiner
    that is waiting takes one off the value the counter has, and the
    disposal of a room of the type deletes the key, so that the counter is
    zero after it whoever is waiting. *)
Theorem awaitRoomAvailable_gate (E : Environment) (name : string) :
  (0 ≤ REMOTE_ROOM_SHORT_TIMEOUT E)%Z →
  (∀ w : World,
     ∃ n w1,
       presence.incr (getHandlerConcurrencyKey name) w = (Ok n, w1) ∧
       let concurrency := (n - 1)%Z in
       let delay := Z.min (concurrency * 100) (REMOTE_ROOM_SHORT_TIMEOUT E) in
       awaitRoomAvailable_executor E name w = (Ok delay, add_effect (SetTimeout delay) w1) ∧
       concurrency = concurrency_counter name w ∧
       (concurrency = 0%Z → delay = 0%Z) ∧
       (concurrency = 9%Z → delay = Z.min 900 (REMOTE_ROOM_SHORT_TIMEOUT E))) ∧
  (∀ (A : Type) (cb : M A) (w : World),
     let after := (cb w).2 in
     awaitRoomAvailable_timer name cb w =
       ((cb w).1, (presence.decr (getHandlerConcurrencyKey name) after).2) ∧
     concurrency_counter name (awaitRoomAvailable_timer name cb w).2 =
       (concurrency_counter name after - 1)%Z) ∧
  (∀ (A : Type) (actions : list (GateAction A)) (w w' : World),
     Forall (keeps_counter name) (callbacks actions) →
     gate_run E name actions [] w = ([], w') →
     concurrency_counter name w' = concurrency_counter name w) ∧
  (∀ (A : Type) (actions : list (GateAction A)) (pending : list (Z * M A)) (w w' : World),
     Forall (keeps_counter name) (callbacks actions) →
     Forall (keeps_counter name) (pending.*2) →
     gate_run E name actions pending w = ([], w') →
     concurrency_counter name w' =
       (concurrency_counter name w - Z.of_nat (length pending))%Z) ∧
  (∀ (r : Room) (h : RegisteredHandler) (w : World),
     handlers w !! name = Some h →
     concurrency_counter name (disposeRoom name r w).2 = 0%Z).
Proof.
  intros HT. split; [| split; [| split; [| split]]].
  - intros w. eexists _, _. split; [apply concurrency_counter_incr |].
    cbn zeta.
    replace (concurrency_counter name w + 1 - 1)%Z with (concurrency_counter name w) by lia.
    split; [apply executor_unfold |]. split; [reflexivity |]. split.
    + intros ->. lia.
    + intros ->. reflexivity.
  - intros A cb w. cbn zeta. split; [apply timer_unfold | apply timer_counter].
  - intros A actions w w' Hcbs Hrun.
    pose proof (gate_run_counter E name actions [] w Hcbs) as Hinv.
    cbn zeta in Hinv. rewrite Hrun in Hinv. cbn in Hinv.
    specialize (Hinv ltac:(constructor)). lia.
  - intros A actions pending w w' Hcbs Hpend Hrun.
    pose proof (gate_run_counter E name actions pending w Hcbs Hpend) as Hinv.
    cbn zeta in Hinv. rewrite Hrun in Hinv. cbn [fst snd length] in Hinv. lia.
  - intros r h w Hh. by apply (disposeRoom_counter name r h w).
Qed.

Lemma awaitRoomAvailable_gate_witness :
  let cb := findOneRoomAvailable_callback Sample.env "chat" ∅ in
  let schedule := [Enter cb; Enter cb; Fire 1%nat; Enter cb; Fire 0%nat; Fire 0%nat] in
  (0 ≤ REMOTE_ROOM_SHORT_TIMEOUT Sample.env)%Z ∧
  concurrency_counter "chat" (gate_run Sample.env "chat" schedule [] Sample.started).2 =
    concurrency_counter "chat" Sample.started.
Proof.
  intros cb schedule.
  assert (HT : (0 ≤ REMOTE_ROOM_SHORT_TIMEOUT Sample.env)%Z) by (cbn; lia).
  split; [exact HT |].
  destruct (awaitRoomAvailable_gate Sample.env "chat" HT) as (_ & _ & Hrun & _).
  apply (Hrun _ schedule).
  - repeat constructor; intros w; unfold cb;
      by rewrite findOneRoomAvailable_callback_reads.
  - vm_compute. reflexivity.
Defined.

(** C5, as the claim has it, fails: a joiner enters the gate of [chat] on
    the sample process, which brings the counter from zero to one; the room
    [id0] of that type is disposed while the joiner waits, which deletes the
    key; the timer of the joiner fires, its callback returns (no room is
    found) and [decr] leaves the counter at minus one when the only joiner is
    through. *)
Lemma awaitRoomAvailable_counter_after_dispose :
  let cb := findOneRoomAvailable_callback Sample.env "chat" ∅ in
  let w1 := (awaitRoomAvailable_executor Sample.env "chat" Sample.one_room).2 in
  let w2 := (disposeRoom "chat" SampleServer.room0 w1).2 in
  let w3 := (awaitRoomAvailable_timer "chat" cb w2).2 in
  concurrency_counter "chat" Sample.one_room = 0%Z ∧
  concurrency_counter "chat" w1 = 1%Z ∧
  rooms w1 !! "id0" = Some SampleServer.room0 ∧
  (disposeRoom "chat" SampleServer.room0 w1).1 = Ok tt ∧
  (awaitRoomAvailable_timer "chat" cb w2).1 = Ok None ∧
  concurrency_counter "chat" w3 = (-1)%Z.
Proof.
  cbn zeta. split; [| split; [| split; [| split; [| split]]]]; vm_compute; reflexivity.
Qed.

(** ** The room count *)

Lemma hash_get_set_eq (f : string) (v : Z) (h : list (string * Z)) :
  hash_get f (hash_set f v h) = Some v.
Proof.
  induction h as [| [k x] t IH]; cbn.
  - by rewrite decide_True.
  - destruct (decide (k = f)) as [-> | Hne]; cbn.
    + by rewrite decide_True.
    + by rewrite decide_False.
Qed.

Lemma hash_get_set_ne (f g : string) (v : Z) (h : list (string * Z)) :
  f ≠ g → hash_get g (hash_set f v h) = hash_get g h.
Proof.
  intros Hne. induction h as [| [k x] t IH]; cbn.
  - by rewrite decide_False.
  - destruct (decide (k = f)) as [-> | Hkf]; cbn.
    + by rewrite !decide_False.
    + destruct (decide (k = g)); [done | exact IH].
Qed.

Lemma hash_get_del_eq (f : string) (h : list (string * Z)) :
  hash_get f (hash_del f h) = None.
Proof.
  induction h as [| [k x] t IH]; cbn; [done |].
  destruct (decide (k = f)) as [-> | Hne]; cbn; [done |]. by rewrite decide_False.
Qed.

Lemma roomCount_hincrby (pid : string) (n : Z) (w : World) :
  roomCount (presence.hincrby getRoomCountKey pid n w).2 pid = (roomCount w pid + n)%Z.
Proof.
  unfold roomCount. cbn. rewrite lookup_insert_eq. cbn.
  by rewrite hash_get_set_eq.
Qed.

Lemma roomCount_hincrby_ne (pid p : string) (n : Z) (w : World) :
  pid ≠ p →
  roomCount (presence.hincrby getRoomCountKey pid n w).2 p = roomCount w p.
Proof.
  intros Hne. unfold roomCount. cbn. rewrite lookup_insert_eq. cbn.
  by rewrite hash_get_set_ne.
Qed.

Lemma handleCreateRoom_unfold (E : Environment) (roomName : string)
    (clientOptions : JsObject) (h : RegisteredHandler) (w : World) :
  handlers w !! roomName = Some h →
  handleCreateRoom E roomName clientOptions w =
    let w0 := set_generated (S (generated w)) w in
    let r0 := room_new roomName h clientOptions (processId w)
                (generateId_nth E (generated w)) in
    if klass_onCreate (klass h) then
      match room_onCreate E r0 (merge ∅ clientOptions (options h)) w0 with
      | (Ok r1, w1) =>
          (Ok (room_listing (room_created r1)),
           handleCreateRoom_finish roomName r1
             (presence.hincrby getRoomCountKey (processId w1) 1 w1).2)
      | (Throw e, w1) => (Throw (MatchMakeError_of e), w1)
      end
    else (Ok (room_listing (room_created r0)), handleCreateRoom_finish roomName r0 w0).
Proof.
  intros Hh. unfold handleCreateRoom, generateId. unfold_monad.
  rewrite (registry_get_registered _ _ _ Hh). cbn zeta beta iota.
  destruct (klass_onCreate (klass h)).
  - change (processId (set_generated _ w)) with (processId w).
    destruct (room_onCreate E _ _ _) as [[r1 | e] w1]; reflexivity.
  - reflexivity.
Qed.

(** Without a handler of the name, [handleCreateRoom] fails and changes
    nothing: with [ERR_MATCHMAKE_NO_HANDLER], or with a [TypeError] when the
    name is one that the registry inherits. *)
Lemma handleCreateRoom_no_handler (E : Environment) (roomName : string)
    (clientOptions : JsObject) (w : World) :
  handlers w !! roomName = None →
  handleCreateRoom E roomName clientOptions w =
    (Throw (if bool_decide (roomName ∈ Object_prototype)
            then Failure "registeredHandler.klass is not a constructor"
            else MatchMakeError (dquote +:+ roomName +:+ dquote +:+ " not defined")
                   (Some ERR_MATCHMAKE_NO_HANDLER)), w).
Proof.
  intros Hh. unfold handleCreateRoom. unfold_monad.
  rewrite (registry_get_absent _ _ Hh). by destruct (bool_decide _).
Qed.

Lemma disposeRoom_presence_hash (roomName : string) (r : Room) (w : World) :
  presence_hash (disposeRoom roomName r w).2 =
    if isGracefullyShuttingDown w then presence_hash w
    else presence_hash (presence.hincrby getRoomCountKey (processId w) (-1) w).2.
Proof.
  unfold disposeRoom, emit. unfold_monad. cbn.
  destruct (isGracefullyShuttingDown w); cbn;
    destruct (registry_get _ roomName); reflexivity.
Qed.

(** C9.  [handleCreateRoom] adds one to the room count of this process only
    in the branch of a room class that defines [onCreate], after [onCreate]
    has returned; when [onCreate] throws nothing is added, and for a class
    without [onCreate] the room is created and the room-count hash is as it
    was.  [disposeRoom] takes one off the count of this process whenever the
    process is not shutting down. *)
Theorem roomCount_only_after_onCreate (E : Environment) :
  (∀ (roomName : string) (clientOptions : JsObject) (h : RegisteredHandler) (w : World),
     handlers w !! roomName = Some h →
     let w0 := set_generated (S (generated w)) w in
     let r0 := room_new roomName h clientOptions (processId w)
                 (generateId_nth E (generated w)) in
     let out := handleCreateRoom E roomName clientOptions w in
     if klass_onCreate (klass h) then
       match room_onCreate E r0 (merge ∅ clientOptions (options h)) w0 with
       | (Ok r1, w1) =>
           out.1 = Ok (room_listing (room_created r1)) ∧
           roomCount out.2 (processId w1) = (roomCount w1 (processId w1) + 1)%Z ∧
           ∀ p, p ≠ processId w1 → roomCount out.2 p = roomCount w1 p
       | (Throw e, w1) => out = (Throw (MatchMakeError_of e), w1)
       end
     else
       out.1 = Ok (room_listing (room_created r0)) ∧
       presence_hash out.2 = presence_hash w) ∧
  (∀ (roomName : string) (r : Room) (w : World),
     let out := disposeRoom roomName r w in
     if isGracefullyShuttingDown w
     then presence_hash out.2 = presence_hash w
     else roomCount out.2 (processId w) = (roomCount w (processId w) - 1)%Z).
Proof.
  split.
  - intros roomName clientOptions h w Hh. cbn zeta.
    rewrite (handleCreateRoom_unfold E roomName clientOptions h w Hh). cbn zeta.
    destruct (klass_onCreate (klass h)).
    + destruct (room_onCreate E _ _ _) as [[r1 | e] w1]; [| reflexivity].
      cbn [fst snd]. split; [reflexivity |]. split.
      * apply (roomCount_hincrby (processId w1) 1 w1).
      * intros p Hp. by apply (roomCount_hincrby_ne (processId w1) p 1 w1).
    + split; reflexivity.
  - intros roomName r w. cbn zeta.
    pose proof (disposeRoom_presence_hash roomName r w) as Hhash.
    destruct (isGracefullyShuttingDown w); [exact Hhash |].
    unfold roomCount at 1. rewrite Hhash.
    replace (roomCount w (processId w) - 1)%Z with (roomCount w (processId w) + -1)%Z by lia.
    apply (roomCount_hincrby (processId w) (-1) w).
Qed.

Lemma roomCount_only_after_onCreate_witness :
  handlers Sample.started !! "plain" = Some Sample.plain ∧
  presence_hash (handleCreateRoom Sample.env "plain" ∅ Sample.started).2 =
    presence_hash Sample.started.
Proof.
  assert (Hh : handlers Sample.started !! "plain" = Some Sample.plain)
    by (vm_compute; reflexivity).
  split; [exact Hh |].
  exact (proj2 (proj1 (roomCount_only_after_onCreate Sample.env) "plain" ∅
                  Sample.plain Sample.started Hh)).
Defined.

(** ** The choice of the process that creates a room *)

Lemma insert_before_perm (cmp : string → string → Z) (x : string) (l : list string) :
  Permutation (insert_before cmp x l) (x :: l).
Proof.
  induction l as [| e t IH]; cbn; [done |].
  destruct (cmp x e <? 0)%Z; [done |].
  rewrite IH. apply perm_swap.
Qed.

Lemma insertion_sort_perm_acc (cmp : string → string → Z) (l : list string) :
  ∀ acc, Permutation (foldl (λ acc x, insert_before cmp x acc) acc l) (acc ++ l).
Proof.
  induction l as [| x t IH]; intros acc; cbn.
  - by rewrite app_nil_r.
  - rewrite IH, insert_before_perm. cbn. apply Permutation_middle.
Qed.

Section Ordered.

Variable cmp : string → string → Z.
Variable key : string → Z.
Hypothesis agree :
  ∀ a b, ((cmp a b < 0)%Z → (key a ≤ key b)%Z) ∧
         ((cmp a b = 0)%Z → key a = key b) ∧
         ((0 < cmp a b)%Z → (key b < key a)%Z).

Let le (a b : string) : Prop := (key a ≤ key b)%Z.

Lemma insert_before_sorted (x : string) (l : list string) :
  StronglySorted le l → StronglySorted le (insert_before cmp x l).
Proof.
  induction l as [| e t IH]; intros Hs; cbn.
  - repeat constructor.
  - apply StronglySorted_inv in Hs as [Ht He].
    destruct (Z.ltb_spec (cmp x e) 0) as [Hlt | Hge].
    + assert (Hxe : le x e) by (by apply agree).
      constructor; [by constructor |].
      constructor; [exact Hxe |].
      eapply Forall_impl; [exact He |]. unfold le in *. intros b Hb. lia.
    + assert (Hex : le e x).
      { unfold le. destruct (agree x e) as (_ & H0 & Hpos).
        destruct (Z.eq_dec (cmp x e) 0%Z) as [Hz | Hnz]; [rewrite (H0 Hz); lia |].
        assert (key e < key x)%Z by (apply Hpos; lia). lia. }
      constructor; [by apply IH |].
      eapply Permutation_Forall; [symmetry; apply insert_before_perm |].
      by constructor.
Qed.

Lemma insertion_sort_sorted_acc (l : list string) :
  ∀ acc, StronglySorted le acc →
         StronglySorted le (foldl (λ acc x, insert_before cmp x acc) acc l).
Proof.
  induction l as [| x t IH]; intros acc Hacc; cbn; [done |].
  apply IH. by apply insert_before_sorted.
Qed.

End Ordered.

Lemma insert_behind_perm (cmp : string → string → Z) (x : string) (l : list string) :
  Permutation (insert_behind cmp x l) (x :: l).
Proof.
  induction l as [| e t IH]; cbn; [done |].
  destruct (0 <? cmp e x)%Z; [done |].
  rewrite IH. apply perm_swap.
Qed.

Lemma insertion_sort_shift_perm_acc (cmp : string → string → Z) (l : list string) :
  ∀ acc, Permutation (foldl (λ acc x, insert_behind cmp x acc) acc l) (acc ++ l).
Proof.
  induction l as [| x t IH]; intros acc; cbn.
  - by rewrite app_nil_r.
  - rewrite IH, insert_behind_perm. cbn. apply Permutation_middle.
Qed.

Lemma insert_behind_sorted (cmp : string → string → Z) (key : string → Z)
    (x : string) (l : list string) :
  (∀ a b, ((cmp a b < 0)%Z → (key a ≤ key b)%Z) ∧
          ((cmp a b = 0)%Z → key a = key b) ∧
          ((0 < cmp a b)%Z → (key b < key a)%Z)) →
  StronglySorted (λ a b, (key a ≤ key b)%Z) l →
  StronglySorted (λ a b, (key a ≤ key b)%Z) (insert_behind cmp x l).
Proof.
  intros Hagree. induction l as [| e t IH]; intros Hs; cbn.
  - repeat constructor.
  - apply StronglySorted_inv in Hs as [Ht He].
    destruct (Hagree e x) as (Hneg & Hzero & Hpos).
    destruct (Z.ltb_spec 0 (cmp e x)) as [Hlt | Hge].
    + specialize (Hpos Hlt).
      constructor; [by constructor |].
      constructor; [lia |].
      eapply Forall_impl; [exact He |]. cbn. intros b Hb. lia.
    + assert (Hex : (key e ≤ key x)%Z).
      { destruct (Z.eq_dec (cmp e x) 0%Z) as [Hz | Hnz]; [rewrite (Hzero Hz); lia |].
        apply Hneg. lia. }
      constructor; [by apply IH |].
      eapply Permutation_Forall; [symmetry; apply insert_behind_perm |].
      by constructor.
Qed.

Lemma insertion_sort_shift_sorts : sorts insertion_sort_shift.
Proof.
  intros cmp l. split.
  - apply (insertion_sort_shift_perm_acc cmp l []).
  - intros key Hagree. unfold insertion_sort_shift.
    assert (Hacc : ∀ l acc, StronglySorted (λ a b, (key a ≤ key b)%Z) acc →
              StronglySorted (λ a b, (key a ≤ key b)%Z)
                (foldl (λ acc x, insert_behind cmp x acc) acc l)).
    { clear l. induction l as [| x t IH]; intros acc Hs; cbn; [done |].
      apply IH. by apply insert_behind_sorted. }
    apply Hacc. constructor.
Qed.

Lemma insertion_sort_sorts : sorts insertion_sort.
Proof.
  intros cmp l. split.
  - apply (insertion_sort_perm_acc cmp l []).
  - intros key Hagree. unfold insertion_sort.
    apply insertion_sort_sorted_acc; [exact Hagree | constructor].
Qed.

(** The comparator of [createRoom] agrees with the order of the counts: it
    is positive when the first count is greater and negative otherwise, also
    for equal counts, in both orders of the arguments. *)
Lemma comparator_agrees (count : string → Z) (a b : string) :
  let cmp := λ p1 p2, if (count p2 <? count p1)%Z then 1%Z else (-1)%Z in
  ((cmp a b < 0)%Z → (count a ≤ count b)%Z) ∧
  ((cmp a b = 0)%Z → count a = count b) ∧
  ((0 < cmp a b)%Z → (count b < count a)%Z).
Proof.
  cbv beta zeta. destruct (Z.ltb_spec (count b) (count a)); repeat split; lia.
Qed.

Lemma comparator_never_zero (count : string → Z) (a b : string) :
  count a = count b →
  (if (count b <? count a)%Z then 1%Z else (-1)%Z) = (-1)%Z ∧
  (if (count a <? count b)%Z then 1%Z else (-1)%Z) = (-1)%Z.
Proof. intros ->. by rewrite Z.ltb_irrefl. Qed.

(** The first of the sorted keys has the smallest count. *)
Lemma sorted_head_smallest (E : Environment) (h : list (string * Z)) :
  sorts (Array_sort E) →
  h ≠ [] →
  let count p := default 0%Z (hash_get p h) in
  let sorted :=
    Array_sort E (λ p1 p2, if (count p2 <? count p1)%Z then 1%Z else (-1)%Z) (h.*1) in
  ∃ p, head sorted = Some p ∧ p ∈ h.*1 ∧ ∀ k, k ∈ h.*1 → (count p ≤ count k)%Z.
Proof.
  intros Hsorts Hne count sorted.
  destruct (Hsorts (λ p1 p2, if (count p2 <? count p1)%Z then 1%Z else (-1)%Z) (h.*1))
    as [Hperm Hsorted].
  specialize (Hsorted count (comparator_agrees count)).
  fold sorted in Hperm, Hsorted.
  destruct sorted as [| p rest] eqn:Hs.
  - apply Permutation_nil in Hperm. destruct h; [done | discriminate].
  - exists p. split; [reflexivity |]. split.
    + rewrite <- Hperm. left.
    + intros k Hk. rewrite <- Hperm in Hk.
      apply StronglySorted_inv in Hsorted as [_ Hall].
      apply elem_of_cons in Hk as [-> | Hk]; [lia |].
      rewrite Forall_forall in Hall. by apply Hall.
Qed.

Lemma createRoom_unfold (E : Environment) (roomName : string) (clientOptions : JsObject)
    (w : World) :
  createRoom E roomName clientOptions w =
    let target :=
      processIdWithFewerRooms E (default [] (presence_hash w !! getRoomCountKey))
        (processId w) in
    if decide (target = processId w) then handleCreateRoom E roomName clientOptions w
    else
      match requestFromIPC_RoomListingData E (getProcessChannel target) None
              (Some [AVal (JStr roomName); AObj clientOptions])
              (Some (REMOTE_ROOM_SHORT_TIMEOUT E)) w with
      | (Ok listing, w') => (Ok listing, w')
      | (Throw _, w') => handleCreateRoom E roomName clientOptions w'
      end.
Proof.
  unfold createRoom, presence.hgetall. unfold_monad. cbn zeta.
  destruct (decide _); reflexivity.
Qed.

(** C3, as the code has it.  [createRoom] takes as target the first of the
    process ids of the room-count hash after the engine's sort by count: a
    process id of the hash that no other has a smaller count than, hence the
    process with the strictly smallest count when there is one; among
    process ids with the same smallest count the comparator, which is never
    zero, leaves the choice to the engine's sort.  With an empty hash (or an
    empty process id first) the target is the calling process.  When the
    target is the calling process the room is created by [handleCreateRoom];
    otherwise the request goes to the channel [p:<target>], and after any
    failure of it the room is created by [handleCreateRoom] here. *)
Theorem createRoom_target (E : Environment) :
  sorts (Array_sort E) →
  (∀ pid, processIdWithFewerRooms E [] pid = pid) ∧
  (∀ (h : list (string * Z)) (pid : string),
     h ≠ [] →
     let count p := default 0%Z (hash_get p h) in
     ∃ p, p ∈ h.*1 ∧ (∀ k, k ∈ h.*1 → (count p ≤ count k)%Z) ∧
          processIdWithFewerRooms E h pid = if String.eqb p "" then pid else p) ∧
  (∀ (h : list (string * Z)) (pid p : string),
     let count p := default 0%Z (hash_get p h) in
     p ∈ h.*1 → p ≠ "" →
     (∀ k, k ∈ h.*1 → k ≠ p → (count p < count k)%Z) →
     processIdWithFewerRooms E h pid = p) ∧
  (∀ (roomName : string) (clientOptions : JsObject) (w : World),
     let target :=
       processIdWithFewerRooms E (default [] (presence_hash w !! getRoomCountKey))
         (processId w) in
     if decide (target = processId w) then
       createRoom E roomName clientOptions w = handleCreateRoom E roomName clientOptions w
     else
       match requestFromIPC_RoomListingData E (getProcessChannel target) None
               (Some [AVal (JStr roomName); AObj clientOptions])
               (Some (REMOTE_ROOM_SHORT_TIMEOUT E)) w with
       | (Ok listing, w') => createRoom E roomName clientOptions w = (Ok listing, w')
       | (Throw _, w') =>
           createRoom E roomName clientOptions w =
             handleCreateRoom E roomName clientOptions w'
       end).
Proof.
  intros Hsorts. repeat split.
  - intros pid. unfold processIdWithFewerRooms. cbn.
    match goal with |- context [Array_sort E ?c []] =>
      destruct (Hsorts c []) as [Hp _] end.
    symmetry in Hp. apply Permutation_nil in Hp. rewrite Hp.
    reflexivity.
  - intros h pid Hne count.
    destruct (sorted_head_smallest E h Hsorts Hne) as (p & Hhead & Hin & Hmin).
    exists p. split; [exact Hin |]. split; [exact Hmin |].
    unfold processIdWithFewerRooms. cbn zeta. by rewrite Hhead.
  - intros h pid p count Hin Hp Hstrict.
    assert (Hne : h ≠ []) by (intros ->; by apply elem_of_nil in Hin).
    destruct (sorted_head_smallest E h Hsorts Hne) as (q & Hhead & Hq & Hmin).
    unfold processIdWithFewerRooms. cbn zeta. rewrite Hhead.
    destruct (decide (q = p)) as [-> | Hqp].
    + apply String.eqb_neq in Hp. by rewrite Hp.
    + specialize (Hstrict q Hq Hqp). specialize (Hmin p Hin).
      unfold count in *. cbv beta in *. lia.
  - intros roomName clientOptions w. cbn zeta.
    rewrite createRoom_unfold. cbn zeta.
    destruct (decide _); [reflexivity |].
    destruct (requestFromIPC_RoomListingData E _ _ _ _ w) as [[listing | e] w'];
      reflexivity.
Qed.

Lemma createRoom_target_witness :
  sorts (Array_sort Sample.env) ∧
  processIdWithFewerRooms Sample.env [("A", 3%Z); ("B", 1%Z); ("C", 2%Z)] "A" = "B".
Proof.
  assert (Hsorts : sorts (Array_sort Sample.env)) by exact insertion_sort_sorts.
  split; [exact Hsorts |].
  destruct (createRoom_target Sample.env Hsorts) as (_ & _ & Hstrict & _).
  apply Hstrict.
  - cbn. apply elem_of_cons. right. apply elem_of_cons. by left.
  - discriminate.
  - intros k Hk Hne. vm_compute in Hk.
    repeat (apply elem_of_cons in Hk as [-> | Hk]; [try done; vm_compute; reflexivity |]).
    by apply elem_of_nil in Hk.
Defined.

(** C3, as the claim has it, fails: with the two process ids [A] and [B] at
    one room each, the comparator answers [-1] for both orders, and a sort
    that places an element before the first one it is put before ends with
    [B] first, not with the first key [A]. *)
Lemma createRoom_tie_not_by_key_order :
  ¬ (∀ E : Environment, sorts (Array_sort E) →
       ∀ (h : list (string * Z)) (pid : string),
         processIdWithFewerRooms E h pid = target_by_key_order h pid).
Proof.
  intros Hclaim.
  specialize (Hclaim Sample.env insertion_sort_sorts [("A", 1%Z); ("B", 1%Z)] "A").
  vm_compute in Hclaim. discriminate Hclaim.
Qed.

(** ** Joining or creating *)

(** A retry loop with a budget of [S n] attempts makes between one and
    [S n] of them; every attempt but the last failed with a
    [SeatReservationError]; and it gives up on such an error only when the
    budget is used. *)
Lemma retry_attempts {A} (cb : M A) (n : nat) :
  ∀ w, ∃ k,
    (1 ≤ k ≤ S n)%nat ∧
    attempts cb k w (retry cb (S n) isSeatReservationError w) ∧
    (∀ e w', retry cb (S n) isSeatReservationError w = (Throw e, w') →
             isSeatReservationError e = true → k = S n).
Proof.
  induction n as [| n IH]; intros w.
  - exists 1%nat. split; [lia |]. split; [| done].
    cbn. destruct (cb w) as [[a | e] w'] eqn:Hcb; rewrite <- Hcb; constructor.
  - cbn [retry]. destruct (cb w) as [[a | e] w'] eqn:Hcb.
    + exists 1%nat. split; [lia |]. split; [| done].
      rewrite <- Hcb. constructor.
    + destruct e as [m c | m | m | v]; cbn [isSeatReservationError].
      2: { destruct (IH w') as (k & Hk & Hatt & Hlast).
           exists (S k). split; [lia |]. split.
           - eapply attempts_again; [exact Hcb | exact Hatt].
           - intros e w'' Hres He. f_equal. by eapply Hlast. }
      all: exists 1%nat; (split; [lia |]); (split; [rewrite <- Hcb; constructor |]);
        intros e w'' Hres He; inversion Hres; subst; discriminate He.
Qed.

Lemma joinOrCreate_attempt_unfold (E : Environment) (roomName : string)
    (options : JsObject) (w : World) :
  joinOrCreate_attempt E roomName options w =
    match findOneRoomAvailable E roomName options w with
    | (Ok (Some listing), w1) => reserveSeatFor E listing options w1
    | (Ok None, w1) =>
        match createRoom E roomName options w1 with
        | (Ok listing, w2) => reserveSeatFor E listing options w2
        | (Throw e, w2) => (Throw e, w2)
        end
    | (Throw e, w1) => (Throw e, w1)
    end.
Proof.
  unfold joinOrCreate_attempt. unfold_monad.
  destruct (findOneRoomAvailable E roomName options w) as [[[listing |] | e] w1];
    reflexivity.
Qed.

(** C2.  [joinOrCreate] runs its attempt ([findOneRoomAvailable], then
    [createRoom] when no room was found, then [reserveSeatFor]) between one
    and five times; an attempt is followed by another one only when it failed
    with a [SeatReservationError], so that any other error, and any seat
    reservation, is the outcome of [joinOrCreate] at once; and a
    [SeatReservationError] is the outcome only of the fifth attempt. *)
Theorem joinOrCreate_retries (E : Environment) (roomName : string) (options : JsObject)
    (w : World) :
  (∀ w0, joinOrCreate_attempt E roomName options w0 =
     match findOneRoomAvailable E roomName options w0 with
     | (Ok (Some listing), w1) => reserveSeatFor E listing options w1
     | (Ok None, w1) =>
         match createRoom E roomName options w1 with
         | (Ok listing, w2) => reserveSeatFor E listing options w2
         | (Throw e, w2) => (Throw e, w2)
         end
     | (Throw e, w1) => (Throw e, w1)
     end) ∧
  ∃ n,
    (1 ≤ n ≤ 5)%nat ∧
    attempts (joinOrCreate_attempt E roomName options) n w
      (joinOrCreate E roomName options w) ∧
    (∀ e w', joinOrCreate E roomName options w = (Throw e, w') →
             isSeatReservationError e = true → n = 5%nat).
Proof.
  split; [apply joinOrCreate_attempt_unfold |].
  apply (retry_attempts (joinOrCreate_attempt E roomName options) 4 w).
Qed.

(** With a room that refuses every seat, the first attempt creates it, the
    next four find it again, and the fifth [SeatReservationError] is the
    outcome; five session ids and one room id have been generated. *)
Example joinOrCreate_gives_up :
  ∃ message w',
    joinOrCreate Sample.env_full "chat" ∅ Sample.started =
      (Throw (SeatReservationError message), w') ∧
    size (rooms w') = 1%nat ∧ generated w' = 6%nat.
Proof. eexists _, _. split; [| split]; vm_compute; reflexivity. Qed.

(** ** Finding a room *)

Lemma findOneRoomAvailable_unfold (E : Environment) (roomName : string)
    (options : JsObject) (w : World) :
  findOneRoomAvailable E roomName options w =
    let w1 := (awaitRoomAvailable_executor E roomName w).2 in
    ((findOneRoomAvailable_callback E roomName options w1).1,
     (presence.decr (getHandlerConcurrencyKey roomName) w1).2).
Proof.
  unfold findOneRoomAvailable, awaitRoomAvailable.
  unfold bind at 1. rewrite executor_unfold. cbn zeta. cbn [fst snd].
  rewrite timer_unfold. by rewrite findOneRoomAvailable_callback_reads.
Qed.

(** Without a handler of the name, [findOneRoomAvailable] fails: with
    [ERR_MATCHMAKE_NO_HANDLER], or with a [TypeError] when the name is one
    that the registry inherits. *)
Lemma findOneRoomAvailable_no_handler (E : Environment) (roomName : string)
    (options : JsObject) (w : World) :
  handlers w !! roomName = None →
  (findOneRoomAvailable E roomName options w).1 =
    Throw (if bool_decide (roomName ∈ Object_prototype)
           then Failure "handler.getFilterOptions is not a function"
           else MatchMakeError (dquote +:+ roomName +:+ dquote +:+ " not defined")
                  (Some ERR_MATCHMAKE_NO_HANDLER)).
Proof.
  intros Hh. rewrite findOneRoomAvailable_unfold. cbn zeta. cbn [fst].
  unfold findOneRoomAvailable_callback. unfold_monad.
  rewrite executor_unfold. cbn. rewrite (registry_get_absent _ _ Hh).
  by destruct (bool_decide _).
Qed.

(** With a handler of the name, [findOneRoomAvailable] gives the first
    listing of the driver, after the sort of the handler, that has the
    queried value in every field of the conditions. *)
Lemma findOneRoomAvailable_registered (E : Environment) (roomName : string)
    (options : JsObject) (h : RegisteredHandler) (w : World) :
  handlers w !! roomName = Some h →
  (findOneRoomAvailable E roomName options w).1 =
    Ok (head (List.filter (driver.matches (roomQuery_conditions roomName h options))
                (match sortOptions h with
                 | Some o => query_sort E o
                 | None => id
                 end (driver_rooms w)))).
Proof.
  intros Hh. rewrite findOneRoomAvailable_unfold. cbn zeta. cbn [fst].
  unfold findOneRoomAvailable_callback, driver.findOne. unfold_monad.
  rewrite executor_unfold. cbn. by rewrite (registry_get_registered _ _ _ Hh).
Qed.

(** The filter options have none of the keys that a listing uses for
    itself. *)
Lemma getFilterOptions_reserved (h : RegisteredHandler) (options : JsObject) (k : string) :
  k ∈ INVALID_OPTION_KEYS → getFilterOptions h options !! k = None.
Proof.
  intros Hk. unfold getFilterOptions.
  induction (filterOptions h) as [| f fs IH]; cbn; [apply lookup_empty |].
  destruct (truthy (field options f)); cbn [andb]; [| exact IH].
  destruct (bool_decide (f ∈ INVALID_OPTION_KEYS)) eqn:Hf; cbn [negb]; [exact IH |].
  apply bool_decide_eq_false in Hf.
  rewrite lookup_insert_ne; [exact IH |]. intros ->. by apply Hf.
Qed.

(** The conditions of the query have the fixed values of [locked], [name]
    and [private], whatever the options of the client. *)
Lemma roomQuery_conditions_fixed (roomName : string) (h : RegisteredHandler)
    (options : JsObject) :
  roomQuery_conditions roomName h options !! "locked" = Some (JBool false) ∧
  roomQuery_conditions roomName h options !! "private" = Some (JBool false) ∧
  roomQuery_conditions roomName h options !! "name" = Some (JStr roomName).
Proof.
  assert (Hin : ∀ k, k ∈ ["locked"; "private"; "name"] → k ∈ INVALID_OPTION_KEYS).
  { intros k Hk. unfold INVALID_OPTION_KEYS.
    repeat (apply elem_of_cons in Hk as [-> | Hk];
            [refine (bool_decide_unpack _ _); vm_compute; exact I |]).
    by apply elem_of_nil in Hk. }
  unfold roomQuery_conditions, spread.
  split; [| split]; apply lookup_union_Some_raw; right;
    (split; [apply getFilterOptions_reserved, Hin;
             refine (bool_decide_unpack _ _); vm_compute; exact I
            | reflexivity]).
Qed.

Lemma matches_field (conditions l : JsObject) (k : string) (v : JsVal) :
  driver.matches conditions l = true → conditions !! k = Some v → field l k = v.
Proof.
  unfold driver.matches. intros Hm Hk.
  apply bool_decide_eq_true in Hm. by apply (Hm k v).
Qed.

(** The listing that [findOneRoomAvailable] returns is unlocked and public,
    and of the room type that was asked for. *)
Lemma findOneRoomAvailable_unlocked_public (E : Environment) (roomName : string)
    (options : JsObject) (w : World) (listing : JsObject) :
  (findOneRoomAvailable E roomName options w).1 = Ok (Some listing) →
  field listing "locked" = JBool false ∧ field listing "private" = JBool false ∧
  field listing "name" = JStr roomName.
Proof.
  destruct (handlers w !! roomName) as [h |] eqn:Hh.
  - rewrite (findOneRoomAvailable_registered E roomName options h w Hh).
    intros Hres. inversion Hres as [Hhead]. clear Hres.
    apply head_Some_elem_of in Hhead.
    apply list_elem_of_In, filter_In in Hhead as [_ Hm].
    destruct (roomQuery_conditions_fixed roomName h options) as (Hl & Hp & Hn).
    split; [by eapply matches_field |]. split; by eapply matches_field.
  - rewrite (findOneRoomAvailable_no_handler E roomName options w Hh). discriminate.
Qed.

(** C8.  With a handler registered under the name, [findOneRoomAvailable]
    queries the driver with the conditions [locked: false], [name] and
    [private: false], which the filter options do not override, so that a
    listing it returns is unlocked and public.  Without one it fails with
    [ERR_MATCHMAKE_NO_HANDLER] only for a name that the registry does not
    inherit: [handlers] is a plain object, and for [constructor], [toString]
    and the other names of [Object.prototype] the guard [!handler] lets the
    inherited member through and the call of [getFilterOptions] on it is a
    [TypeError].  So it is on the sample process for the name
    [constructor]. *)
Theorem findOneRoomAvailable_inherited_name :
  (∀ (E : Environment) (roomName : string) (options : JsObject) (w : World),
     let out := (findOneRoomAvailable E roomName options w).1 in
     match handlers w !! roomName with
     | Some h =>
         let conditions := roomQuery_conditions roomName h options in
         conditions !! "locked" = Some (JBool false) ∧
         conditions !! "private" = Some (JBool false) ∧
         conditions !! "name" = Some (JStr roomName) ∧
         out = Ok (head (List.filter (driver.matches conditions)
                           (match sortOptions h with
                            | Some o => query_sort E o
                            | None => id
                            end (driver_rooms w)))) ∧
         ∀ listing, out = Ok (Some listing) →
                    field listing "locked" = JBool false ∧
                    field listing "private" = JBool false
     | None =>
         if bool_decide (roomName ∈ Object_prototype)
         then out = Throw (Failure "handler.getFilterOptions is not a function")
         else out = Throw (MatchMakeError (dquote +:+ roomName +:+ dquote +:+ " not defined")
                             (Some ERR_MATCHMAKE_NO_HANDLER))
     end) ∧
  handlers Sample.started !! "constructor" = None ∧
  (findOneRoomAvailable Sample.env "constructor" ∅ Sample.started).1 =
    Throw (Failure "handler.getFilterOptions is not a function") ∧
  (hasHandler "constructor" Sample.started).1 = Ok true.
Proof.
  split; [| split; [| split]]; [| vm_compute; reflexivity ..].
  intros E roomName options w. cbn zeta.
  destruct (handlers w !! roomName) as [h |] eqn:Hh.
  - destruct (roomQuery_conditions_fixed roomName h options) as (Hl & Hp & Hn).
    split; [exact Hl |]. split; [exact Hp |]. split; [exact Hn |].
    split; [by apply findOneRoomAvailable_registered |].
    intros listing Hres.
    destruct (findOneRoomAvailable_unlocked_public E roomName options w listing Hres)
      as (H1 & H2 & _).
    by split.
  - rewrite (findOneRoomAvailable_no_handler E roomName options w Hh).
    by destruct (bool_decide _).
Qed.

(** ** Graceful shutdown *)

Lemma first_rejection_earliest {A} (ps : list (Promise A)) (t : nat) (e : Thrown) :
  Settles t (Throw e) ∈ ps →
  ∃ t' e', (t' ≤ t)%nat ∧ first_rejection ps = Some (t', e').
Proof.
  induction ps as [| p rest IH]; intros Hin; [by apply elem_of_nil in Hin |].
  apply elem_of_cons in Hin as [<- | Hin].
  - cbn [first_rejection]. destruct (first_rejection rest) as [[t' e'] |].
    + destruct (t' <? t)%nat eqn:Hlt.
      * apply Nat.ltb_lt in Hlt. exists t', e'. split; [lia | reflexivity].
      * exists t, e. split; [lia | reflexivity].
    + exists t, e. split; [lia | reflexivity].
  - destruct (IH Hin) as (t' & e' & Hle & Hfirst).
    destruct p as [t0 [a | e0] |]; cbn [first_rejection]; rewrite Hfirst.
    + exists t', e'. split; [lia | reflexivity].
    + destruct (t' <? t0)%nat eqn:Hlt.
      * exists t', e'. split; [lia | reflexivity].
      * apply Nat.ltb_ge in Hlt. exists t0, e0. split; [lia | reflexivity].
    + exists t', e'. split; [lia | reflexivity].
Qed.

Lemma Promise_all_fulfilled {A} (ps : list (Promise A)) (vs : list A) :
  Forall2 (λ p v, ∃ t, p = Settles t (Ok v)) ps vs →
  first_rejection ps = None ∧ ∃ t, all_fulfilled ps = Some (t, vs).
Proof.
  induction 1 as [| p v ps vs [t ->] _ [IHr [t' IHf]]]; cbn.
  - eauto.
  - rewrite IHr, IHf. eauto.
Qed.

Lemma gracefullyShutdown_again (E : Environment) (w : World) :
  isGracefullyShuttingDown w = true →
  gracefullyShutdown E w = (Ok (Settles 0 (Throw (Rejection (JBool false)))), w).
Proof.
  intros Hflag. unfold gracefullyShutdown. unfold_monad. by rewrite Hflag.
Qed.

(** The earliest rejection is the one of a promise of the list: one that
    no rejection before it in the list comes as early as, and no rejection
    behind it comes earlier than. *)
Lemma first_rejection_split {A} (before after : list (Promise A)) (t : nat) (e : Thrown) :
  (∀ t' e', Settles t' (Throw e') ∈ before → (t < t')%nat) →
  (∀ t' e', Settles t' (Throw e') ∈ after → (t ≤ t')%nat) →
  first_rejection (before ++ Settles t (Throw e) :: after) = Some (t, e).
Proof.
  intros Hbefore Hafter.
  assert (Htail : first_rejection (Settles t (Throw e) :: after) = Some (t, e)).
  { cbn [first_rejection].
    destruct (first_rejection after) as [[t' e'] |] eqn:Hfirst; [| reflexivity].
    assert (Hin : Settles t' (Throw e') ∈ after).
    { clear Hafter. revert t' e' Hfirst.
      induction after as [| p rest IH]; intros t' e' Hfirst; [discriminate |].
      destruct p as [t0 [a | e0] |]; cbn [first_rejection] in Hfirst.
      - right. by apply IH.
      - destruct (first_rejection rest) as [[t1 e1] |] eqn:Hrest.
        + destruct (t1 <? t0)%nat; inversion Hfirst; subst; [right; by apply IH | left].
        + inversion Hfirst; subst. left.
      - right. by apply IH. }
    apply Hafter in Hin. apply Nat.ltb_ge in Hin. by rewrite Hin. }
  induction before as [| p rest IH]; [exact Htail |].
  cbn [app]. assert (Hrest : first_rejection (rest ++ Settles t (Throw e) :: after) = Some (t, e)).
  { apply IH. intros t' e' Hin. apply (Hbefore t' e'). by right. }
  destruct p as [t0 [a | e0] |]; cbn [first_rejection]; rewrite Hrest; [reflexivity | | reflexivity].
  assert (Hlt : (t < t0)%nat) by (apply (Hbefore t0 e0); left).
  apply Nat.ltb_lt in Hlt. by rewrite Hlt.
Qed.

(** The earliest rejection is one of the list, and none is earlier. *)
Lemma first_rejection_member {A} (ps : list (Promise A)) (t : nat) (e : Thrown) :
  first_rejection ps = Some (t, e) →
  Settles t (Throw e) ∈ ps ∧ ∀ t' e', Settles t' (Throw e') ∈ ps → (t ≤ t')%nat.
Proof.
  revert t e. induction ps as [| p rest IH]; intros t e Hfirst; [discriminate |].
  destruct p as [t0 [a | e0] |]; cbn [first_rejection] in Hfirst.
  - destruct (IH t e Hfirst) as [Hin Hmin]. split; [by right |].
    intros t' e' Hin'. apply elem_of_cons in Hin' as [Heq | Hin']; [discriminate Heq |].
    by eapply Hmin.
  - destruct (first_rejection rest) as [[t1 e1] |] eqn:Hrest.
    + destruct (IH t1 e1 eq_refl) as [Hin Hmin].
      destruct (t1 <? t0)%nat eqn:Hlt; inversion Hfirst; subst.
      * apply Nat.ltb_lt in Hlt. split; [by right |].
        intros t' e' Hin'. apply elem_of_cons in Hin' as [Heq | Hin'].
        -- inversion Heq; subst. lia.
        -- by eapply Hmin.
      * apply Nat.ltb_ge in Hlt. split; [left |].
        intros t' e' Hin'. apply elem_of_cons in Hin' as [Heq | Hin'].
        -- inversion Heq; subst. lia.
        -- specialize (Hmin t' e' Hin'). lia.
    + inversion Hfirst; subst. split; [left |].
      intros t' e' Hin'. apply elem_of_cons in Hin' as [Heq | Hin'].
      * inversion Heq; subst. lia.
      * exfalso. clear IH Hfirst. induction rest as [| q rest' IHr]; [by apply elem_of_nil in Hin' |].
        destruct q as [t2 [a2 | e2] |]; cbn [first_rejection] in Hrest.
        -- apply elem_of_cons in Hin' as [Heq | Hin']; [discriminate Heq | by apply IHr].
        -- destruct (first_rejection rest') as [[t3 e3] |]; [destruct (t3 <? t2)%nat |];
             discriminate Hrest.
        -- apply elem_of_cons in Hin' as [Heq | Hin']; [discriminate Heq | by apply IHr].
  - destruct (IH t e Hfirst) as [Hin Hmin]. split; [by right |].
    intros t' e' Hin'. apply elem_of_cons in Hin' as [Heq | Hin']; [discriminate Heq |].
    by eapply Hmin.
Qed.

Lemma first_rejection_none {A} (ps : list (Promise A)) :
  (∀ t e, Settles t (Throw e) ∉ ps) → first_rejection ps = None.
Proof.
  intros Hnone. destruct (first_rejection ps) as [[t e] |] eqn:Hfirst; [| reflexivity].
  apply first_rejection_member in Hfirst as [Hin _]. by destruct (Hnone t e).
Qed.

Lemma all_fulfilled_times {A} (tvs : list (nat * A)) :
  all_fulfilled (map (λ tv, Settles tv.1 (Ok tv.2)) tvs) =
    Some (foldr Nat.max 0%nat (tvs.*1), tvs.*2).
Proof.
  induction tvs as [| [t v] rest IH]; [reflexivity |].
  cbn [map all_fulfilled fst snd]. rewrite IH. reflexivity.
Qed.

Lemma all_fulfilled_pending {A} (ps : list (Promise A)) :
  Pending ∈ ps → all_fulfilled ps = None.
Proof.
  induction ps as [| p rest IH]; intros Hin; [by apply elem_of_nil in Hin |].
  destruct p as [t [a | e] |]; cbn [all_fulfilled]; try reflexivity.
  apply elem_of_cons in Hin as [Heq | Hin]; [discriminate Heq |].
  by rewrite (IH Hin).
Qed.

Lemma disconnectRooms_all (E : Environment) (table : list (string * Room)) :
  disconnect_contained E →
  NoDup (table.*1) →
  ∀ w,
    isGracefullyShuttingDown w = true →
    (∀ id r, (id, r) ∈ table → rooms w !! id = Some r ∧ room_roomId r = id) →
    ∃ ps w',
      disconnectRooms E (table.*1) w = (Ok ps, w') ∧
      Forall2 (λ kr p, ∃ w1 w2, room_disconnect E (snd kr) w1 = (Ok p, w2)) table ps ∧
      isGracefullyShuttingDown w' = true ∧
      presence_hash w' = presence_hash w ∧
      presence_channels w' ⊆ presence_channels w.
Proof.
  intros Hframe. induction table as [| [id r] rest IH]; intros Hnodup w Hdown Htable.
  - exists [], w. cbn. by repeat split.
  - cbn [fmap list_fmap fst] in *. apply NoDup_cons in Hnodup as [Hid Hnodup].
    destruct (Htable id r (list_elem_of_here _ _)) as [Hr Hkey].
    destruct (Hframe r w Hdown) as (p & w1 & Hcall & Hflag & Hhash & Hchan & Hrooms).
    destruct (IH Hnodup w1 Hflag) as (ps & w' & Hrest & Hall & Hflag' & Hhash' & Hchan').
    { intros id' r' Hin.
      destruct (Htable id' r' (list_elem_of_further _ _ _ Hin)) as [Hr' Hkey'].
      split; [| exact Hkey']. rewrite Hrooms; [exact Hr' |].
      rewrite Hkey. intros ->. apply Hid.
      apply list_elem_of_fmap. by exists (id, r'). }
    exists (p :: ps), w'. split.
    { cbn [disconnectRooms]. unfold bind at 1. unfold get. rewrite Hr.
      unfold bind at 1. rewrite Hcall. unfold bind at 1. rewrite Hrest. reflexivity. }
    split; [constructor; [by eexists _, _ | exact Hall] |].
    split; [exact Hflag' |]. split; [congruence |]. by etrans.
Qed.

Lemma gracefullyShutdown_first (E : Environment) (w : World) :
  isGracefullyShuttingDown w = false →
  gracefullyShutdown E w =
    let w1 := (presence.unsubscribe (getProcessChannel (processId w))
                 (presence.hdel getRoomCountKey (processId w)
                    (set_isGracefullyShuttingDown true w)).2).2 in
    match disconnectRooms E (map_to_list (rooms w)).*1 w1 with
    | (Ok ps, w') => (Ok (Promise_all ps), w')
    | (Throw e, w') => (Throw e, w')
    end.
Proof.
  intros Hflag. unfold gracefullyShutdown. unfold_monad. rewrite Hflag. reflexivity.
Qed.

(** A room that disposes itself when it is disconnected stays within what
    the shutdown allows. *)
Lemma disposeRoom_contained (roomName : string) (r : Room) (w : World) :
  isGracefullyShuttingDown w = true →
  let w' := (disposeRoom roomName r w).2 in
  isGracefullyShuttingDown w' = true ∧
  presence_hash w' = presence_hash w ∧
  presence_channels w' ⊆ presence_channels w ∧
  ∀ k, k ≠ room_roomId r → rooms w' !! k = rooms w !! k.
Proof.
  intros Hdown. cbn zeta.
  unfold disposeRoom, clearRoomReferences, emit, presence.del, presence.unsubscribe.
  unfold_monad. cbn. rewrite Hdown. cbn.
  destruct (registry_get (handlers w) roomName); cbn.
  - split; [exact Hdown |]. split; [reflexivity |].
    split; [apply subseteq_difference_l; reflexivity |].
    intros k Hk. by rewrite lookup_delete_ne.
  - split; [exact Hdown |]. split; [reflexivity |]. split; [reflexivity | done].
  - split; [exact Hdown |]. split; [reflexivity |]. split; [reflexivity | done].
Qed.

Lemma sample_disconnect_contained : disconnect_contained Sample.env.
Proof.
  intros r w Hdown. eexists _, w. split; [reflexivity |].
  split; [exact Hdown |]. split; [reflexivity |]. split; [set_solver | reflexivity].
Qed.

Lemma sample_dispose_contained : disconnect_contained Sample.env_dispose.
Proof.
  intros r w Hdown.
  pose proof (disposeRoom_contained (room_roomName r) r w Hdown) as Hframe.
  cbn zeta in Hframe. cbn [room_disconnect Sample.env_dispose].
  unfold try_catch, bind, ret.
  destruct (disposeRoom (room_roomName r) r w) as [[[] | e] w'];
    cbn [snd] in Hframe; by eexists _, w'.
Qed.

(** C7, as the code has it.  A call of [gracefullyShutdown] while the
    process is shutting down is rejected with the value [false] and changes
    nothing.  The first call sets the flag, deletes the room-count entry of
    the process, unsubscribes from [p:<processId>], calls [disconnect] on
    every room of the table and returns [Promise.all] of the promises, so
    that a call after it is rejected.  [Promise.all] is rejected as soon as
    one of the promises is, with the reason of that promise, whatever the
    others do; it is fulfilled when all of them are, with their values, at
    the time of the last; and it stays pending otherwise. *)
Theorem gracefullyShutdown_once (E : Environment) :
  (∀ w, isGracefullyShuttingDown w = true →
        gracefullyShutdown E w = (Ok (Settles 0 (Throw (Rejection (JBool false)))), w)) ∧
  (∀ w, isGracefullyShuttingDown w = false →
        gracefullyShutdown E w =
          let w1 := (presence.unsubscribe (getProcessChannel (processId w))
                       (presence.hdel getRoomCountKey (processId w)
                          (set_isGracefullyShuttingDown true w)).2).2 in
          match disconnectRooms E (map_to_list (rooms w)).*1 w1 with
          | (Ok ps, w') => (Ok (Promise_all ps), w')
          | (Throw e, w') => (Throw e, w')
          end) ∧
  (disconnect_contained E →
   ∀ w, isGracefullyShuttingDown w = false →
        (∀ id r, rooms w !! id = Some r → room_roomId r = id) →
        ∃ ps w',
          gracefullyShutdown E w = (Ok (Promise_all ps), w') ∧
          Forall2 (λ kr p, ∃ w1 w2, room_disconnect E (snd kr) w1 = (Ok p, w2))
            (map_to_list (rooms w)) ps ∧
          isGracefullyShuttingDown w' = true ∧
          hash_get (processId w) (default [] (presence_hash w' !! getRoomCountKey)) = None ∧
          (getProcessChannel (processId w) ∉ presence_channels w') ∧
          gracefullyShutdown E w' =
            (Ok (Settles 0 (Throw (Rejection (JBool false)))), w')) ∧
  (∀ (A : Type) (before after : list (Promise A)) (t : nat) (e : Thrown),
     (∀ t' e', Settles t' (Throw e') ∈ before → (t < t')%nat) →
     (∀ t' e', Settles t' (Throw e') ∈ after → (t ≤ t')%nat) →
     Promise_all (before ++ Settles t (Throw e) :: after) = Settles t (Throw e)) ∧
  (∀ (A : Type) (ps : list (Promise A)) (t : nat) (e : Thrown),
     Settles t (Throw e) ∈ ps →
     ∃ t' e', Settles t' (Throw e') ∈ ps ∧ (t' ≤ t)%nat ∧
              (∀ t'' e'', Settles t'' (Throw e'') ∈ ps → (t' ≤ t'')%nat) ∧
              Promise_all ps = Settles t' (Throw e')) ∧
  (∀ (A : Type) (tvs : list (nat * A)),
     Promise_all (map (λ tv, Settles tv.1 (Ok tv.2)) tvs) =
       Settles (foldr Nat.max 0%nat (tvs.*1)) (Ok (tvs.*2))) ∧
  (∀ (A : Type) (ps : list (Promise A)),
     (∀ t e, Settles t (Throw e) ∉ ps) → Pending ∈ ps → Promise_all ps = Pending).
Proof.
  split; [apply gracefullyShutdown_again |].
  split; [apply gracefullyShutdown_first |].
  split; [| split; [| split; [| split]]].
  - intros Hframe w Hflag Hkeys.
    set (w1 := (presence.unsubscribe (getProcessChannel (processId w))
                  (presence.hdel getRoomCountKey (processId w)
                     (set_isGracefullyShuttingDown true w)).2).2).
    destruct (disconnectRooms_all E (map_to_list (rooms w)) Hframe
                (NoDup_fst_map_to_list _) w1 eq_refl)
      as (ps & w' & Hrun & Hall & Hflag' & Hhash' & Hchan').
    { intros id r Hin. apply elem_of_map_to_list in Hin.
      split; [exact Hin | by apply Hkeys]. }
    exists ps, w'. split.
    { rewrite (gracefullyShutdown_first E w Hflag). cbn zeta. fold w1. by rewrite Hrun. }
    split; [exact Hall |].
    split; [exact Hflag' |]. split.
    { rewrite Hhash'. cbn. rewrite lookup_insert_eq. cbn. apply hash_get_del_eq. }
    split; [| by apply gracefullyShutdown_again].
    intros Hin. apply Hchan' in Hin. cbn in Hin.
    apply elem_of_difference in Hin as [_ Hnot]. apply Hnot. by apply elem_of_singleton.
  - intros A before after t e Hbefore Hafter. unfold Promise_all.
    by rewrite (first_rejection_split before after t e Hbefore Hafter).
  - intros A ps t e Hin.
    destruct (first_rejection_earliest ps t e Hin) as (t' & e' & Hle & Hfirst).
    destruct (first_rejection_member ps t' e' Hfirst) as [Hmem Hmin].
    exists t', e'. split; [exact Hmem |]. split; [exact Hle |]. split; [exact Hmin |].
    unfold Promise_all. by rewrite Hfirst.
  - intros A tvs. unfold Promise_all.
    rewrite first_rejection_none.
    + by rewrite all_fulfilled_times.
    + intros t e Hin. apply list_elem_of_fmap in Hin as ([t' v] & Heq & _). discriminate Heq.
  - intros A ps Hnone Hpending. unfold Promise_all.
    by rewrite (first_rejection_none ps Hnone), (all_fulfilled_pending ps Hpending).
Qed.

Lemma sample_two_rooms_keys (id : string) (r : Room) :
  rooms Sample.two_rooms !! id = Some r → room_roomId r = id.
Proof.
  intros Hr. apply elem_of_map_to_list in Hr.
  vm_compute in Hr.
  repeat (apply elem_of_cons in Hr as [Hr | Hr]; [by inversion Hr |]).
  by apply elem_of_nil in Hr.
Qed.

Lemma gracefullyShutdown_once_witness :
  disconnect_contained Sample.env_dispose ∧
  isGracefullyShuttingDown Sample.two_rooms = false ∧
  ∃ ps w',
    gracefullyShutdown Sample.env_dispose Sample.two_rooms = (Ok (Promise_all ps), w') ∧
    length ps = 2%nat ∧
    isGracefullyShuttingDown w' = true.
Proof.
  split; [exact sample_dispose_contained |]. split; [reflexivity |].
  destruct (proj1 (proj2 (proj2 (gracefullyShutdown_once Sample.env_dispose)))
              sample_dispose_contained Sample.two_rooms eq_refl sample_two_rooms_keys)
    as (ps & w' & Hrun & Hall & Hflag & _).
  exists ps, w'. split; [exact Hrun |]. split; [| exact Hflag].
  apply Forall2_length in Hall. rewrite <- Hall. vm_compute. reflexivity.
Defined.

(** C7, as the claim has it, fails: with two rooms of which the first
    refuses to disconnect at time 1 and the second disconnects at time 5, the
    promise of the shutdown is rejected at time 1 with the reason of the first
    room, where [Promise.allSettled] is fulfilled at time 5 with both
    outcomes. *)
Lemma gracefullyShutdown_not_allSettled :
  let ps : list (Promise Any) :=
    [Settles 5 (Ok (AVal JUndefined)); Settles 1 (Throw (Failure "disconnect failed"))] in
  isGracefullyShuttingDown Sample.two_rooms = false ∧
  (disconnectRooms Sample.env (map_to_list (rooms Sample.two_rooms)).*1
     Sample.two_rooms).1 = Ok ps ∧
  (gracefullyShutdown Sample.env Sample.two_rooms).1 =
    Ok (Settles 1 (Throw (Failure "disconnect failed"))) ∧
  Promise_allSettled ps =
    Settles 5 (Ok [Ok (AVal JUndefined); Throw (Failure "disconnect failed")]).
Proof. cbn zeta. split; [| split; [| split]]; vm_compute; reflexivity. Qed.

(** ** Locked rooms and the subscriptions of the table *)

Lemma getRoomChannel_inj (a b : string) : getRoomChannel a = getRoomChannel b → a = b.
Proof. unfold getRoomChannel. cbn. intros H. by inversion H. Qed.

Lemma table_subscribed_same (w w' : World) :
  rooms w' = rooms w → presence_channels w' = presence_channels w →
  table_subscribed w → table_subscribed w'.
Proof. unfold table_subscribed. intros -> ->. done. Qed.

Lemma table_subscribed_insert (w w' : World) (r : Room) :
  rooms w' = <[room_roomId r := r]> (rooms w) →
  getRoomChannel (room_roomId r) ∈ presence_channels w' →
  presence_channels w ⊆ presence_channels w' →
  table_subscribed w → table_subscribed w'.
Proof.
  intros Hrooms Hchan Hsub Hinv roomId r' Hr'. rewrite Hrooms in Hr'.
  destruct (decide (room_roomId r = roomId)) as [<- | Hne].
  - rewrite lookup_insert_eq in Hr'. inversion Hr'; subst. done.
  - rewrite lookup_insert_ne in Hr' by done.
    destruct (Hinv roomId r' Hr') as [Hkey Hin]. split; [done | by apply Hsub].
Qed.

Lemma table_subscribed_delete (w w' : World) (roomId : string) :
  rooms w' = delete roomId (rooms w) →
  presence_channels w' = presence_channels w ∖ {[getRoomChannel roomId]} →
  table_subscribed w → table_subscribed w'.
Proof.
  intros Hrooms Hchan Hinv k r Hr. rewrite Hrooms in Hr.
  destruct (decide (roomId = k)) as [<- | Hne].
  - by rewrite lookup_delete_eq in Hr.
  - rewrite lookup_delete_ne in Hr by done.
    destruct (Hinv k r Hr) as [Hkey Hin]. split; [done |].
    rewrite Hchan. apply elem_of_difference. split; [done |].
    intros Heq%elem_of_singleton%getRoomChannel_inj. congruence.
Qed.

(** [lockRoom] deletes the presence key that is the id of the room and emits
    [lock] on the handler: the table and the subscriptions stay as they
    are. *)
Lemma lockRoom_frame (roomName : string) (r : Room) (w : World) :
  rooms (lockRoom roomName r w).2 = rooms w ∧
  presence_channels (lockRoom roomName r w).2 = presence_channels w ∧
  presence_keys (lockRoom roomName r w).2 = delete (room_roomId r) (presence_keys w).
Proof.
  unfold lockRoom, clearRoomReferences, emit, presence.del. unfold_monad. cbn.
  destruct (registry_get _ (room_roomName r)); cbn; done.
Qed.

(** [lockRoom] in full: the key is deleted, then [lock] is emitted on the
    handler of the room's type, or a [TypeError] is thrown when there is
    none. *)
Lemma lockRoom_unfold (roomName : string) (r : Room) (w : World) :
  lockRoom roomName r w =
    let w1 := set_presence_keys (delete (room_roomId r)) w in
    match registry_get (handlers w) (room_roomName r) with
    | registered _ =>
        (Ok tt, add_effect (Emit (room_roomName r) "lock" (room_roomId r)) w1)
    | inherited => (Throw (Failure "handlers[...].emit is not a function"), w1)
    | unregistered => (Throw (Failure "Cannot read property 'emit' of undefined"), w1)
    end.
Proof.
  unfold lockRoom, clearRoomReferences, emit, presence.del. unfold_monad. cbn.
  destruct (registry_get _ (room_roomName r)); reflexivity.
Qed.

(** The events [lock] and [unlock] leave the subscriptions as they are. *)
Lemma on_event_channels (ev : RoomEvent) (r : Room) (w : World) :
  ev ≠ ev_dispose → presence_channels (on_event ev r w).2 = presence_channels w.
Proof.
  intros Hev. destruct ev; [| | done].
  - unfold on_event, Room_set_locked, lockRoom, clearRoomReferences, emit.
    unfold_monad. cbn. by destruct (registry_get _ (room_roomName r)).
  - unfold on_event, Room_set_locked, unlockRoom, createRoomReferences, emit.
    unfold_monad. cbn. by destruct (registry_get _ (room_roomName r)).
Qed.

(** [disposeRoom] of a room of a registered type unsubscribes from the
    channel of the room. *)
Lemma disposeRoom_unsubscribes (roomName : string) (r : Room) (h : RegisteredHandler)
    (w : World) :
  handlers w !! roomName = Some h →
  presence_channels (disposeRoom roomName r w).2 =
    presence_channels w ∖ {[getRoomChannel (room_roomId r)]}.
Proof.
  intros Hh. unfold disposeRoom, clearRoomReferences, emit, presence.del,
    presence.unsubscribe. unfold_monad. cbn.
  destruct (isGracefullyShuttingDown w); cbn;
    rewrite (registry_get_registered _ _ _ Hh); reflexivity.
Qed.

Lemma on_event_keeps (ev : RoomEvent) (roomId : string) (r : Room) (w : World) :
  rooms w !! roomId = Some r →
  table_subscribed w → table_subscribed (on_event ev r w).2.
Proof.
  intros Hr Hinv. destruct (Hinv roomId r Hr) as [Hkey Hchan].
  destruct ev.
  - set (r' := {| room_roomId := room_roomId r; room_roomName := room_roomName r;
                  room_klass := room_klass r; room_maxClients := room_maxClients r;
                  room_listing := <["locked" := JBool true]> (room_listing r);
                  room_internalState := room_internalState r |}).
    apply (table_subscribed_insert w _ r'); [| | | exact Hinv].
    + unfold on_event, Room_set_locked, lockRoom, clearRoomReferences, emit.
      unfold_monad. cbn. destruct (registry_get _ (room_roomName r)); reflexivity.
    + unfold on_event, Room_set_locked, lockRoom, clearRoomReferences, emit.
      unfold_monad. cbn. destruct (registry_get _ (room_roomName r)); cbn;
        by rewrite Hkey.
    + unfold on_event, Room_set_locked, lockRoom, clearRoomReferences, emit.
      unfold_monad. cbn. by destruct (registry_get _ (room_roomName r)).
  - set (r' := {| room_roomId := room_roomId r; room_roomName := room_roomName r;
                  room_klass := room_klass r; room_maxClients := room_maxClients r;
                  room_listing := <["locked" := JBool false]> (room_listing r);
                  room_internalState := room_internalState r |}).
    apply (table_subscribed_insert w _ r'); [| | | exact Hinv].
    + unfold on_event, Room_set_locked, unlockRoom, createRoomReferences, emit.
      unfold_monad. cbn. destruct (registry_get _ (room_roomName r)); cbn;
        by rewrite insert_insert_eq.
    + unfold on_event, Room_set_locked, unlockRoom, createRoomReferences, emit.
      unfold_monad. cbn. destruct (registry_get _ (room_roomName r)); cbn;
        by rewrite Hkey.
    + unfold on_event, Room_set_locked, unlockRoom, createRoomReferences, emit.
      unfold_monad. cbn. by destruct (registry_get _ (room_roomName r)).
  - unfold on_event, disposeRoom, clearRoomReferences, emit. unfold_monad. cbn.
    destruct (isGracefullyShuttingDown w); cbn;
      (destruct (registry_get _ (room_roomName r)); cbn;
       [ apply (table_subscribed_delete w _ (room_roomId r));
           [reflexivity | reflexivity | exact Hinv]
       | apply (table_subscribed_same w); [reflexivity | reflexivity | exact Hinv]
       | apply (table_subscribed_same w); [reflexivity | reflexivity | exact Hinv] ]).
Qed.

Lemma handleCreateRoom_keeps (E : Environment) (roomName : string)
    (clientOptions : JsObject) (w : World) :
  onCreate_keeps E →
  table_subscribed w → table_subscribed (handleCreateRoom E roomName clientOptions w).2.
Proof.
  intros Hcreate Hinv.
  destruct (handlers w !! roomName) as [h |] eqn:Hh.
  - rewrite (handleCreateRoom_unfold E roomName clientOptions h w Hh). cbn zeta.
    destruct (klass_onCreate (klass h)).
    + pose proof (Hcreate
        (room_new roomName h clientOptions (processId w) (generateId_nth E (generated w)))
        (merge ∅ clientOptions (options h)) (set_generated (S (generated w)) w)) as Hk.
      destruct (room_onCreate E _ _ _) as [[r1 | e] w1]; cbn [snd] in *.
      * apply (table_subscribed_insert w1 _ (room_created r1));
          [reflexivity | | | by apply Hk].
        -- cbn. apply elem_of_union. left. by apply elem_of_singleton.
        -- cbn. apply union_subseteq_r.
      * by apply Hk.
    + cbn [snd].
      apply (table_subscribed_insert w _
               (room_created (room_new roomName h clientOptions (processId w)
                                (generateId_nth E (generated w)))));
        [reflexivity | | | exact Hinv].
      * cbn. apply elem_of_union. left. by apply elem_of_singleton.
      * cbn. apply union_subseteq_r.
  - by rewrite (handleCreateRoom_no_handler E roomName clientOptions w Hh).
Qed.

Lemma step_keeps (E : Environment) (w w' : World) :
  onCreate_keeps E → step E w w' → table_subscribed w → table_subscribed w'.
Proof.
  intros Hcreate Hstep Hinv. destruct Hstep.
  - by apply handleCreateRoom_keeps.
  - by eapply on_event_keeps.
  - exact Hinv.
  - exact Hinv.
Qed.

(** C1, as the code has it.  [lockRoom] deletes the presence key named by
    the id of the room and then emits [lock] on the handler registered under
    the name of the room; when there is none it throws a [TypeError] after
    the deletion and emits nothing.  It leaves the local table and the
    subscriptions as they are: the events [lock] and [unlock] do not change
    the subscriptions, and [disposeRoom] of a room of a registered type is
    what unsubscribes from [$<roomId>].  In every state that [setup],
    [handleCreateRoom], the events of the rooms of the table and the
    registry of room types lead to, every room of the local table, locked or
    not, has this process subscribed on its channel [$<roomId>]. *)
Theorem locked_room_keeps_subscription (E : Environment) :
  (∀ (roomName : string) (r : Room) (w : World),
     lockRoom roomName r w =
       let w1 := set_presence_keys (delete (room_roomId r)) w in
       match registry_get (handlers w) (room_roomName r) with
       | registered _ =>
           (Ok tt, add_effect (Emit (room_roomName r) "lock" (room_roomId r)) w1)
       | inherited => (Throw (Failure "handlers[...].emit is not a function"), w1)
       | unregistered => (Throw (Failure "Cannot read property 'emit' of undefined"), w1)
       end) ∧
  (∀ (roomName : string) (r : Room) (w : World),
     rooms (lockRoom roomName r w).2 = rooms w ∧
     presence_channels (lockRoom roomName r w).2 = presence_channels w ∧
     presence_keys (lockRoom roomName r w).2 = delete (room_roomId r) (presence_keys w)) ∧
  (∀ (ev : RoomEvent) (r : Room) (w : World),
     ev ≠ ev_dispose → presence_channels (on_event ev r w).2 = presence_channels w) ∧
  (∀ (roomName : string) (r : Room) (h : RegisteredHandler) (w : World),
     handlers w !! roomName = Some h →
     presence_channels (disposeRoom roomName r w).2 =
       presence_channels w ∖ {[getRoomChannel (room_roomId r)]}) ∧
  (onCreate_keeps E →
   ∀ w, reachable E w →
        ∀ roomId r, rooms w !! roomId = Some r →
                    getRoomChannel roomId ∈ presence_channels w).
Proof.
  split; [apply lockRoom_unfold |]. split; [apply lockRoom_frame |].
  split; [apply on_event_channels |]. split; [apply disposeRoom_unsubscribes |].
  intros Hcreate w Hreach.
  assert (Hinv : table_subscribed w).
  { induction Hreach as [pid n | w w' _ IH Hstep].
    - intros roomId r Hr. cbn in Hr. by rewrite lookup_empty in Hr.
    - by eapply step_keeps. }
  intros roomId r Hr. by destruct (Hinv roomId r Hr).
Qed.

Lemma sample_onCreate_keeps : onCreate_keeps Sample.env.
Proof. intros r o w Hinv. exact Hinv. Qed.

Lemma sample_started_reachable : reachable Sample.env Sample.started.
Proof.
  unfold Sample.started.
  eapply reachable_step; [| by apply step_define].
  eapply reachable_step; [| by apply step_define].
  apply (reachable_setup Sample.env "p1" 0).
Qed.

Lemma sample_one_room_reachable : reachable Sample.env Sample.one_room.
Proof.
  unfold Sample.one_room.
  eapply reachable_step; [exact sample_started_reachable | apply step_create].
Qed.

Lemma sample_one_room_locked_reachable : reachable Sample.env Sample.one_room_locked.
Proof.
  unfold Sample.one_room_locked.
  destruct (rooms Sample.one_room !! "id0") as [r |] eqn:Hr.
  - eapply reachable_step; [exact sample_one_room_reachable |].
    by eapply step_event.
  - exact sample_one_room_reachable.
Qed.

Lemma locked_room_keeps_subscription_witness :
  onCreate_keeps Sample.env ∧
  reachable Sample.env Sample.one_room_locked ∧
  getRoomChannel "id0" ∈ presence_channels Sample.one_room_locked.
Proof.
  split; [exact sample_onCreate_keeps |].
  split; [exact sample_one_room_locked_reachable |].
  destruct (rooms Sample.one_room_locked !! "id0") as [r |] eqn:Hr.
  - exact (proj2 (proj2 (proj2 (proj2 (locked_room_keeps_subscription Sample.env))))
             sample_onCreate_keeps Sample.one_room_locked sample_one_room_locked_reachable
             "id0" r Hr).
  - vm_compute in Hr. discriminate Hr.
Defined.

(** C1, as the claim has it, fails: after the room [id0] of the sample
    process has locked itself, it is in the local table with its listing
    locked, and the process is still subscribed on [$id0]. *)
Lemma locked_room_is_subscribed :
  ¬ (∀ E w, reachable E w →
       ∀ roomId r, rooms w !! roomId = Some r → room_locked r = true →
                   getRoomChannel roomId ∉ presence_channels w).
Proof.
  intros Hclaim.
  destruct (rooms Sample.one_room_locked !! "id0") as [r |] eqn:Hr.
  - apply (Hclaim Sample.env Sample.one_room_locked sample_one_room_locked_reachable
             "id0" r Hr).
    + vm_compute in Hr. inversion Hr. vm_compute. reflexivity.
    + refine (bool_decide_unpack _ _). vm_compute. exact I.
  - vm_compute in Hr. discriminate Hr.
Qed.

(** Which of two process ids with the same count is the target depends on
    the sort alone: both insertion sorts order any array by count, and on the
    hash with [A] and [B] at one room each, one ends with [B] first and the
    other with [A]. *)
Example createRoom_tie_depends_on_sort :
  sorts (Array_sort Sample.env) ∧
  sorts (Array_sort Sample.env_shift) ∧
  processIdWithFewerRooms Sample.env [("A", 1%Z); ("B", 1%Z)] "A" = "B" ∧
  processIdWithFewerRooms Sample.env_shift [("A", 1%Z); ("B", 1%Z)] "A" = "A".
Proof.
  split; [exact insertion_sort_sorts |]. split; [exact insertion_sort_shift_sorts |].
  split; vm_compute; reflexivity.
Qed.

(** ** Setup *)

(** X1.  [setup] takes the process id, clears the shutdown flag, subscribes
    the process on its own channel and sets its room count to zero; the
    counts of the other processes, the registered room types and the local
    table stay as they were. *)
Theorem setup_state (pid : string) (w : World) :
  let w' := (setup pid w).2 in
  (setup pid w).1 = Ok tt ∧
  processId w' = pid ∧
  isGracefullyShuttingDown w' = false ∧
  getProcessChannel pid ∈ presence_channels w' ∧
  roomCount w' pid = 0%Z ∧
  (∀ p, p ≠ pid → roomCount w' p = roomCount w p) ∧
  handlers w' = handlers w ∧
  rooms w' = rooms w.
Proof.
  cbn zeta. unfold setup, subscribeIPC, presence.subscribe, presence.hset. unfold_monad. cbn.
  split; [reflexivity |]. split; [reflexivity |]. split; [reflexivity |].
  split; [apply elem_of_union; left; by apply elem_of_singleton |].
  split.
  { unfold roomCount. cbn. rewrite lookup_insert_eq. cbn. by rewrite hash_get_set_eq. }
  split; [| done].
  intros p Hp. unfold roomCount. cbn. rewrite lookup_insert_eq. cbn.
  by rewrite hash_get_set_ne.
Qed.

(** ** Creating a room *)

Lemma driver_save_In (l : JsObject) (w : World) :
  In l (driver_rooms (driver.save l w).2).
Proof.
  unfold driver.save. unfold_monad. cbn.
  destruct (existsb (driver.sameRoom l) (driver_rooms w)) eqn:Hex.
  - apply existsb_exists in Hex as (x & Hx & Hsame).
    apply in_map_iff. exists x. by rewrite Hsame.
  - apply in_or_app. right. by left.
Qed.

Lemma handleCreateRoom_finish_spec (roomName : string) (r : Room) (w : World) :
  let w' := handleCreateRoom_finish roomName r w in
  let roomId := room_roomId r in
  rooms w' !! roomId = Some (room_created r) ∧
  getRoomChannel roomId ∈ presence_channels w' ∧
  In (room_listing (room_created r)) (driver_rooms w') ∧
  head (effects w') = Some (Emit roomName "create" roomId).
Proof.
  cbn zeta. unfold handleCreateRoom_finish. split; [| split; [| split]].
  - cbn. by rewrite lookup_insert_eq.
  - cbn. apply elem_of_union. left. by apply elem_of_singleton.
  - change (driver_rooms (add_effect ?e ?x)) with (driver_rooms x). apply driver_save_In.
  - reflexivity.
Qed.

(** X2.  When [handleCreateRoom] returns a listing, a room whose listing it
    is stands in the local table under its own id, in the state [CREATED];
    the listing carries the id and [maxClients] of the room and is in the
    driver, the room's channel is subscribed, and the last thing done is the
    [create] event of the handler. *)
Theorem handleCreateRoom_registers (E : Environment) (roomName : string)
    (clientOptions listing : JsObject) (w w' : World) :
  handleCreateRoom E roomName clientOptions w = (Ok listing, w') →
  ∃ r,
    rooms w' !! room_roomId r = Some r ∧
    room_listing r = listing ∧
    room_internalState r = CREATED ∧
    field listing "roomId" = JStr (room_roomId r) ∧
    field listing "maxClients" = room_maxClients r ∧
    getRoomChannel (room_roomId r) ∈ presence_channels w' ∧
    In listing (driver_rooms w') ∧
    head (effects w') = Some (Emit roomName "create" (room_roomId r)).
Proof.
  intros Hrun.
  destruct (handlers w !! roomName) as [h |] eqn:Hh;
    [| by rewrite (handleCreateRoom_no_handler E roomName clientOptions w Hh) in Hrun].
  rewrite (handleCreateRoom_unfold E roomName clientOptions h w Hh) in Hrun.
  cbn zeta in Hrun.
  assert (Hfin : ∀ r0 w0, (Ok (room_listing (room_created r0)),
                           handleCreateRoom_finish roomName r0 w0) = (Ok listing, w') →
           ∃ r, rooms w' !! room_roomId r = Some r ∧ room_listing r = listing ∧
                room_internalState r = CREATED ∧
                field listing "roomId" = JStr (room_roomId r) ∧
                field listing "maxClients" = room_maxClients r ∧
                getRoomChannel (room_roomId r) ∈ presence_channels w' ∧
                In listing (driver_rooms w') ∧
                head (effects w') = Some (Emit roomName "create" (room_roomId r))).
  { intros r0 w0 Heq. inversion Heq as [[Hl Hw]]. clear Heq.
    destruct (handleCreateRoom_finish_spec roomName r0 w0) as (Hr & Hc & Hd & He).
    exists (room_created r0). cbn [room_created room_roomId room_listing
                                   room_internalState room_maxClients].
    split; [exact Hr |]. split; [reflexivity |]. split; [reflexivity |].
    split.
    { unfold field. rewrite lookup_insert_ne by done. by rewrite lookup_insert_eq. }
    split; [unfold field; by rewrite lookup_insert_eq |].
    split; [exact Hc |]. split; [exact Hd | exact He]. }
  destruct (klass_onCreate (klass h)).
  - destruct (room_onCreate E _ _ _) as [[r1 | e] w1]; [| discriminate Hrun].
    by eapply Hfin.
  - by eapply Hfin.
Qed.

Lemma handleCreateRoom_registers_witness :
  ∃ listing w' r,
    handleCreateRoom Sample.env "chat" ∅ Sample.started = (Ok listing, w') ∧
    rooms w' !! room_roomId r = Some r ∧
    room_listing r = listing.
Proof.
  destruct (handleCreateRoom Sample.env "chat" ∅ Sample.started) as [[listing | e] w']
    eqn:Hrun.
  - destruct (handleCreateRoom_registers Sample.env "chat" ∅ listing Sample.started w' Hrun)
      as (r & Hr & Hl & _).
    exists listing, w', r. split; [reflexivity |]. split; [exact Hr | exact Hl].
  - vm_compute in Hrun. discriminate Hrun.
Defined.

(** ** Disposing a room *)

Lemma driver_remove_spec (l : JsObject) (w : World) (x : JsObject) :
  In x (driver_rooms (driver.remove l w).2) ↔
  In x (driver_rooms w) ∧ field x "roomId" ≠ field l "roomId".
Proof.
  unfold driver.remove. unfold_monad. cbn. rewrite filter_In.
  unfold driver.sameRoom. rewrite negb_true_iff, bool_decide_eq_false.
  split; intros [H1 H2]; (split; [done | congruence]).
Qed.

Lemma disposeRoom_with_handler (roomName : string) (r : Room) (h : RegisteredHandler)
    (w : World) :
  handlers w !! roomName = Some h →
  let w' := (disposeRoom roomName r w).2 in
  (disposeRoom roomName r w).1 = Ok tt ∧
  handlers w' = handlers w ∧
  rooms w' = delete (room_roomId r) (rooms w) ∧
  presence_channels w' = presence_channels w ∖ {[getRoomChannel (room_roomId r)]} ∧
  (∀ x, In x (driver_rooms w') → field x "roomId" ≠ field (room_listing r) "roomId").
Proof.
  intros Hh. cbn zeta.
  unfold disposeRoom, clearRoomReferences, emit, presence.del, presence.unsubscribe.
  unfold_monad. cbn.
  destruct (isGracefullyShuttingDown w); cbn;
    rewrite (registry_get_registered _ _ _ Hh); cbn;
    (split; [reflexivity |]; split; [reflexivity |]; split; [reflexivity |];
     split; [reflexivity |]);
    intros x Hx; by apply (driver_remove_spec (room_listing r) w x) in Hx as [_ ?].
Qed.

(** X3.  Disposing a room whose type is registered returns; the room leaves
    the local table, its channel is unsubscribed, its key and the
    concurrency key of its type are deleted, the listings with its id leave
    the driver and no other does, and the last thing done is the [dispose]
    event. *)
Theorem disposeRoom_clears (roomName : string) (r : Room) (h : RegisteredHandler)
    (w : World) :
  handlers w !! roomName = Some h →
  let w' := (disposeRoom roomName r w).2 in
  (disposeRoom roomName r w).1 = Ok tt ∧
  rooms w' = delete (room_roomId r) (rooms w) ∧
  presence_channels w' = presence_channels w ∖ {[getRoomChannel (room_roomId r)]} ∧
  presence_keys w' =
    delete (room_roomId r) (delete (getHandlerConcurrencyKey roomName) (presence_keys w)) ∧
  (∀ x, In x (driver_rooms w') ↔
        In x (driver_rooms w) ∧ field x "roomId" ≠ field (room_listing r) "roomId") ∧
  head (effects w') = Some (Emit roomName "dispose" (room_roomId r)).
Proof.
  intros Hh. cbn zeta.
  unfold disposeRoom, clearRoomReferences, emit, presence.del, presence.unsubscribe.
  unfold_monad. cbn.
  destruct (isGracefullyShuttingDown w); cbn;
    rewrite (registry_get_registered _ _ _ Hh); cbn;
    (split; [reflexivity |]; split; [reflexivity |]; split; [reflexivity |];
     split; [reflexivity |]; split; [| reflexivity]);
    intros x; apply (driver_remove_spec (room_listing r) w x).
Qed.

Lemma disposeRoom_clears_witness :
  handlers Sample.one_room !! "chat" = Some Sample.chat ∧
  rooms (disposeRoom "chat" SampleServer.room0 Sample.one_room).2 =
    delete "id0" (rooms Sample.one_room).
Proof.
  assert (Hh : handlers Sample.one_room !! "chat" = Some Sample.chat)
    by (vm_compute; reflexivity).
  split; [exact Hh |].
  exact (proj1 (proj2 (disposeRoom_clears "chat" SampleServer.room0 Sample.chat
                         Sample.one_room Hh))).
Defined.

(** ** Events of a room whose type was removed *)

(** X4.  Once the type of a room is no longer registered, the listeners
    [lockRoom], [unlockRoom], [onClientJoinRoom], [onClientLeaveRoom] and
    [disposeRoom] of the room all fail on [handlers[roomName].emit]: on the
    read of [emit] from [undefined], or on the call of an [emit] that is not
    there when the name is one that the registry inherits.  [disposeRoom]
    fails half way: the room count was decremented and the listing removed,
    and the room is still in the local table, subscribed, with its keys. *)
Theorem events_without_handler (roomName : string) (r : Room) (client : Any) (w : World) :
  handlers w !! roomName = None →
  room_roomName r = roomName →
  let TypeError :=
    if bool_decide (roomName ∈ Object_prototype)
    then Failure "handlers[...].emit is not a function"
    else Failure "Cannot read property 'emit' of undefined" in
  (lockRoom roomName r w).1 = Throw TypeError ∧
  (unlockRoom roomName r w).1 = Throw TypeError ∧
  (onClientJoinRoom r client w).1 = Throw TypeError ∧
  (onClientLeaveRoom r client w).1 = Throw TypeError ∧
  let w' := (disposeRoom roomName r w).2 in
  (disposeRoom roomName r w).1 = Throw TypeError ∧
  rooms w' = rooms w ∧
  presence_channels w' = presence_channels w ∧
  presence_keys w' = presence_keys w ∧
  (isGracefullyShuttingDown w = false →
   roomCount w' (processId w) = (roomCount w (processId w) - 1)%Z) ∧
  (∀ x, In x (driver_rooms w') → field x "roomId" ≠ field (room_listing r) "roomId").
Proof.
  intros Hh Hname. cbn zeta.
  unfold lockRoom, unlockRoom, onClientJoinRoom, onClientLeaveRoom, disposeRoom,
    createRoomReferences, clearRoomReferences, emit, presence.del.
  unfold_monad. cbn. rewrite Hname, (registry_get_absent _ _ Hh).
  assert (Hcase : ∀ w0 : World,
            match (if bool_decide (roomName ∈ Object_prototype)
                   then inherited else unregistered) with
            | registered _ => (Ok tt, w0)
            | inherited => (Throw (Failure "handlers[...].emit is not a function"), w0)
            | unregistered =>
                (Throw (Failure "Cannot read property 'emit' of undefined"), w0)
            end =
            (Throw (if bool_decide (roomName ∈ Object_prototype)
                    then Failure "handlers[...].emit is not a function"
                    else Failure "Cannot read property 'emit' of undefined"), w0)).
  { intros w0. by destruct (bool_decide _). }
  split; [by destruct (bool_decide _) |]. split; [by destruct (bool_decide _) |].
  split; [by destruct (bool_decide _) |]. split; [by destruct (bool_decide _) |].
  destruct (isGracefullyShuttingDown w) eqn:Hflag; cbn;
    rewrite (registry_get_absent _ _ Hh);
    (split; [by destruct (bool_decide _) |]; split; [by destruct (bool_decide _) |];
     split; [by destruct (bool_decide _) |]; split; [by destruct (bool_decide _) |]; split).
  - discriminate.
  - intros x Hx.
    assert (Hx' : In x (driver_rooms (driver.remove (room_listing r) w).2))
      by (by destruct (bool_decide _)).
    by apply (driver_remove_spec (room_listing r) w x) in Hx' as [_ ?].
  - intros _.
    replace (roomCount w (processId w) - 1)%Z with (roomCount w (processId w) + -1)%Z by lia.
    rewrite <- (roomCount_hincrby (processId w) (-1) w).
    by destruct (bool_decide _).
  - intros x Hx.
    assert (Hx' : In x (driver_rooms (driver.remove (room_listing r) w).2))
      by (by destruct (bool_decide _)).
    by apply (driver_remove_spec (room_listing r) w x) in Hx' as [_ ?].
Qed.

Lemma events_without_handler_witness :
  handlers Sample.started !! "poker" = None ∧
  (lockRoom "poker" SampleServer.poker_room Sample.started).1 =
    Throw (Failure "Cannot read property 'emit' of undefined").
Proof.
  assert (Hh : handlers Sample.started !! "poker" = None) by (vm_compute; reflexivity).
  split; [exact Hh |].
  exact (proj1 (events_without_handler "poker" SampleServer.poker_room (AVal JUndefined)
                  Sample.started Hh eq_refl)).
Defined.

(** ** Unlocking *)

(** X5.  [unlockRoom] on a room that was disposed puts it back into the
    local table, and does not subscribe its channel again. *)
Theorem unlock_after_dispose (roomName : string) (r : Room) (h : RegisteredHandler)
    (w : World) :
  handlers w !! roomName = Some h →
  room_roomName r = roomName →
  let w1 := (disposeRoom roomName r w).2 in
  let w2 := (unlockRoom roomName r w1).2 in
  rooms w1 !! room_roomId r = None ∧
  (unlockRoom roomName r w1).1 = Ok tt ∧
  rooms w2 !! room_roomId r = Some r ∧
  getRoomChannel (room_roomId r) ∉ presence_channels w2.
Proof.
  intros Hh Hname. cbn zeta.
  destruct (disposeRoom_with_handler roomName r h w Hh)
    as (_ & Hhandlers & Hrooms & Hchan & _).
  cbn zeta in Hhandlers, Hrooms, Hchan.
  assert (Hh1 : handlers (disposeRoom roomName r w).2 !! roomName = Some h)
    by (rewrite Hhandlers; exact Hh).
  clear Hhandlers.
  split; [rewrite Hrooms; apply lookup_delete_eq |].
  generalize dependent (disposeRoom roomName r w).2. intros w1 Hrooms Hchan Hh1.
  unfold unlockRoom, createRoomReferences, emit. unfold_monad. cbn.
  rewrite Hname, (registry_get_registered _ _ _ Hh1). cbn.
  split; [reflexivity |]. split; [by rewrite lookup_insert_eq |].
  rewrite Hchan. intros Hin. apply elem_of_difference in Hin as [_ Hnot].
  apply Hnot. by apply elem_of_singleton.
Qed.

Lemma unlock_after_dispose_witness :
  handlers Sample.one_room !! "chat" = Some Sample.chat ∧
  rooms (unlockRoom "chat" SampleServer.room0
           (disposeRoom "chat" SampleServer.room0 Sample.one_room).2).2 !! "id0" =
    Some SampleServer.room0.
Proof.
  assert (Hh : handlers Sample.one_room !! "chat" = Some Sample.chat)
    by (vm_compute; reflexivity).
  split; [exact Hh |].
  exact (proj1 (proj2 (proj2
           (unlock_after_dispose "chat" SampleServer.room0 Sample.chat Sample.one_room Hh
              eq_refl)))).
Defined.

(** ** Finding a room leaves the state alone *)

(** X6.  [findOneRoomAvailable] changes nothing but the concurrency key of
    the room type, which ends at the value it had (zero when it was absent),
    and it waits once, for a hundred milliseconds for each call under way
    and at most for [REMOTE_ROOM_SHORT_TIMEOUT]: handlers, local table,
    driver, room counts, subscriptions and ids are as before. *)
Theorem findOneRoomAvailable_frame (E : Environment) (roomName : string)
    (options : JsObject) (w : World) :
  let w' := (findOneRoomAvailable E roomName options w).2 in
  let concurrency := concurrency_counter roomName w in
  handlers w' = handlers w ∧
  rooms w' = rooms w ∧
  driver_rooms w' = driver_rooms w ∧
  presence_hash w' = presence_hash w ∧
  presence_channels w' = presence_channels w ∧
  generated w' = generated w ∧
  presence_keys w' = <[getHandlerConcurrencyKey roomName := concurrency]> (presence_keys w) ∧
  effects w' =
    SetTimeout (Z.min (concurrency * 100) (REMOTE_ROOM_SHORT_TIMEOUT E)) :: effects w.
Proof.
  cbn zeta. rewrite findOneRoomAvailable_unfold. cbn zeta. cbn [snd].
  rewrite executor_unfold. cbn.
  repeat (split; [reflexivity |]). split; [| reflexivity].
  rewrite lookup_insert_eq. cbn. rewrite insert_insert_eq. f_equal. lia.
Qed.

(** ** A room type that is not defined *)

(** X8.  [joinOrCreate] for a name without a handler fails at its first
    attempt, at the lookup of the handler in [findOneRoomAvailable]: with
    [ERR_MATCHMAKE_NO_HANDLER], or with a [TypeError] when the name is one
    that the registry inherits from [Object.prototype]; no room is created,
    no id is generated, and the concurrency counter is back at its value. *)
Theorem joinOrCreate_undefined (E : Environment) (roomName : string)
    (options : JsObject) (w : World) :
  handlers w !! roomName = None →
  let out := joinOrCreate E roomName options w in
  out.1 = Throw (if bool_decide (roomName ∈ Object_prototype)
                 then Failure "handler.getFilterOptions is not a function"
                 else MatchMakeError (dquote +:+ roomName +:+ dquote +:+ " not defined")
                        (Some ERR_MATCHMAKE_NO_HANDLER)) ∧
  out.2 = (findOneRoomAvailable E roomName options w).2 ∧
  rooms out.2 = rooms w ∧
  driver_rooms out.2 = driver_rooms w ∧
  generated out.2 = generated w ∧
  concurrency_counter roomName out.2 = concurrency_counter roomName w.
Proof.
  intros Hh. cbn zeta.
  pose proof (findOneRoomAvailable_no_handler E roomName options w Hh) as Hfind.
  assert (Hrun : joinOrCreate E roomName options w =
            (Throw (if bool_decide (roomName ∈ Object_prototype)
                    then Failure "handler.getFilterOptions is not a function"
                    else MatchMakeError (dquote +:+ roomName +:+ dquote +:+ " not defined")
                           (Some ERR_MATCHMAKE_NO_HANDLER)),
             (findOneRoomAvailable E roomName options w).2)).
  { unfold joinOrCreate. cbn [retry]. rewrite joinOrCreate_attempt_unfold.
    destruct (findOneRoomAvailable E roomName options w) as [r w1]. cbn [fst snd] in *.
    rewrite Hfind. by destruct (bool_decide _). }
  rewrite Hrun. cbn [fst snd]. split; [reflexivity |]. split; [reflexivity |].
  rewrite findOneRoomAvailable_unfold. cbn zeta. cbn [snd].
  rewrite executor_unfold. cbn.
  split; [reflexivity |]. split; [reflexivity |]. split; [reflexivity |].
  unfold concurrency_counter. cbn. rewrite lookup_insert_eq. cbn.
  rewrite lookup_insert_eq. cbn. lia.
Qed.

Lemma joinOrCreate_undefined_witness :
  handlers Sample.started !! "toString" = None ∧
  (joinOrCreate Sample.env "toString" ∅ Sample.started).1 =
    Throw (Failure "handler.getFilterOptions is not a function") ∧
  handlers Sample.started !! "poker" = None ∧
  (joinOrCreate Sample.env "poker" ∅ Sample.started).1 =
    Throw (MatchMakeError (dquote +:+ "poker" +:+ dquote +:+ " not defined")
             (Some ERR_MATCHMAKE_NO_HANDLER)).
Proof.
  assert (Hh : handlers Sample.started !! "toString" = None) by (vm_compute; reflexivity).
  assert (Hp : handlers Sample.started !! "poker" = None) by (vm_compute; reflexivity).
  split; [exact Hh |]. split.
  { exact (proj1 (joinOrCreate_undefined Sample.env "toString" ∅ Sample.started Hh)). }
  split; [exact Hp |].
  exact (proj1 (joinOrCreate_undefined Sample.env "poker" ∅ Sample.started Hp)).
Defined.

(** ** Joining *)

Lemma join_attempt_unfold (E : Environment) (roomName : string) (options : JsObject)
    (w : World) :
  join_attempt E roomName options w =
    match findOneRoomAvailable E roomName options w with
    | (Ok (Some listing), w1) => reserveSeatFor E listing options w1
    | (Ok None, w1) =>
        (Throw (MatchMakeError "no rooms found with provided criteria"
                  (Some ERR_MATCHMAKE_INVALID_CRITERIA)), w1)
    | (Throw e, w1) => (Throw e, w1)
    end.
Proof.
  unfold join_attempt. unfold_monad.
  destruct (findOneRoomAvailable E roomName options w) as [[[l |] | e] w1]; reflexivity.
Qed.

(** X9.  [join] never creates a room: an attempt of it reserves a seat in
    the room that [findOneRoomAvailable] found, and fails when none was
    found.  When no room is found and the error is not one that is retried,
    [join] fails with [ERR_MATCHMAKE_INVALID_CRITERIA] after one attempt and
    leaves the local table, the driver and the generated ids as they
    were. *)
Theorem join_never_creates (E : Environment) (maxRetries : nat)
    (errorWhiteList : Thrown → bool) (roomName : string) (options : JsObject) (w : World) :
  (findOneRoomAvailable E roomName options w).1 = Ok None →
  errorWhiteList (MatchMakeError "no rooms found with provided criteria"
                    (Some ERR_MATCHMAKE_INVALID_CRITERIA)) = false →
  let out := join E maxRetries errorWhiteList roomName options w in
  (∀ w0, join_attempt E roomName options w0 =
     match findOneRoomAvailable E roomName options w0 with
     | (Ok (Some listing), w1) => reserveSeatFor E listing options w1
     | (Ok None, w1) =>
         (Throw (MatchMakeError "no rooms found with provided criteria"
                   (Some ERR_MATCHMAKE_INVALID_CRITERIA)), w1)
     | (Throw e, w1) => (Throw e, w1)
     end) ∧
  out.1 = Throw (MatchMakeError "no rooms found with provided criteria"
                   (Some ERR_MATCHMAKE_INVALID_CRITERIA)) ∧
  out.2 = (findOneRoomAvailable E roomName options w).2 ∧
  rooms out.2 = rooms w ∧
  driver_rooms out.2 = driver_rooms w ∧
  generated out.2 = generated w.
Proof.
  intros Hnone Hwl. cbn zeta. split; [apply join_attempt_unfold |].
  assert (Hatt : join_attempt E roomName options w =
            (Throw (MatchMakeError "no rooms found with provided criteria"
                      (Some ERR_MATCHMAKE_INVALID_CRITERIA)),
             (findOneRoomAvailable E roomName options w).2)).
  { rewrite join_attempt_unfold.
    destruct (findOneRoomAvailable E roomName options w) as [r w1].
    cbn [fst snd] in *. by subst r. }
  assert (Hrun : join E maxRetries errorWhiteList roomName options w =
            (Throw (MatchMakeError "no rooms found with provided criteria"
                      (Some ERR_MATCHMAKE_INVALID_CRITERIA)),
             (findOneRoomAvailable E roomName options w).2)).
  { unfold join. destruct maxRetries as [| [| m]]; cbn [retry]; rewrite Hatt;
      [reflexivity | reflexivity |]. by rewrite Hwl. }
  rewrite Hrun. cbn [fst snd]. split; [reflexivity |]. split; [reflexivity |].
  rewrite findOneRoomAvailable_unfold. cbn zeta. cbn [snd].
  rewrite executor_unfold. cbn. done.
Qed.

Lemma join_never_creates_witness :
  (findOneRoomAvailable Sample.env "chat" ∅ Sample.started).1 = Ok None ∧
  (join Sample.env 3 (λ _, false) "chat" ∅ Sample.started).1 =
    Throw (MatchMakeError "no rooms found with provided criteria"
             (Some ERR_MATCHMAKE_INVALID_CRITERIA)).
Proof.
  assert (Hnone : (findOneRoomAvailable Sample.env "chat" ∅ Sample.started).1 = Ok None)
    by (vm_compute; reflexivity).
  split; [exact Hnone |].
  exact (proj1 (proj2 (join_never_creates Sample.env 3 (λ _, false) "chat" ∅ Sample.started
                         Hnone eq_refl))).
Defined.

(** ** Stale rooms *)

Lemma filter_filter_andb {A} (f g : A → bool) (l : list A) :
  List.filter f (List.filter g l) = List.filter (λ x, g x && f x) l.
Proof.
  induction l as [| x t IH]; cbn; [done |].
  destruct (g x); cbn; [destruct (f x) |]; by rewrite IH.
Qed.

Lemma remoteRoomCall_remote_throws (E : Environment) (roomId method : string)
    (args : option (list Any)) (rejectionTimeout : option Z) (w w' : World) (e : Thrown) :
  rooms w !! roomId = None →
  requestFromIPC E (getRoomChannel roomId) (Some method) args None w = (Throw e, w') →
  ∃ e', remoteRoomCall E roomId method args rejectionTimeout w = (Throw e', w').
Proof.
  intros Hroom Hipc. unfold remoteRoomCall. unfold_monad.
  rewrite Hroom. cbn beta iota. rewrite Hipc. by eexists.
Qed.

Lemma cleanupStaleRooms_probe_spec (E : Environment) (name : string)
    (listing : JsObject) (w : World) :
  ipc_dead E → roomId_is_property E →
  cleanupStaleRooms_probe E name listing w =
    (Ok tt,
     if not_local w listing
     then set_presence_keys (delete (toString (field listing "roomId")))
            (set_driver_rooms (List.filter (λ x, negb (driver.sameRoom listing x))) w)
     else w).
Proof.
  intros Hdead Hprop. unfold cleanupStaleRooms_probe, not_local.
  unfold try_catch, bind at 1.
  destruct (rooms w !! toString (field listing "roomId")) as [r |] eqn:Hr.
  - rewrite (remoteRoomCall_local E _ "roomId" None None w r Hr).
    rewrite Hprop. reflexivity.
  - destruct (Hdead (getRoomChannel (toString (field listing "roomId"))) (Some "roomId")
                None None w) as [e He].
    destruct (remoteRoomCall_remote_throws E _ "roomId" None None w w e Hr He) as [e' ->].
    reflexivity.
Qed.

Lemma cleanupStaleRooms_forEach (E : Environment) (name : string) (ls : list JsObject) :
  ipc_dead E → roomId_is_property E →
  ∀ w, ∃ w',
    forEach (cleanupStaleRooms_probe E name) ls w = (Ok tt, w') ∧
    rooms w' = rooms w ∧ handlers w' = handlers w ∧
    presence_channels w' = presence_channels w ∧
    presence_hash w' = presence_hash w ∧
    (∀ k, presence_keys w !! k = None → presence_keys w' !! k = None) ∧
    driver_rooms w' =
      List.filter
        (λ x, negb (existsb (λ s, driver.sameRoom s x) (List.filter (not_local w) ls)))
        (driver_rooms w).
Proof.
  intros Hdead Hprop. induction ls as [| l ls IH]; intros w.
  - exists w. cbn. repeat (split; [done |]).
    induction (driver_rooms w) as [| x t IHt]; cbn; [done | by rewrite <- IHt].
  - cbn [forEach]. unfold bind at 1.
    rewrite (cleanupStaleRooms_probe_spec E name l w Hdead Hprop).
    cbn [List.filter]. destruct (not_local w l) eqn:Hl.
    + destruct (IH (set_presence_keys (delete (toString (field l "roomId")))
                      (set_driver_rooms (List.filter (λ x, negb (driver.sameRoom l x))) w)))
        as (w' & Hrun & Hrooms & Hhandlers & Hchan & Hhash & Hkeys & Hdriver).
      exists w'. split; [exact Hrun |]. cbn in *.
      split; [done |]. split; [done |]. split; [done |]. split; [done |]. split.
      { intros k Hk. apply Hkeys.
        destruct (decide (toString (field l "roomId") = k)) as [<- | Hne];
          [apply lookup_delete_eq | by rewrite lookup_delete_ne]. }
      rewrite Hdriver. rewrite filter_filter_andb. apply filter_ext.
      intros x. cbn. by rewrite negb_orb.
    + destruct (IH w) as (w' & Hrun & Hrest). by exists w'.
Qed.

Lemma matches_name (name : string) (l : JsObject) :
  driver.matches {["name" := JStr name]} l = true ↔ field l "name" = JStr name.
Proof.
  unfold driver.matches. rewrite bool_decide_eq_true.
  apply (map_Forall_singleton (λ k v, field l k = v)).
Qed.

Lemma sample_ipc_dead : ipc_dead Sample.env.
Proof. intros ch m a t w. by eexists. Qed.

Lemma sample_roomId_is_property : roomId_is_property Sample.env.
Proof. intros r. reflexivity. Qed.

(** X10.  When no other process answers, [cleanupStaleRooms] removes from
    the driver the listings of the room type whose room is not in the local
    table, and every listing with the id of one of them; the listings of
    the type that remain are those of local rooms.  The concurrency key of
    the type is deleted; the local table, the handlers and the
    subscriptions are not touched. *)
Theorem cleanupStaleRooms_removes_stale (E : Environment) (name : string) (w : World) :
  ipc_dead E → roomId_is_property E →
  let w' := (cleanupStaleRooms E name w).2 in
  let stale := List.filter (is_remote_of name w) (driver_rooms w) in
  (cleanupStaleRooms E name w).1 = Ok tt ∧
  driver_rooms w' =
    List.filter (λ x, negb (existsb (λ s, driver.sameRoom s x) stale)) (driver_rooms w) ∧
  (∀ x, In x (driver_rooms w') → field x "name" = JStr name →
        is_Some (rooms w !! toString (field x "roomId"))) ∧
  presence_keys w' !! getHandlerConcurrencyKey name = None ∧
  rooms w' = rooms w ∧
  handlers w' = handlers w ∧
  presence_channels w' = presence_channels w.
Proof.
  intros Hdead Hprop. cbn zeta.
  replace (cleanupStaleRooms E name w) with
    (forEach (cleanupStaleRooms_probe E name)
       (List.filter (driver.matches {["name" := JStr name]}) (driver_rooms w))
       (set_presence_keys (delete (getHandlerConcurrencyKey name)) w)) by reflexivity.
  destruct (cleanupStaleRooms_forEach E name
              (List.filter (driver.matches {["name" := JStr name]}) (driver_rooms w))
              Hdead Hprop
              (set_presence_keys (delete (getHandlerConcurrencyKey name)) w))
    as (w' & Hrun & Hrooms & Hhandlers & Hchan & Hhash & Hkeys & Hdriver).
  rewrite Hrun. cbn [fst snd]. cbn in Hrooms, Hhandlers, Hchan, Hkeys, Hdriver.
  assert (Hstale : List.filter
                     (not_local (set_presence_keys (delete (getHandlerConcurrencyKey name)) w))
                     (List.filter (driver.matches {["name" := JStr name]}) (driver_rooms w)) =
                   List.filter (is_remote_of name w) (driver_rooms w)).
  { rewrite filter_filter_andb. reflexivity. }
  rewrite Hstale in Hdriver.
  split; [reflexivity |]. split; [exact Hdriver |]. split.
  { intros x Hx Hname. rewrite Hdriver in Hx. apply filter_In in Hx as [Hin Hkeep].
    destruct (rooms w !! toString (field x "roomId")) as [r |] eqn:Hr; [by eauto |].
    exfalso. apply negb_true_iff in Hkeep.
    assert (Hex : existsb (λ s, driver.sameRoom s x)
                    (List.filter (is_remote_of name w) (driver_rooms w)) = true).
    { apply existsb_exists. exists x. split.
      - apply filter_In. split; [exact Hin |]. unfold is_remote_of.
        rewrite (proj2 (matches_name name x) Hname), Hr. reflexivity.
      - unfold driver.sameRoom. by rewrite bool_decide_true. }
    congruence. }
  split; [apply Hkeys, lookup_delete_eq |]. done.
Qed.

Lemma cleanupStaleRooms_removes_stale_witness :
  driver_rooms Sample.with_locked_room = [Sample.locked_listing] ∧
  (cleanupStaleRooms Sample.env "chat" Sample.with_locked_room).1 = Ok tt ∧
  ∀ x, In x (driver_rooms (cleanupStaleRooms Sample.env "chat" Sample.with_locked_room).2) →
       field x "name" = JStr "chat" →
       is_Some (rooms Sample.with_locked_room !! toString (field x "roomId")).
Proof.
  split; [reflexivity |].
  pose proof (cleanupStaleRooms_removes_stale Sample.env "chat" Sample.with_locked_room
                sample_ipc_dead sample_roomId_is_property) as H.
  cbn zeta in H. split; [exact (proj1 H) | exact (proj1 (proj2 (proj2 H)))].
Defined.

(** ** The registry of room types *)

Lemma cleanupStaleRooms_probe_tables (E : Environment) (name : string)
    (listing : JsObject) (w : World) :
  ipc_keeps_tables E → roomId_is_property E →
  ∃ w', cleanupStaleRooms_probe E name listing w = (Ok tt, w') ∧
        handlers w' = handlers w ∧ rooms w' = rooms w.
Proof.
  intros Hipc Hprop. unfold cleanupStaleRooms_probe, try_catch. unfold bind at 1.
  destruct (rooms w !! toString (field listing "roomId")) as [r |] eqn:Hr.
  - rewrite (remoteRoomCall_local E _ "roomId" None None w r Hr).
    rewrite Hprop. cbn. by exists w.
  - unfold remoteRoomCall. unfold_monad. rewrite Hr. cbn beta iota.
    destruct (Hipc (getRoomChannel (toString (field listing "roomId"))) (Some "roomId")
                None None w) as [Hh Hrm].
    destruct (requestFromIPC E _ _ _ _ w) as [[a | e] w1]; cbn [fst snd] in *.
    + by exists w1.
    + eexists. split; [reflexivity |]. by cbn.
Qed.

Lemma cleanupStaleRooms_tables (E : Environment) (name : string) (w : World) :
  ipc_keeps_tables E → roomId_is_property E →
  ∃ w', try_catch (cleanupStaleRooms E name) (λ _, ret tt) w = (Ok tt, w') ∧
        handlers w' = handlers w ∧ rooms w' = rooms w.
Proof.
  intros Hipc Hprop.
  assert (Hall : ∀ ls w0, ∃ w', forEach (cleanupStaleRooms_probe E name) ls w0 = (Ok tt, w') ∧
                                handlers w' = handlers w0 ∧ rooms w' = rooms w0).
  { induction ls as [| l ls IH]; intros w0; [by exists w0 |].
    destruct (cleanupStaleRooms_probe_tables E name l w0 Hipc Hprop)
      as (w1 & Hrun1 & Hh1 & Hr1).
    destruct (IH w1) as (w2 & Hrun2 & Hh2 & Hr2).
    exists w2. split; [| split; congruence].
    cbn [forEach]. unfold bind at 1. by rewrite Hrun1. }
  destruct (Hall (List.filter (driver.matches {["name" := JStr name]}) (driver_rooms w))
              (set_presence_keys (delete (getHandlerConcurrencyKey name)) w))
    as (w' & Hrun & Hh & Hr).
  exists w'. unfold try_catch.
  replace (cleanupStaleRooms E name w) with
    (forEach (cleanupStaleRooms_probe E name)
       (List.filter (driver.matches {["name" := JStr name]}) (driver_rooms w))
       (set_presence_keys (delete (getHandlerConcurrencyKey name)) w)) by reflexivity.
  rewrite Hrun. done.
Qed.

Lemma sample_ipc_keeps_tables : ipc_keeps_tables Sample.env.
Proof. intros ch m a t w. done. Qed.

(** X11.  When the requests to other processes leave the registry and the
    local table alone and [roomId] is a property of the rooms,
    [defineRoomType], for a name other than [__proto__], returns the handler
    and registers it under the name, so that [hasHandler] says yes;
    [removeRoomType] after it leaves the registry as it was without the
    name.  [hasHandler] then says no, and [handleCreateRoom] fails with
    [ERR_MATCHMAKE_NO_HANDLER], unless the name is one that the registry
    inherits from [Object.prototype]: for such a name [hasHandler] says yes
    and [handleCreateRoom] fails with a [TypeError].  Neither function
    touches the local table. *)
Theorem registry_round_trip (E : Environment) (name : string) (h : RegisteredHandler)
    (w : World) :
  ipc_keeps_tables E → roomId_is_property E →
  name ≠ "__proto__" →
  let w1 := (defineRoomType E name h w).2 in
  let w2 := (removeRoomType E name w1).2 in
  (defineRoomType E name h w).1 = Ok h ∧
  handlers w1 = <[name := h]> (handlers w) ∧
  (hasHandler name w1).1 = Ok true ∧
  (removeRoomType E name w1).1 = Ok tt ∧
  handlers w2 = delete name (handlers w) ∧
  (hasHandler name w2).1 = Ok (bool_decide (name ∈ Object_prototype)) ∧
  (∀ o, (handleCreateRoom E name o w2).1 =
          Throw (if bool_decide (name ∈ Object_prototype)
                 then Failure "registeredHandler.klass is not a constructor"
                 else MatchMakeError (dquote +:+ name +:+ dquote +:+ " not defined")
                        (Some ERR_MATCHMAKE_NO_HANDLER))) ∧
  rooms w1 = rooms w ∧
  rooms w2 = rooms w.
Proof.
  intros Hipc Hprop _. cbn zeta.
  destruct (cleanupStaleRooms_tables E name (set_handlers <[name := h]> w) Hipc Hprop)
    as (w1 & Hrun1 & Hhandlers1 & Hrooms1).
  assert (Hdef : defineRoomType E name h w = (Ok h, w1)).
  { unfold defineRoomType. unfold bind at 1. unfold modify. unfold bind at 1.
    by rewrite Hrun1. }
  rewrite Hdef. cbn [fst snd].
  destruct (cleanupStaleRooms_tables E name (set_handlers (delete name) w1) Hipc Hprop)
    as (w2 & Hrun2 & Hhandlers2 & Hrooms2).
  assert (Hrem : removeRoomType E name w1 = (Ok tt, w2)).
  { unfold removeRoomType. unfold bind at 1. unfold modify. exact Hrun2. }
  rewrite Hrem. cbn [fst snd]. cbn in Hrooms1, Hhandlers1, Hrooms2, Hhandlers2.
  assert (Hh2 : handlers w2 = delete name (handlers w)).
  { rewrite Hhandlers2, Hhandlers1. apply delete_insert_eq. }
  assert (Hnone : handlers w2 !! name = None) by (rewrite Hh2; apply lookup_delete_eq).
  split; [reflexivity |]. split; [exact Hhandlers1 |]. split.
  { unfold hasHandler, get. cbn.
    by rewrite (registry_get_registered _ name h)
      by (rewrite Hhandlers1; apply lookup_insert_eq). }
  split; [reflexivity |]. split; [exact Hh2 |]. split.
  { unfold hasHandler, get. cbn. rewrite (registry_get_absent _ _ Hnone).
    by destruct (bool_decide _). }
  split; [| split; congruence].
  intros o. by rewrite (handleCreateRoom_no_handler E name o w2 Hnone).
Qed.

Lemma registry_round_trip_witness :
  (hasHandler "poker" (defineRoomType Sample.env "poker" Sample.chat Sample.started).2).1 =
    Ok true ∧
  (hasHandler "poker"
     (removeRoomType Sample.env "poker"
        (defineRoomType Sample.env "poker" Sample.chat Sample.started).2).2).1 = Ok false ∧
  (hasHandler "valueOf"
     (removeRoomType Sample.env "valueOf"
        (defineRoomType Sample.env "valueOf" Sample.chat Sample.started).2).2).1 = Ok true.
Proof.
  pose proof (registry_round_trip Sample.env "poker" Sample.chat Sample.started
                sample_ipc_keeps_tables sample_roomId_is_property ltac:(discriminate)) as H.
  pose proof (registry_round_trip Sample.env "valueOf" Sample.chat Sample.started
                sample_ipc_keeps_tables sample_roomId_is_property ltac:(discriminate)) as H'.
  cbn zeta in H, H'. split; [exact (proj1 (proj2 (proj2 H))) |].
  split.
  - exact (proj1 (proj2 (proj2 (proj2 (proj2 (proj2 H)))))).
  - exact (proj1 (proj2 (proj2 (proj2 (proj2 (proj2 H')))))).
Defined.

(** ** A process that is alone *)

(** X12.  When the room counts name no other process, [createRoom] creates
    the room in this process, with no request over IPC, whatever order the
    sort gives; this is so right after [setup] on a presence without room
    counts. *)
Theorem createRoom_alone (E : Environment) (roomName : string) (clientOptions : JsObject) :
  (∀ cmp l, Permutation (Array_sort E cmp l) l) →
  (∀ w, (∀ p, p ∈ (default [] (presence_hash w !! getRoomCountKey)).*1 → p = processId w) →
        createRoom E roomName clientOptions w = handleCreateRoom E roomName clientOptions w) ∧
  (∀ pid w, presence_hash w !! getRoomCountKey = None →
        createRoom E roomName clientOptions (setup pid w).2 =
          handleCreateRoom E roomName clientOptions (setup pid w).2).
Proof.
  intros Hperm.
  assert (Halone : ∀ w,
            (∀ p, p ∈ (default [] (presence_hash w !! getRoomCountKey)).*1 → p = processId w) →
            createRoom E roomName clientOptions w =
              handleCreateRoom E roomName clientOptions w).
  { intros w Honly. rewrite createRoom_unfold. cbn zeta.
    rewrite decide_True; [reflexivity |].
    unfold processIdWithFewerRooms. cbn zeta.
    match goal with |- context [Array_sort E ?c ?l] =>
      pose proof (Hperm c l) as Hp; destruct (Array_sort E c l) as [| p rest] eqn:Hs end;
      [reflexivity |].
    cbn [head]. assert (Hpid : p = processId w).
    { apply Honly. rewrite <- Hp. left. }
    rewrite Hpid. by destruct (String.eqb (processId w) ""). }
  split; [exact Halone |].
  intros pid w Hnone. apply Halone.
  unfold setup, subscribeIPC, presence.subscribe, presence.hset. unfold_monad. cbn.
  rewrite lookup_insert_eq, Hnone. cbn. intros p Hp.
  apply list_elem_of_singleton in Hp. exact Hp.
Qed.

Lemma createRoom_alone_witness :
  createRoom Sample.env "chat" ∅ (setup "p1" empty_world).2 =
    handleCreateRoom Sample.env "chat" ∅ (setup "p1" empty_world).2.
Proof.
  exact (proj2 (createRoom_alone Sample.env "chat" ∅
                  (λ cmp l, proj1 (insertion_sort_sorts cmp l)))
           "p1" empty_world eq_refl).
Defined.

(** ** Creating a room and disposing it *)

Lemma handlers_finish (roomName : string) (r : Room) (w : World) :
  handlers (handleCreateRoom_finish roomName r w) = handlers w ∧
  rooms (handleCreateRoom_finish roomName r w) = <[room_roomId r := room_created r]> (rooms w) ∧
  presence_channels (handleCreateRoom_finish roomName r w) =
    {[getRoomChannel (room_roomId r)]} ∪ presence_channels w ∧
  presence_hash (handleCreateRoom_finish roomName r w) = presence_hash w ∧
  isGracefullyShuttingDown (handleCreateRoom_finish roomName r w) = isGracefullyShuttingDown w ∧
  processId (handleCreateRoom_finish roomName r w) = processId w.
Proof. done. Qed.

(** X13.  Creating a room and disposing it, with the type still registered,
    the process not shutting down and an id that is new, gives back the
    local table and the subscriptions as [onCreate] left them (as they were,
    for a class without [onCreate]) and leaves no listing with the id.  The
    room count ends where [onCreate] left it when the class has [onCreate];
    it ends one lower when the class has none, since the count is
    incremented in the branch of [onCreate] only. *)
Theorem create_dispose_round_trip (E : Environment) (roomName : string)
    (clientOptions : JsObject) (h h' : RegisteredHandler) (w : World)
    (r1 : Room) (w1 : World) :
  handlers w !! roomName = Some h →
  let w0 := set_generated (S (generated w)) w in
  let r0 := room_new roomName h clientOptions (processId w)
              (generateId_nth E (generated w)) in
  (if klass_onCreate (klass h)
   then room_onCreate E r0 (merge ∅ clientOptions (options h)) w0 = (Ok r1, w1)
   else r1 = r0 ∧ w1 = w0) →
  handlers w1 !! roomName = Some h' →
  isGracefullyShuttingDown w1 = false →
  rooms w1 !! room_roomId r1 = None →
  getRoomChannel (room_roomId r1) ∉ presence_channels w1 →
  let created := handleCreateRoom E roomName clientOptions w in
  let r := room_created r1 in
  let w2 := (disposeRoom roomName r created.2).2 in
  created.1 = Ok (room_listing r) ∧
  rooms created.2 !! room_roomId r1 = Some r ∧
  (disposeRoom roomName r created.2).1 = Ok tt ∧
  rooms w2 = rooms w1 ∧
  presence_channels w2 = presence_channels w1 ∧
  (∀ x, In x (driver_rooms w2) → field x "roomId" ≠ JStr (room_roomId r1)) ∧
  roomCount w2 (processId w1) =
    (roomCount w1 (processId w1) + if klass_onCreate (klass h) then 0 else -1)%Z.
Proof.
  intros Hh w0 r0 Hcreate Hh1 Hflag Hfresh Hchan created r w2.
  set (wm := if klass_onCreate (klass h)
             then (presence.hincrby getRoomCountKey (processId w1) 1 w1).2 else w1).
  assert (Hcreated : created = (Ok (room_listing r), handleCreateRoom_finish roomName r1 wm)).
  { unfold created, wm. rewrite (handleCreateRoom_unfold E roomName clientOptions h w Hh).
    cbn zeta. fold w0 r0.
    destruct (klass_onCreate (klass h)) eqn:Hk.
    - by rewrite Hcreate.
    - by destruct Hcreate as [-> ->]. }
  assert (Hm : handlers wm = handlers w1 ∧ rooms wm = rooms w1 ∧
               presence_channels wm = presence_channels w1 ∧
               isGracefullyShuttingDown wm = isGracefullyShuttingDown w1 ∧
               processId wm = processId w1 ∧
               roomCount wm (processId w1) =
                 (roomCount w1 (processId w1) + if klass_onCreate (klass h) then 1 else 0)%Z).
  { unfold wm. destruct (klass_onCreate (klass h)).
    - repeat (split; [reflexivity |]). apply (roomCount_hincrby (processId w1) 1 w1).
    - repeat (split; [reflexivity |]). lia. }
  destruct Hm as (Hmh & Hmr & Hmc & Hmf & Hmp & Hmcount).
  destruct (handlers_finish roomName r1 wm) as (Hfh & Hfr & Hfc & Hfhash & Hff & Hfp).
  unfold w2. rewrite Hcreated. cbn [fst snd].
  set (wc := handleCreateRoom_finish roomName r1 wm) in *.
  split; [reflexivity |].
  split; [rewrite Hfr; apply lookup_insert_eq |].
  assert (Hhc : handlers wc !! roomName = Some h') by (rewrite Hfh, Hmh; exact Hh1).
  destruct (disposeRoom_with_handler roomName r h' wc Hhc)
    as (Hok & _ & Hrooms & Hchans & Hdriver).
  cbn zeta in Hrooms, Hchans, Hdriver.
  change (room_roomId r) with (room_roomId r1) in Hrooms, Hchans.
  split; [exact Hok |].
  split.
  { rewrite Hrooms, Hfr, Hmr, delete_insert_eq. by apply delete_id. }
  split.
  { rewrite Hchans, Hfc, Hmc. apply set_eq. intros c.
    rewrite elem_of_difference, elem_of_union, !elem_of_singleton.
    split; [intros [[? | ?] ?]; [done | done] |].
    intros Hc. split; [by right | intros ->; done]. }
  split.
  { intros x Hx. pose proof (Hdriver x Hx) as Hne. intros Heq. apply Hne. rewrite Heq.
    cbn. unfold field. rewrite lookup_insert_ne by done. by rewrite lookup_insert_eq. }
  assert (Hflag1 : isGracefullyShuttingDown wc = false) by (rewrite Hff, Hmf; exact Hflag).
  pose proof (disposeRoom_presence_hash roomName r wc) as Hhash.
  rewrite Hflag1 in Hhash.
  unfold roomCount at 1. rewrite Hhash. rewrite Hfp, Hmp.
  pose proof (roomCount_hincrby (processId w1) (-1) wc) as Hdec.
  unfold roomCount at 1 in Hdec. rewrite Hdec.
  unfold roomCount at 1. rewrite Hfhash. fold (roomCount wm (processId w1)).
  rewrite Hmcount. destruct (klass_onCreate (klass h)); lia.
Qed.

Lemma create_dispose_round_trip_witness :
  roomCount Sample.started "p1" = 0%Z ∧
  roomCount (disposeRoom "chat" SampleServer.room0
               (handleCreateRoom Sample.env "chat" ∅ Sample.started).2).2 "p1" = 0%Z ∧
  roomCount (disposeRoom "plain"
               (room_created (room_new "plain" Sample.plain ∅ "p1" "id0"))
               (handleCreateRoom Sample.env "plain" ∅ Sample.started).2).2 "p1" = (-1)%Z.
Proof.
  assert (Hchat : handlers Sample.started !! "chat" = Some Sample.chat)
    by (vm_compute; reflexivity).
  assert (Hplain : handlers Sample.started !! "plain" = Some Sample.plain)
    by (vm_compute; reflexivity).
  assert (Hfresh : rooms (set_generated 1 Sample.started) !! "id0" = None)
    by (vm_compute; reflexivity).
  assert (Hchan : getRoomChannel "id0" ∉ presence_channels (set_generated 1 Sample.started)).
  { refine (bool_decide_unpack _ _). vm_compute. exact I. }
  split; [vm_compute; reflexivity |]. split.
  - exact (proj2 (proj2 (proj2 (proj2 (proj2 (proj2
      (create_dispose_round_trip Sample.env "chat" ∅ Sample.chat Sample.chat Sample.started
         (room_new "chat" Sample.chat ∅ "p1" "id0") (set_generated 1 Sample.started)
         Hchat eq_refl Hchat eq_refl Hfresh Hchan))))))).
  - exact (proj2 (proj2 (proj2 (proj2 (proj2 (proj2
      (create_dispose_round_trip Sample.env "plain" ∅ Sample.plain Sample.plain
         Sample.started
         (room_new "plain" Sample.plain ∅ "p1" "id0") (set_generated 1 Sample.started)
         Hplain (conj eq_refl eq_refl) Hplain eq_refl Hfresh Hchan))))))).
Defined.

(** ** Strings *)

Lemma string_app_cons (x : Ascii.ascii) (a b : string) :
  String x a +:+ b = String x (a +:+ b).
Proof. reflexivity. Qed.

Lemma string_app_assoc (a b c : string) : (a +:+ b) +:+ c = a +:+ (b +:+ c).
Proof.
  induction a as [| x a IH]; [reflexivity |].
  rewrite !string_app_cons. by f_equal.
Qed.

Lemma string_app_nil_r (a : string) : a +:+ "" = a.
Proof.
  induction a as [| x a IH]; [reflexivity |].
  rewrite string_app_cons. by f_equal.
Qed.

Lemma prefix_before_char (c : Ascii.ascii) (p1 p2 s1 s2 : string) :
  free_of c p1 = true → free_of c p2 = true →
  p1 +:+ String c s1 = p2 +:+ String c s2 → p1 = p2 ∧ s1 = s2.
Proof.
  revert p2. induction p1 as [| x p1 IH]; intros [| y p2] H1 H2 Heq;
    rewrite ?string_app_cons in Heq; cbn [free_of] in *;
    change ("" +:+ ?s) with s in Heq.
  - by inversion Heq.
  - inversion Heq; subst. rewrite Ascii.eqb_refl in H2. discriminate H2.
  - inversion Heq; subst. rewrite Ascii.eqb_refl in H1. discriminate H1.
  - inversion Heq; subst.
    apply andb_true_iff in H1 as [_ H1]. apply andb_true_iff in H2 as [_ H2].
    destruct (IH p2 H1 H2 ltac:(done)) as [-> ->]. done.
Qed.

(** ** Discovery *)

Lemma getNodeAddress_processId (n1 n2 : Node) :
  free_of slash (node_processId n1) = true →
  free_of slash (node_processId n2) = true →
  getNodeAddress n1 = getNodeAddress n2 → node_processId n1 = node_processId n2.
Proof.
  intros H1 H2 Heq. unfold getNodeAddress in Heq. cbn zeta in Heq.
  change ("/" +:+ ?s) with (String slash s) in Heq.
  by destruct (prefix_before_char slash _ _ _ _ H1 H2 Heq).
Qed.

(** X14.  A registered node's address is in the set of nodes;
    [unregisterNode] after [registerNode] leaves the set as it was without
    the address, with [add] and then [remove] published on the discovery
    channel; and unregistering a node keeps the address of every node with
    another process id, when the ids hold no slash. *)
Theorem register_unregister (node : Node) (b : Bus) :
  let a := getNodeAddress node in
  a ∈ smembers NODES_SET (registerNode node b) ∧
  smembers NODES_SET (unregisterNode node (registerNode node b)) =
    smembers NODES_SET b ∖ {[a]} ∧
  bus_published (unregisterNode node (registerNode node b)) =
    (DISCOVERY_CHANNEL, "remove," +:+ a) :: (DISCOVERY_CHANNEL, "add," +:+ a)
      :: bus_published b ∧
  (∀ other,
     free_of slash (node_processId other) = true →
     free_of slash (node_processId node) = true →
     node_processId other ≠ node_processId node →
     getNodeAddress other ∈ smembers NODES_SET b →
     getNodeAddress other ∈ smembers NODES_SET (unregisterNode node b)).
Proof.
  cbn zeta. unfold registerNode, unregisterNode, smembers, publish, sadd, srem. cbn.
  rewrite !lookup_insert_eq. cbn.
  split; [apply elem_of_union; left; by apply elem_of_singleton |].
  split.
  { apply set_eq. intros x.
    rewrite !elem_of_difference, elem_of_union, elem_of_singleton. tauto. }
  split; [reflexivity |].
  intros other Ho Hn Hne Hin.
  apply elem_of_difference. split; [exact Hin |].
  intros Heq%elem_of_singleton. apply Hne.
  by apply getNodeAddress_processId.
Qed.

Lemma register_unregister_witness :
  getNodeAddress SampleServer.node2 = "p2/10.0.0.2:2567" ∧
  getNodeAddress SampleServer.node2 ∈
    smembers NODES_SET
      (unregisterNode SampleServer.node1 (registerNode SampleServer.node2 (mkBus ∅ []))).
Proof.
  split; [vm_compute; reflexivity |].
  refine (proj2 (proj2 (proj2 (register_unregister SampleServer.node1
                                 (registerNode SampleServer.node2 (mkBus ∅ [])))))
            SampleServer.node2 eq_refl eq_refl _ _).
  - discriminate.
  - exact (proj1 (register_unregister SampleServer.node2 (mkBus ∅ []))).
Defined.

(** ** Lobby *)

Lemma split_comma_last (a part : string) :
  free_of comma a = true → split_comma a part = [part +:+ a].
Proof.
  revert part. induction a as [| x a IH]; intros part Hfree; cbn [free_of] in Hfree.
  - by rewrite string_app_nil_r.
  - apply andb_true_iff in Hfree as [Hx Hfree]. apply negb_true_iff in Hx.
    cbn [split_comma]. rewrite Hx, (IH _ Hfree), string_app_assoc. reflexivity.
Qed.

Lemma split_comma_first (a rest part : string) :
  free_of comma a = true →
  split_comma (a +:+ String comma rest) part = (part +:+ a) :: split_comma rest "".
Proof.
  revert part. induction a as [| x a IH]; intros part Hfree; cbn [free_of] in Hfree.
  - change ("" +:+ ?s) with s. cbn [split_comma]. rewrite Ascii.eqb_refl.
    by rewrite string_app_nil_r.
  - apply andb_true_iff in Hfree as [Hx Hfree]. apply negb_true_iff in Hx.
    rewrite string_app_cons. cbn [split_comma].
    rewrite Hx, (IH _ Hfree), string_app_assoc. reflexivity.
Qed.

(** X15.  [notifyLobby] publishes the id and [0] or [1] on the lobby
    channel, and nothing for an unlisted room.  The subscriber of
    [subscribeLobby] reads the message back, for an id without a comma: a
    removal gives the id and [null], an addition the id and the first
    listing of the driver with this id, which is there when the room's
    listing is in the driver. *)
Theorem lobby_round_trip (listing : JsObject) (removed : bool) (b : Bus) (w : World) :
  let roomId := toString (field listing "roomId") in
  (notifyLobby listing removed b =
     if truthy (field listing "unlisted") then b
     else publish LOBBY_CHANNEL (roomId +:+ "," +:+ (if removed then "1" else "0")) b) ∧
  (free_of comma roomId = true →
   subscribeLobby_cb (lobby_message listing removed) w =
     (Ok (roomId,
          if removed then lobby_removed
          else lobby_listing
                 (head (List.filter (driver.matches {["roomId" := JStr roomId]})
                          (driver_rooms w)))),
      w)) ∧
  (free_of comma roomId = true →
   field listing "roomId" = JStr roomId →
   In listing (driver_rooms w) →
   ∃ found,
     subscribeLobby_cb (lobby_message listing false) w =
       (Ok (roomId, lobby_listing (Some found)), w) ∧
     field found "roomId" = JStr roomId).
Proof.
  cbn zeta.
  assert (Hcb : free_of comma (toString (field listing "roomId")) = true →
     subscribeLobby_cb (lobby_message listing removed) w =
     (Ok (toString (field listing "roomId"),
          if removed then lobby_removed
          else lobby_listing
                 (head (List.filter
                          (driver.matches {["roomId" := JStr (toString (field listing "roomId"))]})
                          (driver_rooms w)))),
      w) ∧
     subscribeLobby_cb (lobby_message listing false) w =
     (Ok (toString (field listing "roomId"),
          lobby_listing
                 (head (List.filter
                          (driver.matches {["roomId" := JStr (toString (field listing "roomId"))]})
                          (driver_rooms w)))),
      w)).
  { intros Hfree. unfold subscribeLobby_cb, lobby_message.
    change ("," +:+ ?s) with (String comma s).
    rewrite !(split_comma_first _ _ "" Hfree). cbn [head default lookup list_lookup].
    split; [destruct removed |]; reflexivity. }
  split; [| split].
  - unfold notifyLobby, lobby_message. by destruct (truthy (field listing "unlisted")).
  - intros Hfree. by apply Hcb.
  - intros Hfree Hid Hin. destruct (Hcb Hfree) as [_ Hadd].
    destruct (List.filter _ (driver_rooms w)) as [| found rest] eqn:Hf.
    + exfalso. assert (Hl : In listing []); [| done].
      rewrite <- Hf. apply filter_In. split; [exact Hin |].
      unfold driver.matches. apply bool_decide_eq_true.
      by apply (map_Forall_singleton (λ k v, field listing k = v)).
    + exists found. split; [exact Hadd |].
      assert (Hfound : In found (found :: rest)) by (by left).
      rewrite <- Hf in Hfound. apply filter_In in Hfound as [_ Hm].
      unfold driver.matches in Hm. apply bool_decide_eq_true in Hm.
      by apply (map_Forall_singleton (λ k v, field found k = v)) in Hm.
Qed.

Lemma lobby_round_trip_witness :
  ∃ found,
    subscribeLobby_cb (lobby_message (room_listing SampleServer.room0) false) Sample.one_room =
      (Ok ("id0", lobby_listing (Some found)), Sample.one_room) ∧
    field found "roomId" = JStr "id0".
Proof.
  refine (proj2 (proj2 (lobby_round_trip (room_listing SampleServer.room0) false (mkBus ∅ [])
                          Sample.one_room)) eq_refl _ _).
  - vm_compute. reflexivity.
  - left. vm_compute. reflexivity.
Defined.

(** ** The matchmaking routes *)

Lemma match_allowed_run (a rest cur : string) :
  all_allowed a = true →
  match_allowed (a +:+ rest) cur = match_allowed rest (cur +:+ a).
Proof.
  revert cur. induction a as [| x a IH]; intros cur Ha; cbn [all_allowed] in Ha.
  - change ("" +:+ rest) with rest. by rewrite string_app_nil_r.
  - apply andb_true_iff in Ha as [Hx Ha].
    rewrite string_app_cons. cbn [match_allowed]. rewrite Hx, (IH _ Ha), string_app_assoc.
    reflexivity.
Qed.

Lemma end_of_run_nonempty (a : string) : a ≠ "" → end_of_run a = [a].
Proof. intros Ha. unfold end_of_run. apply String.eqb_neq in Ha. by rewrite Ha. Qed.

Lemma match_allowed_segment (a rest : string) (c : Ascii.ascii) :
  all_allowed a = true → a ≠ "" → allowedRoomNameChar c = false →
  match_allowed (a +:+ String c rest) "" = a :: match_allowed rest "".
Proof.
  intros Ha Hne Hc. rewrite (match_allowed_run a _ "" Ha).
  change ("" +:+ a) with a. cbn [match_allowed]. rewrite Hc.
  by rewrite (end_of_run_nonempty a Hne).
Qed.

Lemma match_allowed_last (a : string) :
  all_allowed a = true → a ≠ "" → match_allowed a "" = [a].
Proof.
  intros Ha Hne. rewrite <- (string_app_nil_r a) at 1.
  rewrite (match_allowed_run a "" "" Ha). change ("" +:+ a) with a.
  cbn [match_allowed]. by apply end_of_run_nonempty.
Qed.

Lemma match_allowed_route (method name : string) :
  all_allowed method = true → method ≠ "" →
  all_allowed name = true → name ≠ "" →
  match_allowed ("/matchmake/" +:+ method +:+ "/" +:+ name) "" =
    ["matchmake"; method; name].
Proof.
  intros Hm Hmne Hn Hnne.
  change ("/matchmake/" +:+ method +:+ "/" +:+ name)
    with (String slash ("matchmake" +:+ String slash (method +:+ String slash name))).
  cbn [match_allowed].
  replace (allowedRoomNameChar slash) with false by (vm_compute; reflexivity).
  cbn [end_of_run String.eqb app].
  rewrite (match_allowed_segment "matchmake" _ slash); [| by vm_compute | done | by vm_compute].
  rewrite (match_allowed_segment method _ slash Hm Hmne); [| by vm_compute].
  by rewrite (match_allowed_last name Hn Hnne).
Qed.

Lemma match_allowed_nonempty (url cur : string) :
  match_allowed url cur ≠ [] ↔ cur ≠ "" ∨ some_allowed url = true.
Proof.
  revert cur. induction url as [| c rest IH]; intros cur; cbn [match_allowed some_allowed].
  - unfold end_of_run. destruct (String.eqb_spec cur ""); split; try done.
    + intros [? | ?]; done.
    + intros _. by left.
  - destruct (allowedRoomNameChar c); cbn [orb].
    + rewrite IH. split; [intros _; by right |]. intros _. left.
      destruct cur; discriminate.
    + unfold end_of_run. destruct (String.eqb_spec cur "") as [-> | Hne]; cbn [app].
      * rewrite IH. split; intros [? | ?]; try done; by right.
      * split; [intros _; by left | done].
Qed.

Lemma includes_some_allowed (url : string) :
  includes "/matchmake" url = true → some_allowed url = true.
Proof.
  induction url as [| c rest IH]; cbn [includes]; [by vm_compute |].
  intros H. apply orb_true_iff in H as [Hp | Hr].
  - cbn [String.prefix] in Hp. destruct (Ascii.ascii_dec _ c); [| discriminate Hp].
    destruct rest as [| d rest']; cbn [String.prefix] in Hp; [discriminate Hp |].
    destruct (Ascii.ascii_dec _ d) as [<- |]; [| discriminate Hp].
    cbn [some_allowed]. apply orb_true_iff. right. apply orb_true_iff. left.
    by vm_compute.
  - cbn [some_allowed]. rewrite (IH Hr). apply orb_true_r.
Qed.

Lemma routed_name (url : string) :
  includes "/matchmake" url = true → ∃ name, from_end (match_allowed url "") 1 = Some name.
Proof.
  intros Hr. apply includes_some_allowed in Hr.
  assert (Hne : match_allowed url "" ≠ []) by (apply match_allowed_nonempty; by right).
  unfold from_end. destruct (match_allowed url "") as [| x l] eqn:Hm; [done |].
  cbn [length Nat.ltb Nat.leb]. 
  replace (S (length l) - 1)%nat with (length l) by lia.
  destruct (lookup_lt_is_Some_2 (x :: l) (length l)) as [name Hname]; [cbn; lia |].
  exists name. exact Hname.
Qed.

Lemma exposed_allowed (m : string) :
  m ∈ exposedMethods → all_allowed m = true ∧ m ≠ "".
Proof.
  unfold exposedMethods. intros Hm.
  repeat (apply elem_of_cons in Hm as [-> | Hm]; [by vm_compute |]).
  by apply elem_of_nil in Hm.
Qed.

Lemma POST_unfold (E : Environment) (maxRetries : nat) (wl : Thrown → bool)
    (JSON_parse : string → Result JsObject)
    (m name data : string) (body : JsObject) (w : World) :
  m ∈ exposedMethods →
  JSON_parse data = Ok body →
  handleMatchMakeRequest_POST E maxRetries wl JSON_parse (Some m) name data w =
    match matchMaker_method E maxRetries wl m name body w with
    | (Ok response, w') =>
        (Ok {| statusCode := 200; written := Some (body_reservation response) |}, w')
    | (Throw e, w') =>
        (Ok {| statusCode := 200;
               written := Some (body_error (default ERR_MATCHMAKE_UNHANDLED (code_of e))
                                  (message_of e)) |}, w')
    end.
Proof.
  intros Hm Hparse. unfold handleMatchMakeRequest_POST. rewrite Hparse. unfold_monad.
  rewrite bool_decide_true by done.
  destruct (matchMaker_method E maxRetries wl m name body w) as [[r | e] w']; reflexivity.
Qed.

Lemma create_in_exposedMethods : "create" ∈ exposedMethods.
Proof. apply list_elem_of_further, list_elem_of_here. Qed.

(** X16.  A [POST] to [/matchmake/<method>/<name>], for an exposed method
    and a name of allowed characters, parses the body, before the [try]: a
    body that does not parse throws out of the handler and the state is as
    it was.  Otherwise that method of the matchmaker is called with the name
    and the parsed body; the response has status 200 and holds the seat
    reservation, or the code and message of the error, the code being
    [ERR_MATCHMAKE_UNHANDLED] when the error has none. *)
Theorem POST_dispatch (E : Environment) (maxRetries : nat) (wl : Thrown → bool)
    (JSON_parse : string → Result JsObject)
    (m name data : string) (w : World) :
  m ∈ exposedMethods →
  all_allowed name = true → name ≠ "" →
  handleMatchMakeRequest E maxRetries wl JSON_parse "POST"
      ("/matchmake/" +:+ m +:+ "/" +:+ name) data w =
    match JSON_parse data with
    | Throw e => (Throw e, w)
    | Ok body =>
        match matchMaker_method E maxRetries wl m name body w with
        | (Ok response, w') =>
            (Ok (Some {| statusCode := 200;
                         written := Some (body_reservation response) |}), w')
        | (Throw e, w') =>
            (Ok (Some {| statusCode := 200;
                         written := Some (body_error
                                            (default ERR_MATCHMAKE_UNHANDLED (code_of e))
                                            (message_of e)) |}), w')
        end
    end.
Proof.
  intros Hm Hn Hnne. destruct (exposed_allowed m Hm) as [Hma Hmne].
  unfold handleMatchMakeRequest. cbn [String.eqb Ascii.eqb Bool.eqb].
  rewrite (match_allowed_route m name Hma Hmne Hn Hnne).
  cbn [from_end length Nat.ltb Nat.leb Nat.sub lookup list_lookup].
  unfold bind at 1.
  destruct (JSON_parse data) as [body | e] eqn:Hparse.
  - rewrite (POST_unfold E maxRetries wl JSON_parse m name data body w Hm Hparse).
    destruct (matchMaker_method E maxRetries wl m name body w) as [[r | e] w']; reflexivity.
  - unfold handleMatchMakeRequest_POST. by rewrite Hparse.
Qed.

Lemma POST_dispatch_witness :
  ∃ response,
    (handleMatchMakeRequest Sample.env 3 (λ _, false) SampleServer.JSON_parse "POST"
       "/matchmake/create/chat" "{}" Sample.started).1 =
      Ok (Some {| statusCode := 200; written := Some (body_reservation response) |}).
Proof.
  pose proof (POST_dispatch Sample.env 3 (λ _, false) SampleServer.JSON_parse "create" "chat"
                "{}" Sample.started
                create_in_exposedMethods eq_refl ltac:(discriminate)) as H.
  change ("/matchmake/" +:+ "create" +:+ "/" +:+ "chat") with "/matchmake/create/chat" in H.
  rewrite H. change (SampleServer.JSON_parse "{}") with (@Ok JsObject ∅). cbn beta iota.
  destruct (matchMaker_method Sample.env 3 (λ _, false) "create" "chat" ∅ Sample.started)
    as [[response | e] w'] eqn:Hrun.
  - by exists response.
  - vm_compute in Hrun. discriminate Hrun.
Defined.

(** X17.  A [POST] whose last segment but one is not an exposed method, or
    which has one segment only, is answered, when its body parses, with
    status 200 and an error of code [ERR_MATCHMAKE_UNHANDLED]; when the body
    does not parse the [SyntaxError] leaves the handler.  Either way the
    matchmaker is not called and its state does not change. *)
Theorem POST_refuses (E : Environment) (maxRetries : nat) (wl : Thrown → bool)
    (JSON_parse : string → Result JsObject)
    (url data : string) (w : World) :
  match_allowed url "" ≠ [] →
  (∀ m, from_end (match_allowed url "") 2 = Some m → m ∉ exposedMethods) →
  ∃ message,
    handleMatchMakeRequest E maxRetries wl JSON_parse "POST" url data w =
      match JSON_parse data with
      | Throw e => (Throw e, w)
      | Ok _ =>
          (Ok (Some {| statusCode := 200;
                       written := Some (body_error ERR_MATCHMAKE_UNHANDLED
                                          (JStr message)) |}), w)
      end.
Proof.
  intros Hne Hnot. unfold handleMatchMakeRequest. cbn [String.eqb Ascii.eqb Bool.eqb].
  destruct (from_end (match_allowed url "") 1) as [name |] eqn:Hname.
  - unfold bind at 1. unfold handleMatchMakeRequest_POST.
    destruct (from_end (match_allowed url "") 2) as [m |] eqn:Hm.
    + exists ("invalid method " +:+ dquote +:+ m +:+ dquote).
      destruct (JSON_parse data) as [body | e]; [| reflexivity].
      unfold_monad. by rewrite bool_decide_false by (by apply Hnot).
    + exists ("invalid method " +:+ dquote +:+ "undefined" +:+ dquote).
      by destruct (JSON_parse data) as [body | e].
  - exfalso. unfold from_end in Hname.
    destruct (match_allowed url "") as [| x l]; [done |].
    cbn [length Nat.ltb Nat.leb] in Hname.
    replace (S (length l) - 1)%nat with (length l) in Hname by lia.
    apply lookup_ge_None in Hname. cbn in Hname. lia.
Qed.

Lemma POST_refuses_witness :
  ∃ message,
    handleMatchMakeRequest Sample.env 3 (λ _, false) SampleServer.JSON_parse "POST"
      "/matchmake/destroy/chat" "{}" Sample.one_room =
      (Ok (Some {| statusCode := 200;
                   written := Some (body_error ERR_MATCHMAKE_UNHANDLED (JStr message)) |}),
       Sample.one_room).
Proof.
  apply (POST_refuses Sample.env 3 (λ _, false) SampleServer.JSON_parse
           "/matchmake/destroy/chat" "{}" Sample.one_room).
  - vm_compute. discriminate.
  - intros m Hm. vm_compute in Hm. inversion Hm as [Heq]. clear Hm Heq. intros Hin.
    unfold exposedMethods in Hin.
    repeat (apply elem_of_cons in Hin as [Heq | Hin]; [discriminate Heq |]).
    by apply elem_of_nil in Hin.
Defined.

(** X18.  For every request that [attachMatchMakingRoutes] hands over (its
    url contains [/matchmake]) the match of the url is never [null].
    [OPTIONS] is answered with 204 and no body, [GET] with 200 and the
    listing, and for any other method but [POST] nothing is written; none of
    them changes the state.  A [POST] is answered with 200 when its body
    parses; when it does not, the [SyntaxError] of [JSON.parse], which is
    called before the [try], leaves the handler: no response is ended and
    the state is unchanged. *)
Theorem routed_request_answered (E : Environment) (maxRetries : nat) (wl : Thrown → bool)
    (JSON_parse : string → Result JsObject)
    (method url data : string) (w : World) :
  includes "/matchmake" url = true →
  let out := handleMatchMakeRequest E maxRetries wl JSON_parse method url data w in
  (method = "OPTIONS" → out = (Ok (Some {| statusCode := 204; written := None |}), w)) ∧
  (method = "GET" →
   ∃ listings,
     out = (Ok (Some {| statusCode := 200; written := Some (body_rooms listings) |}), w)) ∧
  (method = "POST" →
   match JSON_parse data with
   | Ok body =>
       ∃ written w', out = (Ok (Some {| statusCode := 200; written := Some written |}), w')
   | Throw e => out = (Throw e, w)
   end) ∧
  (method ≠ "POST" → method ≠ "GET" → method ≠ "OPTIONS" → out = (Ok None, w)).
Proof.
  intros Hrouted. destruct (routed_name url Hrouted) as [name Hname]. cbn zeta.
  unfold handleMatchMakeRequest.
  destruct (String.eqb_spec method "OPTIONS") as [-> | Hno].
  { split; [done |]. split; [discriminate |]. split; [discriminate | done]. }
  destruct (String.eqb_spec method "POST") as [-> | Hnp].
  { split; [done |]. split; [discriminate |]. split; [| done]. intros _.
    rewrite Hname. unfold bind at 1. unfold handleMatchMakeRequest_POST.
    destruct (JSON_parse data) as [body | e]; [| reflexivity].
    unfold_monad.
    destruct (from_end (match_allowed url "") 2) as [m |]; [| by eexists _, _].
    destruct (bool_decide (m ∈ exposedMethods)); [| by eexists _, _].
    destruct (matchMaker_method E maxRetries wl m name body w) as [[r | e] w'];
      by eexists _, _. }
  destruct (String.eqb_spec method "GET") as [-> | Hng].
  { split; [done |]. split; [| split; [discriminate | done]].
    intros _. rewrite Hname. by eexists. }
  split; [done |]. split; [done |]. split; done.
Qed.

Lemma routed_request_answered_witness :
  includes "/matchmake" "/matchmake/joinOrCreate/chat" = true ∧
  handleMatchMakeRequest Sample.env 3 (λ _, false) SampleServer.JSON_parse "POST"
    "/matchmake/joinOrCreate/chat" "" Sample.one_room =
    (Throw (Failure "Unexpected token in JSON"), Sample.one_room).
Proof.
  split; [reflexivity |].
  exact (proj1 (proj2 (proj2
           (routed_request_answered Sample.env 3 (λ _, false) SampleServer.JSON_parse "POST"
              "/matchmake/joinOrCreate/chat" "" Sample.one_room eq_refl))) eq_refl).
Defined.

(** ** The listing of rooms *)

Lemma matches_insert (k : string) (v : JsVal) (c l : JsObject) :
  c !! k = None →
  driver.matches (<[k := v]> c) l = true ↔ field l k = v ∧ driver.matches c l = true.
Proof.
  intros Hk. unfold driver.matches. rewrite !bool_decide_eq_true.
  apply (map_Forall_insert (λ k v, field l k = v)). exact Hk.
Qed.

(** X19.  A [GET] lists the listings of the driver that are neither locked
    nor private, of the room type named by the last segment of the url, and
    of every type when this segment is [matchmake]; the state does not
    change. *)
Theorem GET_lists_public_unlocked (E : Environment) (maxRetries : nat) (wl : Thrown → bool)
    (JSON_parse : string → Result JsObject)
    (url roomName data : string) (w : World) :
  from_end (match_allowed url "") 1 = Some roomName →
  ∃ listings,
    handleMatchMakeRequest E maxRetries wl JSON_parse "GET" url data w =
      (Ok (Some {| statusCode := 200; written := Some (body_rooms listings) |}), w) ∧
    ∀ l, In l listings ↔
         In l (driver_rooms w) ∧
         field l "locked" = JBool false ∧
         field l "private" = JBool false ∧
         (roomName ≠ "matchmake" → field l "name" = JStr roomName).
Proof.
  intros Hname. unfold handleMatchMakeRequest. cbn [String.eqb Ascii.eqb Bool.eqb].
  rewrite Hname. eexists. split; [reflexivity |].
  intros l. rewrite filter_In. unfold GET_conditions.
  assert (Hempty : ∀ x : JsObject, driver.matches ∅ x = true).
  { intros x. unfold driver.matches. apply bool_decide_eq_true. apply map_Forall_empty. }
  destruct (String.eqb_spec roomName "matchmake") as [-> | Hne]; cbn [negb].
  - rewrite matches_insert by done. rewrite matches_insert by done.
    split.
    + intros (Hin & Hl & Hp & _). split; [done |]. split; [done |]. split; done.
    + intros (Hin & Hl & Hp & _). split; [done |]. split; [done |]. split; [done |].
      apply Hempty.
  - rewrite matches_insert by done. rewrite matches_insert by done.
    rewrite matches_insert by done.
    split.
    + intros (Hin & Hn & Hl & Hp & _). split; [done |]. split; [done |]. split; done.
    + intros (Hin & Hl & Hp & Hn). split; [done |]. split; [by apply Hn |].
      split; [done |]. split; [done |]. apply Hempty.
Qed.

Lemma GET_lists_public_unlocked_witness :
  ∃ listings,
    handleMatchMakeRequest Sample.env 3 (λ _, false) SampleServer.JSON_parse "GET"
      "/matchmake/chat" "" Sample.with_locked_room =
      (Ok (Some {| statusCode := 200; written := Some (body_rooms listings) |}),
       Sample.with_locked_room) ∧
    ¬ In Sample.locked_listing listings.
Proof.
  destruct (GET_lists_public_unlocked Sample.env 3 (λ _, false) SampleServer.JSON_parse
              "/matchmake/chat" "chat" "" Sample.with_locked_room eq_refl)
    as (listings & Hrun & Hin).
  exists listings. split; [exact Hrun |].
  intros H. apply Hin in H as (_ & Hlocked & _). vm_compute in Hlocked. discriminate Hlocked.
Defined.

(** ** The shutdown of the server *)

Lemma Server_shutdown_unfold (E : Environment) (a : AddressInfo) (pid : string)
    (onShutdownCallback : Promise unit) (exit err : bool) (b : Bus) (w : World) :
  Server_gracefullyShutdown E (Some a) pid onShutdownCallback exit err b w =
    let b' := unregisterNode {| node_processId := pid; addressInfo := a |} b in
    let finally := if exit then [process_exit (if err then 1 else 0)%Z] else [] in
    match gracefullyShutdown E w with
    | (Throw e, w') => (b', w', print_error e :: finally, Some (Ok tt))
    | (Ok p, w') =>
        match await p with
        | None => (b', w', [], None)
        | Some (Throw e) => (b', w', print_error e :: finally, Some (Ok tt))
        | Some (Ok _) =>
            match await onShutdownCallback with
            | None => (b', w', [transport_shutdown; shutdown_callback], None)
            | Some (Throw e) =>
                (b', w', [transport_shutdown; shutdown_callback; print_error e] ++ finally,
                 Some (Ok tt))
            | Some (Ok _) =>
                (b', w', [transport_shutdown; shutdown_callback] ++ finally, Some (Ok tt))
            end
        end
    end.
Proof. reflexivity. Qed.

(** X20.  When the transport has an address, the server shuts the transport
    down, and calls the shutdown callback, exactly when the shutdown of the
    matchmaker is fulfilled; when it is rejected, and so whenever the
    matchmaker is shutting down already, the error is printed, the
    transport stays up and the callback is not called.  When the transport
    has no address, [unregisterNode] fails before the [try]: the call is
    rejected with the [TypeError], nothing is printed or shut down, and the
    bus and the matchmaker are as they were. *)
Theorem Server_shutdown_transport (E : Environment) (address : option AddressInfo)
    (pid : string) (onShutdownCallback : Promise unit) (exit err : bool)
    (b : Bus) (w : World) :
  let out := Server_gracefullyShutdown E address pid onShutdownCallback exit err b w in
  let finally := if exit then [process_exit (if err then 1 else 0)%Z] else [] in
  (transport_shutdown ∈ out.1.2 ↔
   is_Some address ∧
   ∃ t values w', gracefullyShutdown E w = (Ok (Settles t (Ok values)), w')) ∧
  (shutdown_callback ∈ out.1.2 ↔ transport_shutdown ∈ out.1.2) ∧
  (∀ a t e w',
     address = Some a →
     gracefullyShutdown E w = (Ok (Settles t (Throw e)), w') →
     out = (unregisterNode {| node_processId := pid; addressInfo := a |} b, w',
            print_error e :: finally, Some (Ok tt))) ∧
  (∀ a,
     address = Some a →
     isGracefullyShuttingDown w = true →
     out = (unregisterNode {| node_processId := pid; addressInfo := a |} b, w,
            print_error (Rejection (JBool false)) :: finally, Some (Ok tt))) ∧
  (address = None →
   out = (b, w, [], Some (Throw (Failure "Cannot read property 'address' of null")))).
Proof.
  cbn zeta.
  assert (Hno : ∀ l : list ServerEffect,
            (∀ x, x ∈ l → ∃ e c, x = print_error e ∨ x = process_exit c) →
            (transport_shutdown ∉ l) ∧ (shutdown_callback ∉ l)).
  { intros l Hl. split; intros Hin; destruct (Hl _ Hin) as (e & c & [? | ?]); discriminate. }
  assert (Hfin : ∀ e x,
            x ∈ print_error e :: (if exit then [process_exit (if err then 1 else 0)%Z] else []) →
            ∃ e' c, x = print_error e' ∨ x = process_exit c).
  { intros e x Hx. apply elem_of_cons in Hx as [-> | Hx]; [exists e, 0%Z; by left |].
    destruct exit; [| by apply elem_of_nil in Hx].
    apply list_elem_of_singleton in Hx as ->. exists e. eexists. by right. }
  destruct address as [a |]; cycle 1.
  { cbn [Server_gracefullyShutdown fst snd].
    split.
    { split; [intros Hin; by apply elem_of_nil in Hin |]. intros [[x Hx] _]. discriminate Hx. }
    split; [split; intros Hin; by apply elem_of_nil in Hin |].
    split; [intros a t e w' Ha; discriminate Ha |].
    split; [intros a Ha; discriminate Ha | done]. }
  rewrite Server_shutdown_unfold. cbn zeta.
  split; [| split; [| split; [| split]]].
  - destruct (gracefullyShutdown E w) as [[[t [vs | e] |] | e] w'] eqn:Hrun; cbn [await fst snd].
    + split; [intros _; split; by eauto |]. intros _.
      destruct (await onShutdownCallback) as [[[] | e] |]; cbn [fst snd app];
        apply elem_of_cons; by left.
    + split.
      * intros Hin. by destruct (Hno _ (Hfin e)) as [Hn _].
      * intros (_ & t' & vs & w1 & Heq). discriminate Heq.
    + split; [intros Hin; by apply elem_of_nil in Hin |].
      intros (_ & t' & vs & w1 & Heq). discriminate Heq.
    + split.
      * intros Hin. by destruct (Hno _ (Hfin e)) as [Hn _].
      * intros (_ & t' & vs & w1 & Heq). discriminate Heq.
  - destruct (gracefullyShutdown E w) as [[[t [vs | e] |] | e] w'] eqn:Hrun; cbn [await fst snd].
    + destruct (await onShutdownCallback) as [[[] | e] |]; cbn [fst snd app];
        (split; intros _; [apply elem_of_cons; by left |
                           apply elem_of_cons; right; apply elem_of_cons; by left]).
    + destruct (Hno _ (Hfin e)) as [Hn1 Hn2]. split; intros Hin; done.
    + split; intros Hin; by apply elem_of_nil in Hin.
    + destruct (Hno _ (Hfin e)) as [Hn1 Hn2]. split; intros Hin; done.
  - intros a' t e w' Ha Hrun. inversion Ha; subst. by rewrite Hrun.
  - intros a' Ha Hflag. inversion Ha; subst.
    by rewrite (gracefullyShutdown_again E w Hflag).
  - discriminate.
Qed.

Lemma Server_shutdown_transport_witness :
  isGracefullyShuttingDown (gracefullyShutdown Sample.env Sample.one_room).2 = true ∧
  Server_gracefullyShutdown Sample.env (Some {| address := "::"; port := 2567 |}) "p1"
    (Settles 0 (Ok tt)) true false (mkBus ∅ [])
    (gracefullyShutdown Sample.env Sample.one_room).2 =
    (unregisterNode SampleServer.node1 (mkBus ∅ []),
     (gracefullyShutdown Sample.env Sample.one_room).2,
     [print_error (Rejection (JBool false)); process_exit 0], Some (Ok tt)) ∧
  Server_gracefullyShutdown Sample.env None "p1" (Settles 0 (Ok tt)) true false (mkBus ∅ [])
    Sample.one_room =
    (mkBus ∅ [], Sample.one_room, [],
     Some (Throw (Failure "Cannot read property 'address' of null"))).
Proof.
  assert (Hflag : isGracefullyShuttingDown (gracefullyShutdown Sample.env Sample.one_room).2
                  = true) by (vm_compute; reflexivity).
  split; [exact Hflag |]. split.
  - exact (proj1 (proj2 (proj2 (proj2
      (Server_shutdown_transport Sample.env (Some {| address := "::"; port := 2567 |}) "p1"
         (Settles 0 (Ok tt)) true false (mkBus ∅ [])
         (gracefullyShutdown Sample.env Sample.one_room).2))))
      {| address := "::"; port := 2567 |} eq_refl Hflag).
  - exact (proj2 (proj2 (proj2 (proj2
      (Server_shutdown_transport Sample.env None "p1" (Settles 0 (Ok tt)) true false
         (mkBus ∅ []) Sample.one_room)))) eq_refl).
Defined.


